(** * Voice Commander: the voice command interpretation pipeline

    A shallow embedding of the command matcher, the command sequencer, the
    confirmation coordinator, the learning store and the offline engine's
    transcription queue, with the properties of the design document stated
    and settled against them.

    Sources embedded here:
    - [VoiceRecognition]            (keyword table, [parseCommand]);
    - [AdvancedVoiceRecognition]    (pattern tables, matcher, sequencer,
                                     learning store, persistence);
    - [UnifiedVoiceRecognition]     (the methods it offers to its
                                     collaborators);
    - [ConfirmationSystem]          (confirmation state machine);
    - [WhisperWASMEngine]           ([processAudioData],
                                     [processQueuedAudio], [start], [stop],
                                     the callbacks of [initializeComponents]);
    - [AudioProcessor]              (voice activity detection, recording,
                                     [updateVADConfig]). *)

From Stdlib Require Import NArith ZArith QArith List Bool String Ascii Lia.
Import ListNotations.

Set Implicit Arguments.

(* ===================================================================== *)
(** * Part I. The embedding                                               *)
(* ===================================================================== *)

(** ** ECMAScript strings

    A string value is a finite sequence of UTF-16 code units.  Literals of
    the source are written as UTF-8 text and decoded by [utf16]. *)

Module JsString.

Definition code_unit := N.
Definition jsstring := list code_unit.

(** UTF-8 bytes to code points: [need] continuation bytes are still
    expected for the code point whose high bits are in [acc]. *)
Fixpoint utf8_points (need : nat) (acc : N) (bs : list N) : list N :=
  match bs with
  | [] => []
  | b :: bs' =>
      match need with
      | O =>
          if b <? 128 then b :: utf8_points 0 0 bs'
          else if b <? 224 then utf8_points 1 (N.land b 31) bs'
          else if b <? 240 then utf8_points 2 (N.land b 15) bs'
          else utf8_points 3 (N.land b 7) bs'
      | S O => (acc * 64 + N.land b 63) :: utf8_points 0 0 bs'
      | S n => utf8_points n (acc * 64 + N.land b 63) bs'
      end
  end%N.

(** A code point as one code unit, or as a surrogate pair above the BMP. *)
Definition utf16_units (cp : N) : list code_unit :=
  if (cp <? 65536)%N then [cp]
  else [55296 + N.shiftr (cp - 65536) 10; 56320 + N.land (cp - 65536) 1023]%N.

Definition utf16 (s : string) : jsstring :=
  flat_map utf16_units
    (utf8_points 0 0 (map (fun b => N.of_nat (nat_of_ascii b)) (list_ascii_of_string s))).

(** [a === b] on strings. *)
Fixpoint eqb (a b : jsstring) : bool :=
  match a, b with
  | [], [] => true
  | x :: a', y :: b' => (x =? y)%N && eqb a' b'
  | _, _ => false
  end.

(** [s.startsWith(p)]. *)
Fixpoint startsWith (s p : jsstring) : bool :=
  match p, s with
  | [], _ => true
  | _ :: _, [] => false
  | y :: p', x :: s' => (x =? y)%N && startsWith s' p'
  end.

(** [s.includes(p)]: [p] occurs at some index of [s]. *)
Fixpoint includes (s p : jsstring) : bool :=
  startsWith s p ||
  match s with
  | [] => false
  | _ :: s' => includes s' p
  end.

(** [s.split(c)] for a one-unit separator [c]. *)
Fixpoint split (c : code_unit) (s : jsstring) : list jsstring :=
  match s with
  | [] => [[]]
  | x :: s' =>
      if (x =? c)%N then [] :: split c s'
      else match split c s' with
           | [] => [[x]]
           | w :: ws => (x :: w) :: ws
           end
  end.

(** [s.replace(p, '')] with a string pattern: the first occurrence of [p]
    is removed. *)
Fixpoint remove_first (p s : jsstring) : jsstring :=
  if startsWith s p then skipn (List.length p) s
  else match s with
       | [] => []
       | x :: s' => x :: remove_first p s'
       end.

(** [a.join(sep)]. *)
Fixpoint join (sep : jsstring) (l : list jsstring) : jsstring :=
  match l with
  | [] => []
  | [a] => a
  | a :: l' => a ++ sep ++ join sep l'
  end.

(** WhiteSpace and LineTerminator code units, which [trim] strips:
    TAB, VT, FF, SP, NBSP, ZWNBSP, the Zs category, LF, CR, LS, PS. *)
Definition isWhiteSpace (c : code_unit) : bool :=
  ((c =? 9) || (c =? 10) || (c =? 11) || (c =? 12) || (c =? 13) ||
   (c =? 32) || (c =? 160) || (c =? 5760) ||
   ((8192 <=? c) && (c <=? 8202)) ||
   (c =? 8232) || (c =? 8233) || (c =? 8239) || (c =? 8287) ||
   (c =? 12288) || (c =? 65279))%N.

Fixpoint trimStart (s : jsstring) : jsstring :=
  match s with
  | [] => []
  | x :: s' => if isWhiteSpace x then trimStart s' else s
  end.

Definition trim (s : jsstring) : jsstring :=
  rev (trimStart (rev (trimStart s))).

(** The truth value of a string in a condition: only [''] is falsy. *)
Definition truthy (s : jsstring) : bool :=
  match s with
  | [] => false
  | _ :: _ => true
  end.

End JsString.

Import JsString.

Definition command := jsstring.

(** The record [saveUserLearning] serialises:
    [{ userPatterns: [[command, [phrase, ...]], ...],
       learnedCommands: [[phrase, command], ...], timestamp }]. *)
Record learningData : Type := {
  ld_userPatterns : list (command * list jsstring);
  ld_learnedCommands : list (jsstring * command);
  ld_timestamp : Z
}.

(** What the program takes from its platform:
    - [String.prototype.toLowerCase];
    - [JSON.stringify] and [JSON.parse] on the learning record, with the
      text they exchange through [localStorage]; a text that does not
      parse to such a record is [None] ([JSON.parse] or the destructuring
      of its result throws).
    The matcher, the learning store and the state machines are stated over
    any such platform. *)
Class Platform : Type := {
  toLowerCase : jsstring -> jsstring;
  storedText : Type;
  JSON_stringify : learningData -> storedText;
  JSON_parse : storedText -> option learningData
}.

(** A platform to run the scenarios on.  The case mapping is that of Basic
    Latin, the identity elsewhere: kana and kanji, the scripts of the
    keyword and pattern tables, have no case.  The stored text is the
    record itself. *)
Definition latin_lower (c : code_unit) : code_unit :=
  if ((65 <=? c) && (c <=? 90))%N then (c + 32)%N else c.

#[export] Instance model_platform : Platform := {
  toLowerCase := map latin_lower;
  storedText := learningData;
  JSON_stringify := fun d => d;
  JSON_parse := fun d => Some d
}.

(** ** Regular expressions

    The fragment the source's literals are written in: code units, [.],
    alternation, concatenation and [*]; a leading [^]; the flag [i].
    [test] is decided with derivatives. *)

Module Regex.

Inductive regex : Type :=
| Void : regex
| Eps : regex
| Chr : code_unit -> regex
| Dot : regex
| Alt : regex -> regex -> regex
| Cat : regex -> regex -> regex
| Star : regex -> regex.

Record RegExp : Type := {
  body : regex;
  anchored : bool;      (* the pattern starts with ^ *)
  ignoreCase : bool     (* the flag i *)
}.

(** [.] matches every code unit but the line terminators. *)
Definition isLineTerminator (c : code_unit) : bool :=
  ((c =? 10) || (c =? 13) || (c =? 8232) || (c =? 8233))%N.

Fixpoint nullable (r : regex) : bool :=
  match r with
  | Void => false
  | Eps => true
  | Chr _ => false
  | Dot => false
  | Alt a b => nullable a || nullable b
  | Cat a b => nullable a && nullable b
  | Star _ => true
  end.

(** The canonicalisation of a pattern with the flag [i] (and without [u]):
    the upper case of a code unit, when that is one code unit, and never a
    Basic Latin unit for a unit outside Basic Latin.  The literals of this
    program are made of Basic Latin letters, kana and kanji.  Compared with
    those, a unit is canonically equal to a Basic Latin letter exactly if
    it is that letter in either case, and to a kana or kanji unit exactly
    if it is that unit; so the upper case of Basic Latin decides every
    comparison the program makes. *)
Definition canonicalize (c : code_unit) : code_unit :=
  if ((97 <=? c) && (c <=? 122))%N then (c - 32)%N else c.

Section Matching.
Variable ic : bool.

Definition unit_matches (c x : code_unit) : bool :=
  if ic then (canonicalize c =? canonicalize x)%N else (c =? x)%N.

Fixpoint deriv (x : code_unit) (r : regex) : regex :=
  match r with
  | Void => Void
  | Eps => Void
  | Chr c => if unit_matches c x then Eps else Void
  | Dot => if isLineTerminator x then Void else Eps
  | Alt a b => Alt (deriv x a) (deriv x b)
  | Cat a b =>
      if nullable a then Alt (Cat (deriv x a) b) (deriv x b)
      else Cat (deriv x a) b
  | Star a => Cat (deriv x a) (Star a)
  end.

(** Some prefix of [s] is matched by [r]. *)
Fixpoint matches_prefix (r : regex) (s : jsstring) : bool :=
  nullable r ||
  match s with
  | [] => false
  | x :: s' => matches_prefix (deriv x r) s'
  end.

(** Some substring of [s] is matched by [r]. *)
Fixpoint matches_somewhere (r : regex) (s : jsstring) : bool :=
  matches_prefix r s ||
  match s with
  | [] => false
  | _ :: s' => matches_somewhere r s'
  end.

End Matching.

(** [re.test(s)] for a regular expression without the [g] and [y] flags. *)
Definition test (re : RegExp) (s : jsstring) : bool :=
  if anchored re then matches_prefix (ignoreCase re) (body re) s
  else matches_somewhere (ignoreCase re) (body re) s.

(** Building blocks for the literals. *)
Definition lit (s : jsstring) : regex :=
  fold_right (fun c r => Cat (Chr c) r) Eps s.

Definition alts (l : list jsstring) : regex :=
  fold_right (fun s r => Alt (lit s) r) Void l.

(** [/a/] *)
Definition re_lit (a : string) : RegExp :=
  {| body := lit (utf16 a); anchored := false; ignoreCase := false |}.

(** [/a.*b/] *)
Definition re_gap (a b : string) : RegExp :=
  {| body := Cat (lit (utf16 a)) (Cat (Star Dot) (lit (utf16 b)));
     anchored := false; ignoreCase := false |}.

(** [/^(a1|a2|...)/i] *)
Definition re_head (l : list string) : RegExp :=
  {| body := alts (map utf16 l); anchored := true; ignoreCase := true |}.

End Regex.

Import Regex.

(** ** [Map] and [Set]

    Both keep their entries in insertion order, which the iterations of the
    source observe.  Keys and members are strings. *)

Module JsMap.
Section WithValue.
Variable V : Type.

Definition t := list (jsstring * V).

(** [m.get(k)], [undefined] as [None]. *)
Fixpoint get (m : t) (k : jsstring) : option V :=
  match m with
  | [] => None
  | (k', v) :: m' => if eqb k' k then Some v else get m' k
  end.

Definition has (m : t) (k : jsstring) : bool :=
  match get m k with
  | Some _ => true
  | None => false
  end.

(** [m.set(k, v)]: an existing key keeps its place. *)
Fixpoint set (m : t) (k : jsstring) (v : V) : t :=
  match m with
  | [] => [(k, v)]
  | (k', v') :: m' =>
      if eqb k' k then (k', v) :: m' else (k', v') :: set m' k v
  end.

(** [new Map(entries)]. *)
Definition fromEntries (l : list (jsstring * V)) : t :=
  fold_left (fun m e => set m (fst e) (snd e)) l [].

(** No key occurs twice: what every [Map] of the program satisfies. *)
Definition wf (m : t) : Prop := NoDup (map fst m).

End WithValue.
End JsMap.

Module JsSet.

Definition t := list jsstring.

Definition has (s : t) (x : jsstring) : bool := existsb (eqb x) s.

(** [s.add(x)]. *)
Definition add (s : t) (x : jsstring) : t :=
  if has s x then s else s ++ [x].

(** [s.delete(x)]. *)
Definition delete (s : t) (x : jsstring) : t :=
  filter (fun y => negb (eqb y x)) s.

Definition size (s : t) : nat := List.length s.

(** [new Set(array)]. *)
Definition fromArray (l : list jsstring) : t := fold_left add l [].

Definition wf (s : t) : Prop := NoDup s.

End JsSet.

(** ** The tables of the matcher *)

Definition attack : command := utf16 "attack".
Definition defend : command := utf16 "defend".
Definition retreat : command := utf16 "retreat".
Definition status : command := utf16 "status".

(** [VoiceRecognition.commandMap], in the order of [Object.entries]. *)
Definition commandMap : list (jsstring * command) :=
  [ (utf16 "攻撃", attack); (utf16 "こうげき", attack);
    (utf16 "アタック", attack); (utf16 "たたかう", attack);
    (utf16 "戦う", attack);
    (utf16 "防御", defend); (utf16 "ぼうぎょ", defend);
    (utf16 "ディフェンス", defend); (utf16 "まもる", defend);
    (utf16 "守る", defend); (utf16 "シールド", defend);
    (utf16 "撤退", retreat); (utf16 "てったい", retreat);
    (utf16 "にげる", retreat); (utf16 "逃げる", retreat);
    (utf16 "ひく", retreat); (utf16 "引く", retreat);
    (utf16 "状況", status); (utf16 "じょうきょう", status);
    (utf16 "レポート", status); (utf16 "ほうこく", status);
    (utf16 "報告", status) ].

(** [AdvancedVoiceRecognition.naturalLanguagePatterns] after
    [initNaturalLanguagePatterns], in insertion order. *)
Definition naturalLanguagePatterns : JsMap.t (list RegExp) :=
  [ (utf16 "attack",
     [ re_gap "敵" "やっつけ"; re_gap "敵" "倒"; re_gap "敵" "撃破";
       re_gap "攻撃" "して"; re_lit "やっつけて"; re_lit "倒して";
       re_lit "撃って"; re_lit "戦って"; re_gap "敵" "消して";
       re_gap "敵" "排除"; re_gap "敵が" "うざい"; re_gap "敵" "なんとか" ]);
    (utf16 "defend",
     [ re_lit "守って"; re_lit "防いで"; re_lit "シールド"; re_lit "バリア";
       re_gap "防衛" "強化"; re_gap "回復" "して"; re_lit "治して";
       re_lit "直して"; re_lit "立て直"; re_lit "持ちこたえ"; re_lit "耐え" ]);
    (utf16 "retreat",
     [ re_lit "逃げ"; re_lit "退避"; re_lit "下がって"; re_lit "引いて";
       re_lit "避難"; re_gap "撤退" "して"; re_gap "危険" "だから";
       re_lit "やばい"; re_lit "まずい"; re_lit "無理"; re_lit "厳しい" ]);
    (utf16 "status",
     [ re_lit "どうなって"; re_gap "状況" "教えて"; re_gap "今" "どう";
       re_gap "何が" "起きて"; re_gap "現在" "状況"; re_lit "レポート";
       re_gap "報告" "して"; re_lit "確認"; re_lit "チェック" ]);
    (utf16 "combo_attack_defend",
     [ re_gap "攻撃" "防御"; re_gap "攻撃" "守"; re_gap "やっつけ" "守";
       re_gap "撃破" "防御" ]);
    (utf16 "combo_defend_attack",
     [ re_gap "防御" "攻撃"; re_gap "守" "攻撃"; re_gap "回復" "攻撃";
       re_gap "立て直" "攻撃" ]) ].

(** ** The pattern matcher of [AdvancedVoiceRecognition] *)

Section Matcher.
Context {P : Platform}.

(** [checkLearnedPatterns]: the entries are visited in insertion order and
    the first key the transcript contains decides; [null] as [None]. *)
Fixpoint checkLearnedPatterns (learnedCommands : JsMap.t command)
    (transcript : jsstring) : option command :=
  match learnedCommands with
  | [] => None
  | (pattern, cmd) :: rest =>
      if includes (toLowerCase transcript) (toLowerCase pattern)
      then Some cmd
      else checkLearnedPatterns rest transcript
  end.

(** The loop over the [combo_] entries of [parseAdvancedCommand]. *)
Fixpoint comboCheck (entries : JsMap.t (list RegExp))
    (lowerTranscript : jsstring) : option (list command) :=
  match entries with
  | [] => None
  | (combo, patterns) :: rest =>
      if startsWith combo (utf16 "combo_") &&
         existsb (fun pattern => test pattern lowerTranscript) patterns
      then Some (split 95%N (remove_first (utf16 "combo_") combo))
      else comboCheck rest lowerTranscript
  end.

(** The loop over the keyword table: every command whose keyword occurs,
    once, in table order. *)
Definition keywordCheck (table : list (jsstring * command))
    (lowerTranscript : jsstring) : list command :=
  fold_left
    (fun commands e =>
       if includes lowerTranscript (toLowerCase (fst e))
       then if existsb (eqb (snd e)) commands then commands
            else commands ++ [snd e]
       else commands)
    table [].

(** The steps of [parseAdvancedCommand] after the learned-pattern check. *)
Definition parseUnlearned (lowerTranscript : jsstring) : list command :=
  match comboCheck naturalLanguagePatterns lowerTranscript with
  | Some commandPair => commandPair
  | None => keywordCheck commandMap lowerTranscript
  end.

Definition parseAdvancedCommand (learnedCommands : JsMap.t command)
    (transcript : jsstring) : list command :=
  let lowerTranscript := toLowerCase transcript in
  match checkLearnedPatterns learnedCommands transcript with
  | Some learnedCommand =>
      if truthy learnedCommand then [learnedCommand]
      else parseUnlearned lowerTranscript
  | None => parseUnlearned lowerTranscript
  end.

(** [parseNaturalLanguage]: the first command, [combo_] entries apart, one
    of whose patterns matches. *)
Fixpoint naturalCheck (entries : JsMap.t (list RegExp))
    (lowerTranscript : jsstring) : option command :=
  match entries with
  | [] => None
  | (cmd, patterns) :: rest =>
      if startsWith cmd (utf16 "combo_") then naturalCheck rest lowerTranscript
      else if existsb (fun pattern => test pattern lowerTranscript) patterns
      then Some cmd
      else naturalCheck rest lowerTranscript
  end.

Definition parseNaturalLanguage (transcript : jsstring) : option command :=
  naturalCheck naturalLanguagePatterns (toLowerCase transcript).

(** [VoiceRecognition.parseCommand]: an exact entry of the table first, then
    the first keyword the transcript contains.  The table is read at its
    own keys; names inherited from [Object.prototype] are outside the
    model. *)
Fixpoint firstKeyword (table : list (jsstring * command))
    (lowerTranscript : jsstring) : option command :=
  match table with
  | [] => None
  | (keyword, cmd) :: rest =>
      if includes lowerTranscript (toLowerCase keyword) then Some cmd
      else firstKeyword rest lowerTranscript
  end.

Definition parseCommand (transcript : jsstring) : option command :=
  match JsMap.get commandMap transcript with
  | Some cmd => Some cmd
  | None => firstKeyword commandMap (toLowerCase transcript)
  end.

End Matcher.


(** ** Numbers

    Confidences and volumes are rationals; [<] is the order of the values.
    The rounding of binary floating point is not modelled: the thresholds
    [0.6], [0.75] and [0.8] are 6/10, 3/4 and 8/10. *)

Definition Qltb (x y : Q) : bool :=
  (Qnum x * QDen y <? Qnum y * QDen x)%Z.

(** ** The state of the pipeline *)

(** The two recognizer classes a [ConfirmationSystem] is constructed on. *)
Inductive recognizer : Type :=
| AdvancedVoiceRecognition
| UnifiedVoiceRecognition.

(** The closures [requestConfirmationWithSystem] passes as [onConfirmed]
    and [onRejected], with the variable they capture. *)
Inductive confirmedCallback : Type :=
| AdvancedOnConfirmed (allCommands : list command).

Inductive rejectedCallback : Type :=
| AdvancedOnRejected.

Record PendingConfirmation : Type := {
  pc_command : command;
  pc_originalText : jsstring;
  pc_confidence : Q;
  pc_onConfirmed : option confirmedCallback;
  pc_onRejected : option rejectedCallback;
  pc_timestamp : Z
}.

Record ConfirmationSystem : Type := {
  pendingConfirmation : option PendingConfirmation;
  confirmationTimeout : option N;
  confidenceThreshold : Q
}.

(** What a timer of the platform runs when it fires. *)
Inductive timerAction : Type :=
| ConfirmationTimeoutFires               (* () => this.handleConfirmationTimeout() *)
| SpeakRequest (text : jsstring)         (* () => this.audioManager.speakAsSystem(text) *)
| QueueWaitOver                          (* resolve of wait(ms) in processCommandQueue *)
| ExecuteLater (cmd : command) (originalText : jsstring).
                                         (* Unified: () => this.executeCommand(...) *)

Record timer : Type := {
  timerId : N;
  due : Z;
  action : timerAction
}.

(** Calls that leave the pipeline: the callback slots of the recognizer and
    the audio manager and overlay of the confirmation system.  Each is
    recorded where the source makes the call; the source skips the call of
    a callback slot that was never filled. *)
Inductive effect : Type :=
| OnCommand (cmd : command) (text : jsstring)
| OnCommandQueue (commands : list command)
| OnUserLearning (newPattern : jsstring) (cmd : command) (confidence : Q)
| OnConfirmationRequest (originalText : jsstring) (cmd : command) (confidence : Q)
| OnConfirmationRejected (originalText reason : jsstring)
| OnError (message code : jsstring)
| SpeakAsSystem (text : jsstring)
| PlaySound (name : jsstring) (volume : Q)
| ShowConfirmationUI (originalText : jsstring) (cmd : command)
| HideConfirmationUI.

Record QueuedCommand : Type := {
  qc_command : command;
  qc_originalText : jsstring;
  qc_timestamp : Z
}.

Section Pipeline.
Context {P : Platform}.

(** The recognizer object (for [UnifiedVoiceRecognition], its
    [advancedFeatures]), the confirmation system built on it, and the
    platform: clock, timers, [localStorage] at the key
    ['voiceCommanderLearning'], and the trace of effects, oldest first. *)
Record World : Type := {
  recognizerClass : recognizer;
  commandQueue : list QueuedCommand;
  processingQueue : bool;
  userPatterns : JsMap.t JsSet.t;
  learnedCommands : JsMap.t command;
  contextHistory : list (jsstring * Z);
  confirmationSystem : option ConfirmationSystem;
  now : Z;
  timers : list timer;
  nextTimerId : N;
  localStorage : option storedText;
  log : list (Z * effect)
}.

Definition set_commandQueue (q : list QueuedCommand) (w : World) : World :=
  {| recognizerClass := recognizerClass w; commandQueue := q;
     processingQueue := processingQueue w; userPatterns := userPatterns w;
     learnedCommands := learnedCommands w; contextHistory := contextHistory w;
     confirmationSystem := confirmationSystem w; now := now w;
     timers := timers w; nextTimerId := nextTimerId w;
     localStorage := localStorage w; log := log w |}.

Definition set_processingQueue (b : bool) (w : World) : World :=
  {| recognizerClass := recognizerClass w; commandQueue := commandQueue w;
     processingQueue := b; userPatterns := userPatterns w;
     learnedCommands := learnedCommands w; contextHistory := contextHistory w;
     confirmationSystem := confirmationSystem w; now := now w;
     timers := timers w; nextTimerId := nextTimerId w;
     localStorage := localStorage w; log := log w |}.

Definition set_userPatterns (m : JsMap.t JsSet.t) (w : World) : World :=
  {| recognizerClass := recognizerClass w; commandQueue := commandQueue w;
     processingQueue := processingQueue w; userPatterns := m;
     learnedCommands := learnedCommands w; contextHistory := contextHistory w;
     confirmationSystem := confirmationSystem w; now := now w;
     timers := timers w; nextTimerId := nextTimerId w;
     localStorage := localStorage w; log := log w |}.

Definition set_learnedCommands (m : JsMap.t command) (w : World) : World :=
  {| recognizerClass := recognizerClass w; commandQueue := commandQueue w;
     processingQueue := processingQueue w; userPatterns := userPatterns w;
     learnedCommands := m; contextHistory := contextHistory w;
     confirmationSystem := confirmationSystem w; now := now w;
     timers := timers w; nextTimerId := nextTimerId w;
     localStorage := localStorage w; log := log w |}.

Definition set_contextHistory (h : list (jsstring * Z)) (w : World) : World :=
  {| recognizerClass := recognizerClass w; commandQueue := commandQueue w;
     processingQueue := processingQueue w; userPatterns := userPatterns w;
     learnedCommands := learnedCommands w; contextHistory := h;
     confirmationSystem := confirmationSystem w; now := now w;
     timers := timers w; nextTimerId := nextTimerId w;
     localStorage := localStorage w; log := log w |}.

Definition set_confirmationSystem (c : option ConfirmationSystem) (w : World) : World :=
  {| recognizerClass := recognizerClass w; commandQueue := commandQueue w;
     processingQueue := processingQueue w; userPatterns := userPatterns w;
     learnedCommands := learnedCommands w; contextHistory := contextHistory w;
     confirmationSystem := c; now := now w;
     timers := timers w; nextTimerId := nextTimerId w;
     localStorage := localStorage w; log := log w |}.

Definition set_now (t : Z) (w : World) : World :=
  {| recognizerClass := recognizerClass w; commandQueue := commandQueue w;
     processingQueue := processingQueue w; userPatterns := userPatterns w;
     learnedCommands := learnedCommands w; contextHistory := contextHistory w;
     confirmationSystem := confirmationSystem w; now := t;
     timers := timers w; nextTimerId := nextTimerId w;
     localStorage := localStorage w; log := log w |}.

Definition set_timers (ts : list timer) (n : N) (w : World) : World :=
  {| recognizerClass := recognizerClass w; commandQueue := commandQueue w;
     processingQueue := processingQueue w; userPatterns := userPatterns w;
     learnedCommands := learnedCommands w; contextHistory := contextHistory w;
     confirmationSystem := confirmationSystem w; now := now w;
     timers := ts; nextTimerId := n;
     localStorage := localStorage w; log := log w |}.

Definition set_localStorage (d : option storedText) (w : World) : World :=
  {| recognizerClass := recognizerClass w; commandQueue := commandQueue w;
     processingQueue := processingQueue w; userPatterns := userPatterns w;
     learnedCommands := learnedCommands w; contextHistory := contextHistory w;
     confirmationSystem := confirmationSystem w; now := now w;
     timers := timers w; nextTimerId := nextTimerId w;
     localStorage := d; log := log w |}.

Definition set_log (l : list (Z * effect)) (w : World) : World :=
  {| recognizerClass := recognizerClass w; commandQueue := commandQueue w;
     processingQueue := processingQueue w; userPatterns := userPatterns w;
     learnedCommands := learnedCommands w; contextHistory := contextHistory w;
     confirmationSystem := confirmationSystem w; now := now w;
     timers := timers w; nextTimerId := nextTimerId w;
     localStorage := localStorage w; log := l |}.

(** An effect, stamped with the clock. *)
Definition emit (e : effect) (w : World) : World :=
  set_log (log w ++ [(now w, e)]) w.

(** [setTimeout(action, delay)]: the new timer's id, and the world with it. *)
Definition setTimeout (a : timerAction) (delay : Z) (w : World) : N * World :=
  (nextTimerId w,
   set_timers (timers w ++ [{| timerId := nextTimerId w; due := now w + delay; action := a |}])
              (nextTimerId w + 1) w).

(** [clearTimeout(id)]. *)
Definition clearTimeout (id : N) (w : World) : World :=
  set_timers (filter (fun t => negb (timerId t =? id)%N) (timers w)) (nextTimerId w) w.

(** ** The learning store of [AdvancedVoiceRecognition] *)

(** [saveUserLearning]: both maps as arrays of entries, with the clock, under
    the storage key.  [setItem] is taken to succeed (a failure is caught and
    logged by the source, and leaves the store as it was). *)
Definition saveUserLearning (w : World) : World :=
  let learningData :=
    {| ld_userPatterns := map (fun e => (fst e, snd e)) (userPatterns w);
       ld_learnedCommands := learnedCommands w;
       ld_timestamp := now w |} in
  set_localStorage (Some (JSON_stringify learningData)) w.

(** [loadUserLearning]: nothing is changed when the key is absent or its
    text does not parse (the exception is caught). *)
Definition loadUserLearning (w : World) : World :=
  match localStorage w with
  | None => w
  | Some data =>
      match JSON_parse data with
      | None => w
      | Some learningData =>
          set_learnedCommands (JsMap.fromEntries (ld_learnedCommands learningData))
            (set_userPatterns
               (JsMap.fromEntries
                  (map (fun e => (fst e, JsSet.fromArray (snd e)))
                       (ld_userPatterns learningData)))
               w)
      end
  end.

(** The phrase set of a command: [userPatterns.get(command)] once
    [learnSuccessfulPattern] has made sure the key exists. *)
Definition phrasesOf (m : JsMap.t JsSet.t) (cmd : command) : JsSet.t :=
  match JsMap.get m cmd with
  | Some patterns => patterns
  | None => []
  end.

(** The first half of [learnSuccessfulPattern]: the command gets an empty
    set when it has none, and the phrase is added to its set. *)
Definition recordPhrase (m : JsMap.t JsSet.t) (cmd : command) (key : jsstring)
  : JsMap.t JsSet.t :=
  let m0 := if JsMap.has m cmd then m else JsMap.set m cmd [] in
  JsMap.set m0 cmd (JsSet.add (phrasesOf m0 cmd) key).

(** [learnSuccessfulPattern(transcript, commands)].  The command recorded is
    [commands[0]]; every call site passes a non-empty array, and the model
    leaves the store alone on an empty one. *)
Definition learnSuccessfulPattern (transcript : jsstring)
    (commands : list command) (w : World) : World :=
  match commands with
  | [] => w
  | cmd :: _ =>
      let key := trim (toLowerCase transcript) in
      let w1 := set_userPatterns (recordPhrase (userPatterns w) cmd key) w in
      if (3 <=? JsSet.size (phrasesOf (userPatterns w1) cmd))%nat
      then saveUserLearning (set_learnedCommands (JsMap.set (learnedCommands w1) key cmd) w1)
      else w1
  end.

(** [addLearningPattern(originalText, command, confidence = 1.0)]. *)
Definition addLearningPattern (originalText : jsstring) (cmd : command)
    (confidence : Q) (w : World) : World :=
  emit (OnUserLearning originalText cmd confidence)
       (learnSuccessfulPattern originalText [cmd] w).

(** [addCorrectionPattern]: the loop deletes the phrase from the set of
    every command. *)
Definition deleteEverywhere (phrase : jsstring) (m : JsMap.t JsSet.t) : JsMap.t JsSet.t :=
  map (fun e => (fst e, JsSet.delete (snd e) phrase)) m.

Definition addCorrectionPattern (originalText : jsstring) (wrongCommand : command)
    (correctedText : jsstring) (correctCommand : command) (w : World) : World :=
  addLearningPattern correctedText correctCommand 1
    (set_userPatterns
       (deleteEverywhere (trim (toLowerCase originalText)) (userPatterns w)) w).

(** What the maps of the store satisfy as [Map]s and [Set]s: no command
    and no learned phrase is a key twice, no phrase is twice in a set. *)
Definition LearningWf (w : World) : Prop :=
  JsMap.wf (userPatterns w) /\
  (forall c s, In (c, s) (userPatterns w) -> JsSet.wf s) /\
  JsMap.wf (learnedCommands w).

(** ** The command sequencer of [AdvancedVoiceRecognition] *)

Definition queueProcessingDelay : Z := 1000.

(** [executeCommand]: the pair goes to the [onCommand] slot. *)
Definition executeCommand (cmd : command) (originalText : jsstring) (w : World) : World :=
  emit (OnCommand cmd originalText) w.

(** One turn of the [while] loop of [processCommandQueue], from its test to
    the [await] or to the end of the function. *)
Definition drainQueue (w : World) : World :=
  match commandQueue w with
  | [] => set_processingQueue false w
  | commandInfo :: rest =>
      let w1 := executeCommand (qc_command commandInfo) (qc_originalText commandInfo)
                  (set_commandQueue rest w) in
      match commandQueue w1 with
      | [] => set_processingQueue false w1
      | _ :: _ => snd (setTimeout QueueWaitOver queueProcessingDelay w1)
      end
  end.

(** [processCommandQueue], up to its first [await]. *)
Definition processCommandQueue (w : World) : World :=
  if processingQueue w then w
  else drainQueue (set_processingQueue true w).

(** [queueCommands]. *)
Definition queueCommands (commands : list command) (originalText : jsstring)
    (w : World) : World :=
  let w1 := set_commandQueue
              (commandQueue w ++
               map (fun c => {| qc_command := c; qc_originalText := originalText;
                                qc_timestamp := now w |}) commands) w in
  let w2 := if processingQueue w1 then w1 else processCommandQueue w1 in
  emit (OnCommand (utf16 "queue")
          (utf16 "連続コマンド：" ++ join (utf16 " → ") commands)) w2.

(** [addToContext]: newest first, at most [maxContextHistory] entries. *)
Definition maxContextHistory : nat := 10.

Definition addToContext (transcript : jsstring) (w : World) : World :=
  set_contextHistory (firstn maxContextHistory ((transcript, now w) :: contextHistory w)) w.

(** ** Unrecognized input *)

(** The string iterator of [for (const char of str1)]: a high surrogate
    followed by a low one is one element, every other code unit is one. *)
Fixpoint stringIterator (s : jsstring) : list jsstring :=
  match s with
  | [] => []
  | x :: s' =>
      match s' with
      | y :: s'' =>
          if ((55296 <=? x) && (x <=? 56319) && (56320 <=? y) && (y <=? 57343))%N
          then match stringIterator s' with
               | [] => [[x; y]]
               | _ :: r => [x; y] :: r
               end
          else [x] :: stringIterator s'
      | [] => [[x]]
      end
  end.

(** [chars2.indexOf(char)] followed by [chars2.splice(index, 1)]: the list
    without the first occurrence, when there is one. *)
Fixpoint spliceFirst (char : jsstring) (chars2 : list jsstring) : option (list jsstring) :=
  match chars2 with
  | [] => None
  | c :: r =>
      if eqb c char then Some r
      else match spliceFirst char r with
           | Some r' => Some (c :: r')
           | None => None
           end
  end.

Fixpoint countCommon (chars1 chars2 : list jsstring) : nat :=
  match chars1 with
  | [] => O
  | char :: r =>
      match spliceFirst char chars2 with
      | Some chars2' => S (countCommon r chars2')
      | None => countCommon r chars2
      end
  end.

(** [countCommonCharacters(str1, str2)]; [str2.split('')] is the list of
    the code units of [str2]. *)
Definition countCommonCharacters (str1 str2 : jsstring) : nat :=
  countCommon (stringIterator str1) (map (fun c => [c]) str2).

(** [calculateSimilarity]. *)
Definition calculateSimilarity (str1 str2 : jsstring) : Q :=
  let longer := if (List.length str2 <? List.length str1)%nat then str1 else str2 in
  let shorter := if (List.length str2 <? List.length str1)%nat then str2 else str1 in
  if (List.length longer =? 0)%nat then 1
  else Z.of_nat (countCommonCharacters longer shorter) # Pos.of_nat (List.length longer).

(** [findSimilarPatterns]. *)
Definition basicCommands : list jsstring :=
  [utf16 "攻撃"; utf16 "防御"; utf16 "撤退"; utf16 "状況"].

Definition findSimilarPatterns (transcript : jsstring) : list jsstring :=
  firstn 3
    (filter (fun cmd => Qltb (3 # 10) (calculateSimilarity (toLowerCase transcript) (toLowerCase cmd)))
            basicCommands).

(** [handleUnrecognizedInput]. *)
Definition handleUnrecognizedInput (transcript : jsstring) (w : World) : World :=
  match findSimilarPatterns transcript with
  | [] => emit (OnCommand (utf16 "help") (utf16 "利用可能なコマンド：攻撃、防御、撤退、状況")) w
  | suggestions =>
      emit (OnCommand (utf16 "suggestion")
              (utf16 "もしかして：" ++ join (utf16 "、") suggestions)) w
  end.

(** ** Exceptions

    A call of the source completes normally, with a value, or throws. *)
Inductive jsError : Type :=
| TypeError (message : string).

Inductive completion (A : Type) : Type :=
| Normal (a : A) (w : World)
| Throw (e : jsError) (w : World).

Arguments Normal {A} a w.
Arguments Throw {A} e w.

Definition bind {A B : Type} (c : completion A) (k : A -> World -> completion B)
  : completion B :=
  match c with
  | Normal a w => k a w
  | Throw e w => Throw e w
  end.

Definition finalWorld {A : Type} (c : completion A) : World :=
  match c with
  | Normal _ w => w
  | Throw _ w => w
  end.

(** ** The methods a [ConfirmationSystem] calls on its recognizer

    [AdvancedVoiceRecognition] has [parseCommand] (from [VoiceRecognition]),
    [addLearningPattern] and [addCorrectionPattern];
    [UnifiedVoiceRecognition] declares none of them, and calling an
    undefined property throws a [TypeError]. *)
Definition voiceRecognition_parseCommand (transcript : jsstring) (w : World)
  : completion (option command) :=
  match recognizerClass w with
  | AdvancedVoiceRecognition => Normal (parseCommand transcript) w
  | UnifiedVoiceRecognition =>
      Throw (TypeError "this.voiceRecognition.parseCommand is not a function") w
  end.

Definition voiceRecognition_addLearningPattern (originalText : jsstring)
    (cmd : command) (confidence : Q) (w : World) : completion unit :=
  match recognizerClass w with
  | AdvancedVoiceRecognition => Normal tt (addLearningPattern originalText cmd confidence w)
  | UnifiedVoiceRecognition =>
      Throw (TypeError "this.voiceRecognition.addLearningPattern is not a function") w
  end.

Definition voiceRecognition_addCorrectionPattern (originalText : jsstring)
    (wrongCommand : command) (correctedText : jsstring) (correctCommand : command)
    (w : World) : completion unit :=
  match recognizerClass w with
  | AdvancedVoiceRecognition =>
      Normal tt (addCorrectionPattern originalText wrongCommand correctedText correctCommand w)
  | UnifiedVoiceRecognition =>
      Throw (TypeError "this.voiceRecognition.addCorrectionPattern is not a function") w
  end.

(** ** [ConfirmationSystem] *)

(** The fields the constructor sets. *)
Definition newConfirmationSystem : ConfirmationSystem :=
  {| pendingConfirmation := None; confirmationTimeout := None;
     confidenceThreshold := 6 # 10 |}.

Definition yesPhrase : RegExp :=
  re_head ["はい"; "そうです"; "正解"; "オーケー"; "OK"; "うん"; "そう"; "その通り"]%string.
Definition noPhrase : RegExp :=
  re_head ["いいえ"; "違います"; "ちがう"; "だめ"; "ノー"; "NO"; "違う"]%string.
Definition retryPhrase : RegExp :=
  re_head ["もう一度"; "やり直し"; "リトライ"; "再度"]%string.

Definition criticalCommands : list jsstring := [utf16 "撤退"; utf16 "retreat"].

(** [shouldConfirm(command, originalText, confidence)]. *)
Definition shouldConfirm (c : ConfirmationSystem) (cmd : command)
    (originalText : jsstring) (confidence : Q) : bool :=
  if Qltb confidence (confidenceThreshold c) then true
  else if existsb (fun critical => includes (toLowerCase cmd) (toLowerCase critical))
                  criticalCommands
  then Qltb confidence (8 # 10)
  else if (3 <? List.length (split 32%N originalText))%nat && Qltb confidence (75 # 100)
  then true
  else false.

(** Reading and writing the fields of [this] inside the world. *)
Definition pendingOf (w : World) : option PendingConfirmation :=
  match confirmationSystem w with
  | Some c => pendingConfirmation c
  | None => None
  end.

Definition timeoutOf (w : World) : option N :=
  match confirmationSystem w with
  | Some c => confirmationTimeout c
  | None => None
  end.

Definition set_pendingConfirmation (p : option PendingConfirmation) (w : World) : World :=
  set_confirmationSystem
    (option_map (fun c => {| pendingConfirmation := p;
                             confirmationTimeout := confirmationTimeout c;
                             confidenceThreshold := confidenceThreshold c |})
                (confirmationSystem w)) w.

Definition set_confirmationTimeout (t : option N) (w : World) : World :=
  set_confirmationSystem
    (option_map (fun c => {| pendingConfirmation := pendingConfirmation c;
                             confirmationTimeout := t;
                             confidenceThreshold := confidenceThreshold c |})
                (confirmationSystem w)) w.

(** [hideConfirmationUI] and [showConfirmationUI] touch the overlay only;
    their fade timers are not scheduled in the model. *)
Definition hideConfirmationUI (w : World) : World := emit HideConfirmationUI w.

Definition showConfirmationUI (w : World) : World :=
  match pendingOf w with
  | Some p => emit (ShowConfirmationUI (pc_originalText p) (pc_command p)) w
  | None => w
  end.

(** [clearPendingConfirmation]. *)
Definition clearPendingConfirmation (w : World) : World :=
  let w1 := match timeoutOf w with
            | Some id => set_confirmationTimeout None (clearTimeout id w)
            | None => w
            end in
  hideConfirmationUI (set_pendingConfirmation None w1).

(** [speakConfirmationRequest]. *)
Definition speakConfirmationRequest (w : World) : World :=
  match pendingOf w with
  | None => w
  | Some p =>
      snd (setTimeout (SpeakRequest (pc_command p ++ utf16 "、でよろしいですか？")) 500 w)
  end.

(** [requestConfirmation]. *)
Definition requestConfirmation (cmd : command) (originalText : jsstring)
    (confidence : Q) (onConfirmed : option confirmedCallback)
    (onRejected : option rejectedCallback) (w : World) : World :=
  let w1 := clearPendingConfirmation w in
  let w2 := set_pendingConfirmation
              (Some {| pc_command := cmd; pc_originalText := originalText;
                       pc_confidence := confidence; pc_onConfirmed := onConfirmed;
                       pc_onRejected := onRejected; pc_timestamp := now w1 |}) w1 in
  let w3 := speakConfirmationRequest (showConfirmationUI w2) in
  let (id, w4) := setTimeout ConfirmationTimeoutFires 10000 w3 in
  set_confirmationTimeout (Some id) w4.

(** The closures of [AdvancedVoiceRecognition.requestConfirmationWithSystem]. *)
Definition callConfirmed (cb : confirmedCallback) (confirmedCommand : command)
    (confirmedText : jsstring) (w : World) : World :=
  match cb with
  | AdvancedOnConfirmed allCommands =>
      let w1 := if (List.length allCommands =? 1)%nat
                then executeCommand confirmedCommand confirmedText w
                else queueCommands (confirmedCommand :: skipn 1 allCommands) confirmedText w in
      learnSuccessfulPattern confirmedText [confirmedCommand] w1
  end.

Definition callRejected (cb : rejectedCallback) (originalText reason : jsstring)
    (w : World) : World :=
  match cb with
  | AdvancedOnRejected => emit (OnConfirmationRejected originalText reason) w
  end.

(** [confirmCommand]. *)
Definition confirmCommand (w : World) : completion unit :=
  match pendingOf w with
  | None => Normal tt w
  | Some p =>
      let w1 := hideConfirmationUI w in
      let w2 := match pc_onConfirmed p with
                | Some cb => callConfirmed cb (pc_command p) (pc_originalText p) w1
                | None => w1
                end in
      let w3 := emit (PlaySound (utf16 "notification") (1 # 2)) w2 in
      bind (voiceRecognition_addLearningPattern (pc_originalText p) (pc_command p) 1 w3)
           (fun _ w4 => Normal tt (clearPendingConfirmation w4))
  end.

(** [rejectCommand]. *)
Definition rejectCommand (w : World) : World :=
  match pendingOf w with
  | None => w
  | Some p =>
      let w1 := hideConfirmationUI w in
      let w2 := match pc_onRejected p with
                | Some cb => callRejected cb (pc_originalText p) (utf16 "認識が間違っていました") w1
                | None => w1
                end in
      clearPendingConfirmation (emit (PlaySound (utf16 "error") (3 # 10)) w2)
  end.

(** [replaceCommand]. *)
Definition replaceCommand (newCommand : command) (newText : jsstring) (w : World)
  : completion unit :=
  match pendingOf w with
  | None => Normal tt w
  | Some p =>
      let w1 := hideConfirmationUI w in
      let w2 := match pc_onConfirmed p with
                | Some cb => callConfirmed cb newCommand newText w1
                | None => w1
                end in
      bind (voiceRecognition_addCorrectionPattern (pc_originalText p) (pc_command p)
              newText newCommand w2)
           (fun _ w3 =>
              Normal tt (clearPendingConfirmation
                           (emit (PlaySound (utf16 "success") (4 # 10)) w3)))
  end.

(** [retryCommand]. *)
Definition retryCommand (w : World) : World :=
  match pendingOf w with
  | None => w
  | Some _ =>
      clearPendingConfirmation
        (emit (SpeakAsSystem (utf16 "もう一度お聞かせください")) (hideConfirmationUI w))
  end.

(** [handleUnknownResponse]. *)
Definition handleUnknownResponse (responseText : jsstring) (w : World) : World :=
  let w1 := emit (PlaySound (utf16 "notification") (3 # 10))
              (emit (SpeakAsSystem
                       (utf16 "「はい」「いいえ」でお答えいただくか、正しいコマンドをお聞かせください")) w) in
  match timeoutOf w1 with
  | Some id =>
      let (id', w2) := setTimeout ConfirmationTimeoutFires 10000 (clearTimeout id w1) in
      set_confirmationTimeout (Some id') w2
  | None => w1
  end.

(** [handleConfirmationTimeout]. *)
Definition handleConfirmationTimeout (w : World) : World :=
  match pendingOf w with
  | None => w
  | Some _ => emit (SpeakAsSystem (utf16 "確認がタイムアウトしました")) (rejectCommand w)
  end.

(** [handleConfirmationResponse]. *)
Definition handleConfirmationResponse (responseText : jsstring) (w : World)
  : completion bool :=
  match pendingOf w with
  | None => Normal false w
  | Some _ =>
      let response := toLowerCase responseText in
      if test yesPhrase response then
        bind (confirmCommand w) (fun _ w' => Normal true w')
      else if test noPhrase response then Normal true (rejectCommand w)
      else if test retryPhrase response then Normal true (retryCommand w)
      else
        bind (voiceRecognition_parseCommand response w)
          (fun newCommand w1 =>
             match newCommand with
             | Some c =>
                 if truthy c && negb (eqb c (utf16 "unknown"))
                 then bind (replaceCommand c responseText w1) (fun _ w' => Normal true w')
                 else Normal false (handleUnknownResponse responseText w1)
             | None => Normal false (handleUnknownResponse responseText w1)
             end)
  end.

(** ** [AdvancedVoiceRecognition.processRecognitionResult] *)

Definition hasPendingConfirmation (w : World) : bool :=
  match pendingOf w with
  | Some _ => true
  | None => false
  end.

(** [requestConfirmationWithSystem]. *)
Definition requestConfirmationWithSystem (cmd : command) (transcript : jsstring)
    (confidence : Q) (allCommands : list command) (w : World) : World :=
  match confirmationSystem w with
  | None => executeCommand cmd transcript w
  | Some _ =>
      requestConfirmation cmd transcript confidence
        (Some (AdvancedOnConfirmed allCommands)) (Some AdvancedOnRejected) w
  end.

(** The commands of a transcript in [processRecognitionResult]:
    [parseAdvancedCommand], and [parseNaturalLanguage] when it finds none. *)
Definition commandsOf (learned : JsMap.t command) (transcript : jsstring) : list command :=
  match parseAdvancedCommand learned transcript with
  | [] => match parseNaturalLanguage transcript with
          | Some naturalCommand => if truthy naturalCommand then [naturalCommand] else []
          | None => []
          end
  | commands => commands
  end.

(** What [processRecognitionResult] does with them. *)
Definition actOn (commands : list command) (transcript : jsstring) (confidence : Q)
    (w : World) : World :=
  match commands with
  | [] => handleUnrecognizedInput transcript w
  | primaryCommand :: others =>
      if match confirmationSystem w with
         | Some c => shouldConfirm c primaryCommand transcript confidence
         | None => false
         end
      then requestConfirmationWithSystem primaryCommand transcript confidence commands w
      else
        let w1 := learnSuccessfulPattern transcript commands w in
        match others with
        | [] => executeCommand primaryCommand transcript w1
        | _ :: _ => queueCommands commands transcript w1
        end
  end.

(** The part of [processRecognitionResult] after the confirmation check. *)
Definition interpretTranscript (transcript : jsstring) (confidence : Q) (w : World) : World :=
  actOn (commandsOf (learnedCommands w) transcript) transcript confidence w.

Definition processRecognitionResult (transcript : jsstring) (confidence : Q) (w : World)
  : completion unit :=
  let w1 := addToContext transcript w in
  if hasPendingConfirmation w1 then
    bind (handleConfirmationResponse transcript w1)
      (fun handled w2 =>
         if handled then Normal tt w2
         else Normal tt (interpretTranscript transcript confidence w2))
  else Normal tt (interpretTranscript transcript confidence w1).

(** ** [UnifiedVoiceRecognition] *)

(** The table local to its [parseAdvancedCommand]. *)
Definition Unified_commandMap : list (jsstring * command) :=
  [ (utf16 "攻撃", attack); (utf16 "こうげき", attack); (utf16 "attack", attack);
    (utf16 "防御", defend); (utf16 "ぼうぎょ", defend); (utf16 "defend", defend);
    (utf16 "撤退", retreat); (utf16 "てったい", retreat); (utf16 "retreat", retreat);
    (utf16 "状況", status); (utf16 "じょうきょう", status); (utf16 "status", status) ].

(** [advancedFeatures.naturalLanguagePatterns] after
    [initializeNaturalLanguagePatterns]. *)
Definition Unified_naturalLanguagePatterns : JsMap.t (list RegExp) :=
  [ (utf16 "attack",
     [ re_gap "敵" "やっつけ"; re_gap "敵" "倒"; re_gap "敵" "撃破";
       re_gap "攻撃" "して"; re_lit "やっつけて"; re_lit "倒して";
       re_lit "撃って"; re_lit "戦って"; re_gap "敵" "消して";
       re_gap "敵" "排除" ]);
    (utf16 "defend",
     [ re_lit "守って"; re_lit "防いで"; re_lit "シールド"; re_lit "バリア";
       re_gap "防衛" "強化"; re_gap "回復" "して"; re_lit "治して";
       re_lit "直して"; re_lit "立て直"; re_lit "持ちこたえ"; re_lit "耐え" ]);
    (utf16 "retreat",
     [ re_lit "逃げ"; re_lit "退避"; re_lit "下がって"; re_lit "引いて";
       re_lit "避難"; re_gap "撤退" "して"; re_gap "危険" "だから";
       re_lit "やばい"; re_lit "まずい"; re_lit "無理"; re_lit "厳しい" ]);
    (utf16 "status",
     [ re_lit "どうなって"; re_gap "状況" "教えて"; re_gap "今" "どう";
       re_gap "何が" "起きて"; re_gap "現在" "状況"; re_lit "レポート";
       re_gap "報告" "して"; re_lit "確認"; re_lit "チェック" ]) ].

Definition Unified_parseAdvancedCommand (learned : JsMap.t command) (transcript : jsstring)
  : list command :=
  let lowerTranscript := toLowerCase transcript in
  match checkLearnedPatterns learned transcript with
  | Some learnedCommand =>
      if truthy learnedCommand then [learnedCommand]
      else keywordCheck Unified_commandMap lowerTranscript
  | None => keywordCheck Unified_commandMap lowerTranscript
  end.

Fixpoint Unified_naturalCheck (entries : JsMap.t (list RegExp)) (lowerTranscript : jsstring)
  : option command :=
  match entries with
  | [] => None
  | (cmd, patternArray) :: rest =>
      if existsb (fun pattern => test pattern lowerTranscript) patternArray
      then Some cmd
      else Unified_naturalCheck rest lowerTranscript
  end.

Definition Unified_parseNaturalLanguage (transcript : jsstring) : option command :=
  Unified_naturalCheck Unified_naturalLanguagePatterns (toLowerCase transcript).

(** Its [learnSuccessfulPattern] records the phrase and promotes nothing. *)
Definition Unified_learnSuccessfulPattern (transcript : jsstring) (commands : list command)
    (w : World) : World :=
  match commands with
  | [] => w
  | cmd :: _ =>
      set_userPatterns (recordPhrase (userPatterns w) cmd (trim (toLowerCase transcript))) w
  end.

(** Its [queueCommands]: one timer per command, at [index * delay]. *)
Fixpoint Unified_scheduleAll (commands : list command) (originalText : jsstring)
    (index : Z) (w : World) : World :=
  match commands with
  | [] => w
  | cmd :: rest =>
      Unified_scheduleAll rest originalText (index + 1)
        (snd (setTimeout (ExecuteLater cmd originalText) (index * queueProcessingDelay) w))
  end.

Definition Unified_queueCommands (commands : list command) (originalText : jsstring)
    (w : World) : World :=
  Unified_scheduleAll commands originalText 0 (emit (OnCommandQueue commands) w).

(** Its [requestConfirmationWithSystem] notifies the slot and opens no
    pending confirmation. *)
Definition Unified_requestConfirmationWithSystem (cmd : command) (transcript : jsstring)
    (confidence : Q) (allCommands : list command) (w : World) : World :=
  emit (OnConfirmationRequest transcript cmd confidence) w.

Definition Unified_handleUnrecognizedInput (transcript : jsstring) (w : World) : World :=
  emit (OnError (utf16 "認識できませんでした: " ++ [34%N] ++ transcript ++ [34%N])
                (utf16 "unrecognized")) w.

Definition Unified_commandsOf (learned : JsMap.t command) (transcript : jsstring)
  : list command :=
  match Unified_parseAdvancedCommand learned transcript with
  | [] => match Unified_parseNaturalLanguage transcript with
          | Some naturalCommand => if truthy naturalCommand then [naturalCommand] else []
          | None => []
          end
  | commands => commands
  end.

Definition Unified_actOn (commands : list command) (transcript : jsstring)
    (confidence : Q) (w : World) : World :=
  match commands with
  | [] => Unified_handleUnrecognizedInput transcript w
  | primaryCommand :: others =>
      if match confirmationSystem w with
         | Some c => shouldConfirm c primaryCommand transcript confidence
         | None => false
         end
      then Unified_requestConfirmationWithSystem primaryCommand transcript confidence commands w
      else
        let w1 := Unified_learnSuccessfulPattern transcript commands w in
        match others with
        | [] => executeCommand primaryCommand transcript w1
        | _ :: _ => Unified_queueCommands commands transcript w1
        end
  end.

Definition Unified_interpretTranscript (transcript : jsstring) (confidence : Q) (w : World)
  : World :=
  Unified_actOn (Unified_commandsOf (learnedCommands w) transcript) transcript confidence w.

(** [UnifiedVoiceRecognition.processRecognitionResult]: no handler stands
    between the call of [handleConfirmationResponse] and the caller. *)
Definition Unified_processRecognitionResult (transcript : jsstring) (confidence : Q) (w : World)
  : completion unit :=
  let w1 := addToContext transcript w in
  if hasPendingConfirmation w1 then
    bind (handleConfirmationResponse transcript w1)
      (fun handled w2 =>
         if handled then Normal tt w2
         else Normal tt (Unified_interpretTranscript transcript confidence w2))
  else Normal tt (Unified_interpretTranscript transcript confidence w1).



(** ** Timers firing

    The platform runs a timer that is still scheduled, not before it is
    due; a timer that was cleared never runs. *)
Definition runTimer (a : timerAction) (w : World) : World :=
  match a with
  | ConfirmationTimeoutFires => handleConfirmationTimeout w
  | SpeakRequest text => emit (SpeakAsSystem text) w
  | QueueWaitOver => drainQueue w
  | ExecuteLater cmd originalText => executeCommand cmd originalText w
  end.

Definition fire (id : N) (w : World) : World :=
  match find (fun t => (timerId t =? id)%N) (timers w) with
  | None => w
  | Some t => runTimer (action t) (set_now (Z.max (now w) (due t)) (clearTimeout id w))
  end.

(** The scheduled timers that would run the timeout handler, and what the
    confirmation system keeps true of them: it remembers, in
    [confirmationTimeout], the one such timer there is. *)
Definition isConfirmationTimer (t : timer) : bool :=
  match action t with
  | ConfirmationTimeoutFires => true
  | _ => false
  end.

Definition confirmationTimers (w : World) : list timer :=
  filter isConfirmationTimer (timers w).

Definition TimersOk (w : World) : Prop :=
  (forall t, In t (timers w) -> (timerId t < nextTimerId w)%N) /\
  (forall t, In t (confirmationTimers w) -> timeoutOf w = Some (timerId t)).

(** What the calls from the confirmation system into the recognizer leave
    alone: its class, the confirmation system and the timers of its timeout. *)
Definition KeepsConfirmation (w w' : World) : Prop :=
  recognizerClass w' = recognizerClass w /\
  confirmationSystem w' = confirmationSystem w /\
  confirmationTimers w' = confirmationTimers w.

(** The recognizer right after construction, at clock [t0], with or without
    a confirmation system, and an empty store. *)
Definition newWorld (cls : recognizer) (withConfirmation : bool) (t0 : Z) : World :=
  {| recognizerClass := cls; commandQueue := []; processingQueue := false;
     userPatterns := []; learnedCommands := []; contextHistory := [];
     confirmationSystem := if withConfirmation then Some newConfirmationSystem else None;
     now := t0; timers := []; nextTimerId := 1; localStorage := None; log := [] |}.

End Pipeline.

Arguments Normal {P A} a w.
Arguments Throw {P A} e w.

(** ** [WhisperWASMEngine]: the transcription queue

    The engine between [init] and [cleanup].  [audio] is the sample buffer
    of one utterance. *)

Module Whisper.
Section Engine.
Variable audio : Type.

Record AudioItem : Type := {
  audioData : audio;
  duration : Z;
  timestamp : Z
}.

Record Engine : Type := {
  isListening : bool;
  isProcessing : bool;
  processingQueue : list AudioItem;
  whisperContext : bool;              (* this.whisperContext is not null *)
  clock : Z;
  inFlight : list audio;              (* calls of whisperModule.transcribe not yet settled *)
  transcribeCalls : list audio;       (* every call of whisperModule.transcribe, oldest first *)
  notified : list (jsstring * Q)      (* arguments of notifyResult, oldest first *)
}.

Definition set_isListening (b : bool) (e : Engine) : Engine :=
  {| isListening := b; isProcessing := isProcessing e;
     processingQueue := processingQueue e; whisperContext := whisperContext e;
     clock := clock e; inFlight := inFlight e;
     transcribeCalls := transcribeCalls e; notified := notified e |}.

Definition set_isProcessing (b : bool) (e : Engine) : Engine :=
  {| isListening := isListening e; isProcessing := b;
     processingQueue := processingQueue e; whisperContext := whisperContext e;
     clock := clock e; inFlight := inFlight e;
     transcribeCalls := transcribeCalls e; notified := notified e |}.

Definition set_processingQueue (q : list AudioItem) (e : Engine) : Engine :=
  {| isListening := isListening e; isProcessing := isProcessing e;
     processingQueue := q; whisperContext := whisperContext e;
     clock := clock e; inFlight := inFlight e;
     transcribeCalls := transcribeCalls e; notified := notified e |}.

(** [whisperModule.transcribe(context, audioData)] is called and awaited. *)
Definition callTranscribe (a : audio) (e : Engine) : Engine :=
  {| isListening := isListening e; isProcessing := isProcessing e;
     processingQueue := processingQueue e; whisperContext := whisperContext e;
     clock := clock e; inFlight := inFlight e ++ [a];
     transcribeCalls := transcribeCalls e ++ [a]; notified := notified e |}.

Definition settleOldest (n : list (jsstring * Q)) (e : Engine) : Engine :=
  {| isListening := isListening e; isProcessing := isProcessing e;
     processingQueue := processingQueue e; whisperContext := whisperContext e;
     clock := clock e; inFlight := tl (inFlight e);
     transcribeCalls := transcribeCalls e; notified := notified e ++ n |}.

(** One turn of the [while] loop of [processQueuedAudio], from its test to
    the [await] inside [transcribeAudio], or through [finally].  Without a
    context [transcribeAudio] throws, which the loop's [catch] takes. *)
Definition loopTurn (e : Engine) : Engine :=
  match processingQueue e with
  | [] => set_isProcessing false e
  | audioItem :: rest =>
      let e1 := set_processingQueue rest e in
      if whisperContext e1 then callTranscribe (audioData audioItem) e1
      else set_isProcessing false e1
  end.

(** [processQueuedAudio], up to its first [await]. *)
Definition processQueuedAudio (e : Engine) : Engine :=
  if isProcessing e || (List.length (processingQueue e) =? 0)%nat then e
  else loopTurn (set_isProcessing true e).

(** [processAudioData(audioData, duration)]. *)
Definition processAudioData (a : audio) (d : Z) (e : Engine) : Engine :=
  if negb (isListening e) || isProcessing e then e
  else processQueuedAudio
         (set_processingQueue
            (processingQueue e ++ [{| audioData := a; duration := d; timestamp := clock e |}]) e).

(** The awaited call settles: with a result, which [transcribeAudio] hands
    to [notifyResult] when its trimmed text is not empty ([confidence || 0.8]),
    or with a rejection, which it reports; the loop then goes on. *)
Definition resultNotice (r : option (jsstring * Q)) : list (jsstring * Q) :=
  match r with
  | Some (text, confidence) =>
      if truthy text && (0 <? List.length (trim text))%nat
      then [(trim text, if Qeq_bool confidence 0 then 8 # 10 else confidence)]
      else []
  | None => []
  end.

Definition transcribeSettles (r : option (jsstring * Q)) (e : Engine) : Engine :=
  match inFlight e with
  | [] => e
  | _ :: _ => loopTurn (settleOldest (resultNotice r) e)
  end.

(** [start] on an initialized engine whose recorder starts, and [stop]. *)
Definition start (e : Engine) : Engine :=
  if isListening e then e else set_isListening true e.

Definition stop (e : Engine) : Engine :=
  if negb (isListening e) then e else set_isListening false e.

Inductive event : Type :=
| Start
| Stop
| SpeechEnd (a : audio) (d : Z)                 (* the recorder's onSpeechEnd *)
| Settles (r : option (jsstring * Q)).          (* the pending transcribe call settles *)

Definition step (e : Engine) (ev : event) : Engine :=
  match ev with
  | Start => start e
  | Stop => stop e
  | SpeechEnd a d => processAudioData a d e
  | Settles r => transcribeSettles r e
  end.


(** The engine after [init]. *)
Definition initialized : Engine :=
  {| isListening := false; isProcessing := false; processingQueue := [];
     whisperContext := true; clock := 0; inFlight := [];
     transcribeCalls := []; notified := [] |}.

End Engine.
End Whisper.

(* --------------------------------------------------------------------- *)
(** ** Further parts of the sources                                      *)
(* --------------------------------------------------------------------- *)

(** ** The page's events

    What reaches a recognizer from the platform: the engine hands over a
    final transcript, a timer fires, the clock moves on. *)

Inductive pipelineEvent : Type :=
| Heard (transcript : jsstring) (confidence : Q)
| TimerFires (id : N)
| ClockReaches (t : Z).

Section Events.
Context {P : Platform}.

(** An exception of [processRecognitionResult] ends the handler of the
    event; the objects stay as they were when it was thrown. *)
Definition Advanced_step (w : World) (ev : pipelineEvent) : World :=
  match ev with
  | Heard transcript confidence => finalWorld (processRecognitionResult transcript confidence w)
  | TimerFires id => fire id w
  | ClockReaches t => set_now (Z.max (now w) t) w
  end.

Definition Unified_step (w : World) (ev : pipelineEvent) : World :=
  match ev with
  | Heard transcript confidence =>
      finalWorld (Unified_processRecognitionResult transcript confidence w)
  | TimerFires id => fire id w
  | ClockReaches t => set_now (Z.max (now w) t) w
  end.

(** The timer of the sequencer's wait, when it waits. *)
Definition isQueueTimer (t : timer) : bool :=
  match action t with
  | QueueWaitOver => true
  | _ => false
  end.

Definition queueTimers (w : World) : list timer := filter isQueueTimer (timers w).

(** The wait of the sequencer ends [n] times, each time as soon as it may. *)
Fixpoint runQueue (n : nat) (w : World) : World :=
  match n with
  | O => w
  | S n' =>
      match queueTimers w with
      | t :: _ => runQueue n' (fire (timerId t) w)
      | [] => w
      end
  end.

(** [resetLearning]. *)
Definition resetLearning (w : World) : World :=
  set_localStorage None
    (set_contextHistory [] (set_learnedCommands [] (set_userPatterns [] w))).

(** [getAdvancedStatus]. *)
Record AdvancedStatus : Type := {
  queueLength : nat;
  status_processingQueue : bool;
  status_pendingConfirmation : bool;
  learnedPatterns : nat;
  contextHistoryLength : nat;
  confirmationSystemActive : bool
}.

Definition getAdvancedStatus (w : World) : AdvancedStatus :=
  {| queueLength := List.length (commandQueue w);
     status_processingQueue := processingQueue w;
     status_pendingConfirmation := hasPendingConfirmation w;
     learnedPatterns := List.length (learnedCommands w);
     contextHistoryLength := List.length (contextHistory w);
     confirmationSystemActive := match confirmationSystem w with Some _ => true | None => false end |}.

End Events.

(** [Math.min] and [Math.max] of two numbers. *)
Definition Math_min (x y : Q) : Q := if Qltb y x then y else x.
Definition Math_max (x y : Q) : Q := if Qltb x y then y else x.

(** [ConfirmationSystem.setConfidenceThreshold]. *)
Definition setConfidenceThreshold (threshold : Q) (c : ConfirmationSystem)
  : ConfirmationSystem :=
  {| pendingConfirmation := pendingConfirmation c;
     confirmationTimeout := confirmationTimeout c;
     confidenceThreshold := Math_max (1 # 10) (Math_min (9 # 10) threshold) |}.


(** [Math.floor] and [Math.ceil] of a number. *)
Definition Math_floor (x : Q) : Z := (Qnum x / Z.pos (Qden x))%Z.
Definition Math_ceil (x : Q) : Z := (- Math_floor (- x))%Z.

(** The truth value of a time stamp or of [null] in a condition. *)
Definition truthyTime (t : option Z) : bool :=
  match t with
  | Some v => negb (v =? 0)%Z
  | None => false
  end.

(** ** [AudioProcessor]: voice activity detection

    The processor after [init]: the audio graph is set up and
    [onaudioprocess] delivers the frames of the microphone.  A frame is the
    sample data of the input buffer and its sampling rate.  [Math.sqrt] is
    taken from the platform. *)

Module Recorder.

Inductive notice : Type :=
| OnSpeechStart
| OnSpeechEnd (audioData : list Q) (duration : Z)
| OnAudioData (data : list Q)
| OnVolumeLevel (volumeLevel : Q)
| OnError (message : jsstring).

(** Which callback slots hold a function. *)
Record Callbacks : Type := {
  onSpeechStart : bool;
  onSpeechEnd : bool;
  onAudioData : bool;
  onVolumeLevel : bool;
  onError : bool
}.

Record Recorder : Type := {
  audioContext : bool;                (* this.audioContext is not null *)
  isRecording : bool;
  isProcessing : bool;
  audioBuffer : list Q;
  sampleRate : Q;
  vadThreshold : Q;
  silenceTimeout : Z;
  minSpeechDuration : Z;
  speechStartTime : option Z;
  lastSpeechTime : option Z;
  silenceTimer : option N;
  callbacks : Callbacks;
  clock : Z;                          (* Date.now() *)
  timers : list (N * Z);              (* the pending timers: id, due time *)
  nextTimerId : N;
  notices : list notice               (* the calls of the callbacks, oldest first *)
}.

Definition set_isRecording (v : bool) (e : Recorder) : Recorder :=
  {| audioContext := audioContext e; isRecording := v; isProcessing := isProcessing e;
     audioBuffer := audioBuffer e; sampleRate := sampleRate e;
     vadThreshold := vadThreshold e; silenceTimeout := silenceTimeout e;
     minSpeechDuration := minSpeechDuration e; speechStartTime := speechStartTime e;
     lastSpeechTime := lastSpeechTime e; silenceTimer := silenceTimer e;
     callbacks := callbacks e; clock := clock e; timers := timers e;
     nextTimerId := nextTimerId e; notices := notices e |}.

Definition set_isProcessing (v : bool) (e : Recorder) : Recorder :=
  {| audioContext := audioContext e; isRecording := isRecording e; isProcessing := v;
     audioBuffer := audioBuffer e; sampleRate := sampleRate e;
     vadThreshold := vadThreshold e; silenceTimeout := silenceTimeout e;
     minSpeechDuration := minSpeechDuration e; speechStartTime := speechStartTime e;
     lastSpeechTime := lastSpeechTime e; silenceTimer := silenceTimer e;
     callbacks := callbacks e; clock := clock e; timers := timers e;
     nextTimerId := nextTimerId e; notices := notices e |}.

Definition set_audioBuffer (v : list Q) (e : Recorder) : Recorder :=
  {| audioContext := audioContext e; isRecording := isRecording e;
     isProcessing := isProcessing e; audioBuffer := v; sampleRate := sampleRate e;
     vadThreshold := vadThreshold e; silenceTimeout := silenceTimeout e;
     minSpeechDuration := minSpeechDuration e; speechStartTime := speechStartTime e;
     lastSpeechTime := lastSpeechTime e; silenceTimer := silenceTimer e;
     callbacks := callbacks e; clock := clock e; timers := timers e;
     nextTimerId := nextTimerId e; notices := notices e |}.

Definition set_vadThreshold (v : Q) (e : Recorder) : Recorder :=
  {| audioContext := audioContext e; isRecording := isRecording e;
     isProcessing := isProcessing e; audioBuffer := audioBuffer e;
     sampleRate := sampleRate e; vadThreshold := v; silenceTimeout := silenceTimeout e;
     minSpeechDuration := minSpeechDuration e; speechStartTime := speechStartTime e;
     lastSpeechTime := lastSpeechTime e; silenceTimer := silenceTimer e;
     callbacks := callbacks e; clock := clock e; timers := timers e;
     nextTimerId := nextTimerId e; notices := notices e |}.

Definition set_silenceTimeout (v : Z) (e : Recorder) : Recorder :=
  {| audioContext := audioContext e; isRecording := isRecording e;
     isProcessing := isProcessing e; audioBuffer := audioBuffer e;
     sampleRate := sampleRate e; vadThreshold := vadThreshold e; silenceTimeout := v;
     minSpeechDuration := minSpeechDuration e; speechStartTime := speechStartTime e;
     lastSpeechTime := lastSpeechTime e; silenceTimer := silenceTimer e;
     callbacks := callbacks e; clock := clock e; timers := timers e;
     nextTimerId := nextTimerId e; notices := notices e |}.

Definition set_minSpeechDuration (v : Z) (e : Recorder) : Recorder :=
  {| audioContext := audioContext e; isRecording := isRecording e;
     isProcessing := isProcessing e; audioBuffer := audioBuffer e;
     sampleRate := sampleRate e; vadThreshold := vadThreshold e;
     silenceTimeout := silenceTimeout e; minSpeechDuration := v;
     speechStartTime := speechStartTime e; lastSpeechTime := lastSpeechTime e;
     silenceTimer := silenceTimer e; callbacks := callbacks e; clock := clock e;
     timers := timers e; nextTimerId := nextTimerId e; notices := notices e |}.

Definition set_speechStartTime (v : option Z) (e : Recorder) : Recorder :=
  {| audioContext := audioContext e; isRecording := isRecording e;
     isProcessing := isProcessing e; audioBuffer := audioBuffer e;
     sampleRate := sampleRate e; vadThreshold := vadThreshold e;
     silenceTimeout := silenceTimeout e; minSpeechDuration := minSpeechDuration e;
     speechStartTime := v; lastSpeechTime := lastSpeechTime e;
     silenceTimer := silenceTimer e; callbacks := callbacks e; clock := clock e;
     timers := timers e; nextTimerId := nextTimerId e; notices := notices e |}.

Definition set_lastSpeechTime (v : option Z) (e : Recorder) : Recorder :=
  {| audioContext := audioContext e; isRecording := isRecording e;
     isProcessing := isProcessing e; audioBuffer := audioBuffer e;
     sampleRate := sampleRate e; vadThreshold := vadThreshold e;
     silenceTimeout := silenceTimeout e; minSpeechDuration := minSpeechDuration e;
     speechStartTime := speechStartTime e; lastSpeechTime := v;
     silenceTimer := silenceTimer e; callbacks := callbacks e; clock := clock e;
     timers := timers e; nextTimerId := nextTimerId e; notices := notices e |}.

Definition set_silenceTimer (v : option N) (e : Recorder) : Recorder :=
  {| audioContext := audioContext e; isRecording := isRecording e;
     isProcessing := isProcessing e; audioBuffer := audioBuffer e;
     sampleRate := sampleRate e; vadThreshold := vadThreshold e;
     silenceTimeout := silenceTimeout e; minSpeechDuration := minSpeechDuration e;
     speechStartTime := speechStartTime e; lastSpeechTime := lastSpeechTime e;
     silenceTimer := v; callbacks := callbacks e; clock := clock e; timers := timers e;
     nextTimerId := nextTimerId e; notices := notices e |}.

Definition set_callbacks (v : Callbacks) (e : Recorder) : Recorder :=
  {| audioContext := audioContext e; isRecording := isRecording e;
     isProcessing := isProcessing e; audioBuffer := audioBuffer e;
     sampleRate := sampleRate e; vadThreshold := vadThreshold e;
     silenceTimeout := silenceTimeout e; minSpeechDuration := minSpeechDuration e;
     speechStartTime := speechStartTime e; lastSpeechTime := lastSpeechTime e;
     silenceTimer := silenceTimer e; callbacks := v; clock := clock e; timers := timers e;
     nextTimerId := nextTimerId e; notices := notices e |}.

Definition set_clock (v : Z) (e : Recorder) : Recorder :=
  {| audioContext := audioContext e; isRecording := isRecording e;
     isProcessing := isProcessing e; audioBuffer := audioBuffer e;
     sampleRate := sampleRate e; vadThreshold := vadThreshold e;
     silenceTimeout := silenceTimeout e; minSpeechDuration := minSpeechDuration e;
     speechStartTime := speechStartTime e; lastSpeechTime := lastSpeechTime e;
     silenceTimer := silenceTimer e; callbacks := callbacks e; clock := v;
     timers := timers e; nextTimerId := nextTimerId e; notices := notices e |}.

Definition set_notices (v : list notice) (e : Recorder) : Recorder :=
  {| audioContext := audioContext e; isRecording := isRecording e;
     isProcessing := isProcessing e; audioBuffer := audioBuffer e;
     sampleRate := sampleRate e; vadThreshold := vadThreshold e;
     silenceTimeout := silenceTimeout e; minSpeechDuration := minSpeechDuration e;
     speechStartTime := speechStartTime e; lastSpeechTime := lastSpeechTime e;
     silenceTimer := silenceTimer e; callbacks := callbacks e; clock := clock e;
     timers := timers e; nextTimerId := nextTimerId e; notices := v |}.


Definition set_timers (ts : list (N * Z)) (n : N) (e : Recorder) : Recorder :=
  {| audioContext := audioContext e; isRecording := isRecording e;
     isProcessing := isProcessing e; audioBuffer := audioBuffer e;
     sampleRate := sampleRate e; vadThreshold := vadThreshold e;
     silenceTimeout := silenceTimeout e; minSpeechDuration := minSpeechDuration e;
     speechStartTime := speechStartTime e; lastSpeechTime := lastSpeechTime e;
     silenceTimer := silenceTimer e; callbacks := callbacks e; clock := clock e;
     timers := ts; nextTimerId := n; notices := notices e |}.

(** The constructor's values, on an initialized processor. *)
Definition created (t0 : Z) : Recorder :=
  {| audioContext := true; isRecording := false; isProcessing := false;
     audioBuffer := []; sampleRate := 16000; vadThreshold := 1 # 10000;
     silenceTimeout := 800; minSpeechDuration := 200;
     speechStartTime := None; lastSpeechTime := None; silenceTimer := None;
     callbacks := {| onSpeechStart := false; onSpeechEnd := false; onAudioData := false;
                     onVolumeLevel := false; onError := false |};
     clock := t0; timers := []; nextTimerId := 1; notices := [] |}.

(** A callback is called when its slot holds one. *)
Definition notify (slot : Callbacks -> bool) (n : notice) (e : Recorder) : Recorder :=
  if slot (callbacks e) then set_notices (notices e ++ [n]) e else e.

Definition setTimeout (delay : Z) (e : Recorder) : N * Recorder :=
  (nextTimerId e, set_timers (timers e ++ [(nextTimerId e, (clock e + delay)%Z)])
                             (nextTimerId e + 1) e).

Definition clearTimeout (id : N) (e : Recorder) : Recorder :=
  set_timers (filter (fun t => negb (fst t =? id)%N) (timers e)) (nextTimerId e) e.

Section WithSqrt.
Variable Math_sqrt : Q -> Q.

(** [calculateVolumeLevel]: the root of the mean of the squares. *)
Definition calculateVolumeLevel (audioData : list Q) : Q :=
  Math_sqrt (fold_left (fun sum x => sum + x * x) audioData 0 /
             inject_Z (Z.of_nat (List.length audioData))).

(** The read of a sample at an index of the data. *)
Definition sampleAt (inputData : list Q) (i : Z) : Q :=
  nth (Z.to_nat i) inputData 0.

(** [resampleAudio]: linear interpolation between the two samples next to
    each position of the output. *)
Definition resampleAudio (inputData : list Q) (inputSampleRate outputSampleRate : Q)
  : list Q :=
  if Qeq_bool inputSampleRate outputSampleRate then inputData
  else
    let ratio := inputSampleRate / outputSampleRate in
    let outputLength :=
      Math_floor (inject_Z (Z.of_nat (List.length inputData)) / ratio) in
    map (fun i =>
           let inputIndex := inject_Z i * ratio in
           let inputIndexFloor := Math_floor inputIndex in
           let inputIndexCeil :=
             Z.min (Math_ceil inputIndex) (Z.of_nat (List.length inputData) - 1) in
           let fraction := inputIndex - inject_Z inputIndexFloor in
           sampleAt inputData inputIndexFloor * (1 - fraction) +
           sampleAt inputData inputIndexCeil * fraction)
        (map Z.of_nat (seq 0 (Z.to_nat outputLength))).

(** [handleSpeechEnd]. *)
Definition handleSpeechEnd (e : Recorder) : Recorder :=
  if negb (truthyTime (speechStartTime e)) then e
  else
    let speechDuration :=
      (clock e - match speechStartTime e with Some t => t | None => 0 end)%Z in
    let e1 := if (minSpeechDuration e <=? speechDuration)%Z
              then notify onSpeechEnd (OnSpeechEnd (audioBuffer e) speechDuration) e
              else e in
    let e2 := set_audioBuffer [] (set_isProcessing false (set_speechStartTime None e1)) in
    match silenceTimer e2 with
    | Some id => set_silenceTimer None (clearTimeout id e2)
    | None => e2
    end.

(** [handleSpeechDetection]. *)
Definition handleSpeechDetection (e : Recorder) : Recorder :=
  let e1 := set_lastSpeechTime (Some (clock e)) e in
  let e2 := match silenceTimer e1 with
            | Some id => set_silenceTimer None (clearTimeout id e1)
            | None => e1
            end in
  if negb (truthyTime (speechStartTime e2))
  then notify onSpeechStart OnSpeechStart
         (set_audioBuffer [] (set_isProcessing true
            (set_speechStartTime (Some (clock e2)) e2)))
  else e2.

(** [handleSilenceDetection]. *)
Definition handleSilenceDetection (e : Recorder) : Recorder :=
  if negb (truthyTime (speechStartTime e)) then e
  else match silenceTimer e with
       | Some _ => e
       | None =>
           let (id, e1) := setTimeout (silenceTimeout e) e in
           set_silenceTimer (Some id) e1
       end.

(** [processAudioData(event)]: one frame, with the flag [window.ttsActive]. *)
Definition processAudioData (inputData : list Q) (inputSampleRate : Q) (ttsActive : bool)
    (e : Recorder) : Recorder :=
  if negb (isRecording e) then e
  else if ttsActive then e
  else
    let volumeLevel := calculateVolumeLevel inputData in
    let e1 := notify onVolumeLevel (OnVolumeLevel volumeLevel) e in
    let isSpeech := Qltb (vadThreshold e1) volumeLevel in
    let e2 := if isSpeech then handleSpeechDetection e1 else handleSilenceDetection e1 in
    let e3 := if isProcessing e2
              then set_audioBuffer
                     (audioBuffer e2 ++ resampleAudio inputData inputSampleRate (sampleRate e2))
                     e2
              else e2 in
    if isProcessing e3 then notify onAudioData (OnAudioData inputData) e3 else e3.

(** [startRecording], with its return value. *)
Definition startRecording (e : Recorder) : bool * Recorder :=
  if isRecording e then (true, e)
  else if negb (audioContext e)
  then (false, notify onError (OnError (utf16 "AudioProcessor not initialized")) e)
  else (true, set_isRecording true e).

(** [stopRecording]. *)
Definition stopRecording (e : Recorder) : Recorder :=
  if negb (isRecording e) then e
  else
    let e1 := set_isProcessing false (set_isRecording false e) in
    if truthyTime (speechStartTime e1) then handleSpeechEnd e1 else e1.

(** The silence timer fires: the platform runs [handleSpeechEnd], not
    before the timer is due. *)
Definition fire (id : N) (e : Recorder) : Recorder :=
  match find (fun t => (fst t =? id)%N) (timers e) with
  | None => e
  | Some t => handleSpeechEnd (set_clock (Z.max (clock e) (snd t)) (clearTimeout id e))
  end.

End WithSqrt.

(** [updateVADConfig(config)]; a field the configuration does not have is
    [None]. *)
Record VADConfig : Type := {
  threshold : option Q;
  cfg_silenceTimeout : option Z;
  cfg_minSpeechDuration : option Z
}.

Definition updateVADConfig (config : VADConfig) (e : Recorder) : Recorder :=
  let e1 := match threshold config with
            | Some v => set_vadThreshold (Math_max (1 # 1000) (Math_min 1 v)) e
            | None => e
            end in
  let e2 := match cfg_silenceTimeout config with
            | Some v => set_silenceTimeout (Z.max 500 (Z.min 10000 v)) e1
            | None => e1
            end in
  match cfg_minSpeechDuration config with
  | Some v => set_minSpeechDuration (Z.max 100 (Z.min 5000 v)) e2
  | None => e2
  end.

(** [setCallbacks(callbacks)]: the slots the argument names are replaced. *)
Record CallbackUpdate : Type := {
  new_onSpeechStart : option bool;
  new_onSpeechEnd : option bool;
  new_onAudioData : option bool;
  new_onVolumeLevel : option bool;
  new_onError : option bool
}.

Definition setCallbacks (u : CallbackUpdate) (e : Recorder) : Recorder :=
  let pick (o : option bool) (b : bool) := match o with Some v => v | None => b end in
  set_callbacks
    {| onSpeechStart := pick (new_onSpeechStart u) (onSpeechStart (callbacks e));
       onSpeechEnd := pick (new_onSpeechEnd u) (onSpeechEnd (callbacks e));
       onAudioData := pick (new_onAudioData u) (onAudioData (callbacks e));
       onVolumeLevel := pick (new_onVolumeLevel u) (onVolumeLevel (callbacks e));
       onError := pick (new_onError u) (onError (callbacks e)) |} e.

(** What happens to a processor. *)
Inductive event : Type :=
| Frame (inputData : list Q) (inputSampleRate : Q) (ttsActive : bool)
| TimerFires (id : N)
| ClockReaches (t : Z)
| StartRecording
| StopRecording.

Definition step (Math_sqrt : Q -> Q) (e : Recorder) (ev : event) : Recorder :=
  match ev with
  | Frame inputData inputSampleRate ttsActive =>
      processAudioData Math_sqrt inputData inputSampleRate ttsActive e
  | TimerFires id => fire id e
  | ClockReaches t => set_clock (Z.max (clock e) t) e
  | StartRecording => snd (startRecording e)
  | StopRecording => stopRecording e
  end.

(** What the detection keeps true: the clock has left 0; samples are
    buffered only inside an utterance; outside an utterance the buffer is
    empty and no timer is pending; the one timer there can be is the
    silence timer, set after the utterance began. *)
Definition VadOk (e : Recorder) : Prop :=
  (0 < clock e)%Z /\
  (isProcessing e = true -> truthyTime (speechStartTime e) = true) /\
  (isRecording e = false -> speechStartTime e = None) /\
  (truthyTime (speechStartTime e) = false ->
   speechStartTime e = None /\ audioBuffer e = [] /\ silenceTimer e = None) /\
  (forall start, speechStartTime e = Some start -> (0 < start <= clock e)%Z) /\
  match silenceTimer e with
  | None => timers e = []
  | Some id =>
      exists start due,
        speechStartTime e = Some start /\ timers e = [(id, due)] /\
        (start + silenceTimeout e <= due)%Z
  end.

End Recorder.

(** ** [WhisperWASMEngine] with its [AudioProcessor]

    The engine after [init], together with the processor it created in
    [initializeComponents]: the processor's [onSpeechEnd] callback is the
    engine's [processAudioData]; [onSpeechStart] and [onError] are set too
    and leave the transcription queue alone.  Both read the same clock. *)

Module Listener.

(** The callbacks that do not hand an utterance over. *)
Definition quiet (n : Recorder.notice) : bool :=
  match n with
  | Recorder.OnSpeechEnd _ _ => false
  | _ => true
  end.

(** The processor has gone from [r] to [r'] without ending an utterance,
    at one time, keeping its callbacks and its recording flag. *)
Definition Calm (r r' : Recorder.Recorder) : Prop :=
  Recorder.callbacks r' = Recorder.callbacks r /\
  Recorder.clock r' = Recorder.clock r /\
  Recorder.isRecording r' = Recorder.isRecording r /\
  Recorder.audioContext r' = Recorder.audioContext r /\
  exists ns, Recorder.notices r' = Recorder.notices r ++ ns /\ forallb quiet ns = true.

Record Listener : Type := {
  engine : Whisper.Engine (list Q);
  audioProcessor : Recorder.Recorder
}.

(** The callbacks [initializeComponents] sets. *)
Definition engineCallbacks : Recorder.CallbackUpdate :=
  {| Recorder.new_onSpeechStart := Some true; Recorder.new_onSpeechEnd := Some true;
     Recorder.new_onAudioData := None; Recorder.new_onVolumeLevel := None;
     Recorder.new_onError := Some true |}.

(** The engine after [init] at time [t0]. *)
Definition initialized (t0 : Z) : Listener :=
  {| engine :=
       {| Whisper.isListening := false; Whisper.isProcessing := false;
          Whisper.processingQueue := []; Whisper.whisperContext := true;
          Whisper.clock := t0; Whisper.inFlight := [];
          Whisper.transcribeCalls := []; Whisper.notified := [] |};
     audioProcessor := Recorder.setCallbacks engineCallbacks (Recorder.created t0) |}.

(** The engine reads the clock the processor reads. *)
Definition atTime (t : Z) (e : Whisper.Engine (list Q)) : Whisper.Engine (list Q) :=
  {| Whisper.isListening := Whisper.isListening e;
     Whisper.isProcessing := Whisper.isProcessing e;
     Whisper.processingQueue := Whisper.processingQueue e;
     Whisper.whisperContext := Whisper.whisperContext e;
     Whisper.clock := t; Whisper.inFlight := Whisper.inFlight e;
     Whisper.transcribeCalls := Whisper.transcribeCalls e;
     Whisper.notified := Whisper.notified e |}.

(** One call of a callback of the processor, as the engine set it. *)
Definition deliver (e : Whisper.Engine (list Q)) (n : Recorder.notice)
  : Whisper.Engine (list Q) :=
  match n with
  | Recorder.OnSpeechEnd audioData duration => Whisper.processAudioData audioData duration e
  | _ => e
  end.

(** The processor has gone from [r] to [r']: the callbacks it called on the
    way reach the engine in their order. *)
Definition delivered (r r' : Recorder.Recorder) (e : Whisper.Engine (list Q))
  : Whisper.Engine (list Q) :=
  fold_left deliver (skipn (List.length (Recorder.notices r)) (Recorder.notices r'))
            (atTime (Recorder.clock r') e).

(** [start] on the initialized engine. *)
Definition start (l : Listener) : bool * Listener :=
  if Whisper.isListening (engine l) then (true, l)
  else
    let (ok, r') := Recorder.startRecording (audioProcessor l) in
    let e1 := delivered (audioProcessor l) r' (engine l) in
    if ok
    then (true, {| engine := Whisper.set_isListening true e1; audioProcessor := r' |})
    else (false, {| engine := e1; audioProcessor := r' |}).

(** [stop]: the flag falls before the processor is stopped. *)
Definition stop (l : Listener) : Listener :=
  if negb (Whisper.isListening (engine l)) then l
  else
    let e1 := Whisper.set_isListening false (engine l) in
    let r' := Recorder.stopRecording (audioProcessor l) in
    {| engine := delivered (audioProcessor l) r' e1; audioProcessor := r' |}.

(** [updateConfig(config)] with a [vadConfig]. *)
Definition updateConfig (vadConfig : Recorder.VADConfig) (l : Listener) : Listener :=
  {| engine := engine l;
     audioProcessor := Recorder.updateVADConfig vadConfig (audioProcessor l) |}.

(** What holds whenever control is back at the event loop: the processor is
    in a good state and records exactly while the engine listens, its
    speech-end callback is set, both read the same clock, and the
    transcription queue is empty with at most one call in flight. *)
Definition Ok (l : Listener) : Prop :=
  Recorder.VadOk (audioProcessor l) /\
  Recorder.isRecording (audioProcessor l) = Whisper.isListening (engine l) /\
  Whisper.clock (engine l) = Recorder.clock (audioProcessor l) /\
  Recorder.onSpeechEnd (Recorder.callbacks (audioProcessor l)) = true /\
  Recorder.audioContext (audioProcessor l) = true /\
  Whisper.processingQueue (engine l) = [] /\
  Whisper.whisperContext (engine l) = true /\
  (if Whisper.isProcessing (engine l)
   then exists a, Whisper.inFlight (engine l) = [a]
   else Whisper.inFlight (engine l) = []).

Inductive event : Type :=
| Start
| Stop
| Frame (inputData : list Q) (inputSampleRate : Q) (ttsActive : bool)
| TimerFires (id : N)
| ClockReaches (t : Z)
| Settles (r : option (jsstring * Q)).

Definition step (Math_sqrt : Q -> Q) (l : Listener) (ev : event) : Listener :=
  match ev with
  | Start => snd (start l)
  | Stop => stop l
  | Frame inputData inputSampleRate ttsActive =>
      let r' := Recorder.processAudioData Math_sqrt inputData inputSampleRate ttsActive
                  (audioProcessor l) in
      {| engine := delivered (audioProcessor l) r' (engine l); audioProcessor := r' |}
  | TimerFires id =>
      let r' := Recorder.fire id (audioProcessor l) in
      {| engine := delivered (audioProcessor l) r' (engine l); audioProcessor := r' |}
  | ClockReaches t =>
      let r' := Recorder.set_clock (Z.max (Recorder.clock (audioProcessor l)) t)
                  (audioProcessor l) in
      {| engine := atTime (Recorder.clock r') (engine l); audioProcessor := r' |}
  | Settles r =>
      {| engine := Whisper.transcribeSettles r (engine l);
         audioProcessor := audioProcessor l |}
  end.

End Listener.

Arguments utf16 : simpl never.
Arguments test : simpl never.
Arguments parseCommand : simpl never.
Arguments trim : simpl never.

(** Case analysis on the condition of the first conditional of the goal. *)
Ltac case_if :=
  match goal with
  | |- context [if ?b then _ else _] => destruct b eqn:?
  end.

(* ===================================================================== *)
(** * Part II. Properties                                                 *)
(* ===================================================================== *)

(** ** Strings, maps and sets *)

Module JsStringFacts.

Lemma eqb_eq (a b : jsstring) : eqb a b = true <-> a = b.
Proof.
  revert b; induction a as [|x a IH]; intros [|y b]; simpl; split; intro H;
    try reflexivity; try discriminate.
  - apply andb_true_iff in H as [Hx Hab].
    apply N.eqb_eq in Hx. apply IH in Hab. now subst.
  - injection H as -> ->. rewrite N.eqb_refl. simpl. now apply IH.
Qed.

Lemma eqb_refl (a : jsstring) : eqb a a = true.
Proof. now apply eqb_eq. Qed.

Lemma eqb_neq (a b : jsstring) : eqb a b = false <-> a <> b.
Proof.
  split.
  - intros H E. apply eqb_eq in E. congruence.
  - intro H. destruct (eqb a b) eqn:E; [|reflexivity].
    apply eqb_eq in E. contradiction.
Qed.

Lemma eqb_sym (a b : jsstring) : eqb a b = eqb b a.
Proof.
  destruct (eqb a b) eqn:E.
  - apply eqb_eq in E. subst. symmetry. apply eqb_refl.
  - symmetry. apply eqb_neq. apply eqb_neq in E. congruence.
Qed.

End JsStringFacts.

Import JsStringFacts.

Module JsSetFacts.

Lemma has_In (s : JsSet.t) (x : jsstring) : JsSet.has s x = true <-> In x s.
Proof.
  unfold JsSet.has. rewrite existsb_exists. split.
  - intros [y [Hy E]]. apply eqb_eq in E. now subst.
  - intro H. exists x. split; [assumption | apply eqb_refl].
Qed.

Lemma has_add (s : JsSet.t) (x p : jsstring) :
  JsSet.has (JsSet.add s x) p = JsSet.has s p || eqb p x.
Proof.
  unfold JsSet.add. destruct (JsSet.has s x) eqn:Hx.
  - destruct (eqb p x) eqn:E; [|now rewrite orb_false_r].
    apply eqb_eq in E. subst. now rewrite Hx.
  - unfold JsSet.has. rewrite existsb_app. simpl. now rewrite orb_false_r.
Qed.

Lemma has_delete (s : JsSet.t) (x p : jsstring) :
  JsSet.has (JsSet.delete s x) p = JsSet.has s p && negb (eqb p x).
Proof.
  unfold JsSet.delete, JsSet.has. induction s as [|y s IH]; simpl; [reflexivity|].
  destruct (eqb y x) eqn:Eyx; simpl.
  - rewrite IH. apply eqb_eq in Eyx. subst y.
    destruct (eqb p x); simpl; [now rewrite andb_false_r | reflexivity].
  - rewrite IH. destruct (eqb p y) eqn:Epy; simpl; [|reflexivity].
    apply eqb_eq in Epy. subst y. now rewrite Eyx.
Qed.



Lemma wf_add (s : JsSet.t) (x : jsstring) : JsSet.wf s -> JsSet.wf (JsSet.add s x).
Proof.
  unfold JsSet.wf, JsSet.add. intro H. destruct (JsSet.has s x) eqn:Hx; [assumption|].
  apply NoDup_app; [assumption | repeat constructor; intros [] | ].
  intros y Hy [<-|[]]. apply has_In in Hy. congruence.
Qed.

Lemma wf_delete (s : JsSet.t) (x : jsstring) : JsSet.wf s -> JsSet.wf (JsSet.delete s x).
Proof. unfold JsSet.wf, JsSet.delete. apply NoDup_filter. Qed.

(** [new Set(array)] of the array of a set is that set. *)
Lemma fromArray_acc (l acc : list jsstring) :
  NoDup (acc ++ l) -> fold_left JsSet.add l acc = acc ++ l.
Proof.
  revert acc; induction l as [|x l IH]; intros acc H; simpl.
  - now rewrite app_nil_r.
  - assert (Hx : JsSet.has acc x = false).
    { destruct (JsSet.has acc x) eqn:E; [|reflexivity].
      apply has_In in E. apply NoDup_remove_2 in H. exfalso. apply H.
      apply in_or_app. now left. }
    unfold JsSet.add at 2. rewrite Hx.
    rewrite IH; rewrite <- app_assoc; simpl; [reflexivity | assumption].
Qed.

Lemma fromArray_id (s : JsSet.t) : JsSet.wf s -> JsSet.fromArray s = s.
Proof. intro H. unfold JsSet.fromArray. now rewrite fromArray_acc. Qed.

End JsSetFacts.

Module JsMapFacts.
Section WithValue.
Variable V : Type.
Implicit Types (m : JsMap.t V) (k : jsstring) (v : V).

Lemma get_set_same m k v : JsMap.get (JsMap.set m k v) k = Some v.
Proof.
  induction m as [|[k' v'] m IH]; simpl.
  - now rewrite eqb_refl.
  - destruct (eqb k' k) eqn:E; simpl; rewrite E; [reflexivity | assumption].
Qed.

Lemma get_set_other m k k' v :
  k' <> k -> JsMap.get (JsMap.set m k v) k' = JsMap.get m k'.
Proof.
  intro H. induction m as [|[k0 v0] m IH]; simpl.
  - assert (E : eqb k k' = false) by (apply eqb_neq; congruence). now rewrite E.
  - destruct (eqb k0 k) eqn:E; simpl.
    + apply eqb_eq in E. subst k0.
      assert (E' : eqb k k' = false) by (apply eqb_neq; congruence). now rewrite E'.
    + destruct (eqb k0 k'); [reflexivity | assumption].
Qed.


Lemma get_None_notin m k : JsMap.get m k = None <-> ~ In k (map fst m).
Proof.
  induction m as [|[k' v'] m IH]; simpl.
  - split; [intros _ [] | reflexivity].
  - destruct (eqb k' k) eqn:E.
    + apply eqb_eq in E. split; [discriminate | intro H; exfalso; apply H; now left].
    + apply eqb_neq in E. rewrite IH. split.
      * intros H [H1|H1]; [contradiction | now apply H].
      * intros H H1. apply H. now right.
Qed.

Lemma set_absent m k v : JsMap.get m k = None -> JsMap.set m k v = m ++ [(k, v)].
Proof.
  induction m as [|[k' v'] m IH]; simpl; [reflexivity|].
  destruct (eqb k' k); [discriminate|]. intro H. now rewrite IH.
Qed.

Lemma keys_set m k v :
  map fst (JsMap.set m k v) =
  if JsMap.has m k then map fst m else map fst m ++ [k].
Proof.
  unfold JsMap.has. induction m as [|[k' v'] m IH]; simpl; [reflexivity|].
  destruct (eqb k' k) eqn:E; simpl; [reflexivity|].
  rewrite IH. now destruct (JsMap.get m k).
Qed.

Lemma wf_set m k v : JsMap.wf m -> JsMap.wf (JsMap.set m k v).
Proof.
  unfold JsMap.wf. intro H. rewrite keys_set. unfold JsMap.has.
  destruct (JsMap.get m k) eqn:E; [assumption|].
  apply get_None_notin in E.
  apply NoDup_app; [assumption | repeat constructor; intros [] | ].
  intros y Hy [<-|[]]. contradiction.
Qed.

(** [new Map(entries)] of the entries of a map is that map. *)
Lemma fromEntries_acc (l acc : list (jsstring * V)) :
  NoDup (map fst (acc ++ l)) ->
  fold_left (fun m e => JsMap.set m (fst e) (snd e)) l acc = acc ++ l.
Proof.
  revert acc; induction l as [|[k v] l IH]; intros acc H; simpl.
  - now rewrite app_nil_r.
  - assert (Hk : JsMap.get acc k = None).
    { apply get_None_notin. intro Hin. rewrite map_app in H. simpl in H.
      apply NoDup_remove_2 in H. apply H. apply in_or_app. now left. }
    rewrite (set_absent _ _ _ Hk).
    rewrite IH; rewrite <- app_assoc; simpl; [reflexivity | assumption].
Qed.

Lemma fromEntries_id m : JsMap.wf m -> JsMap.fromEntries m = m.
Proof. intro H. unfold JsMap.fromEntries. now rewrite fromEntries_acc. Qed.

End WithValue.
End JsMapFacts.

(** ** The pattern matcher *)

Section MatcherFacts.
Context {P : Platform}.

(** [checkLearnedPatterns] returns the command of the first entry, in
    insertion order, whose key the transcript contains. *)
Lemma checkLearnedPatterns_first (t : jsstring) (pre : JsMap.t command)
    (k : jsstring) (c : command) (post : JsMap.t command) :
  (forall k' c', In (k', c') pre ->
     includes (toLowerCase t) (toLowerCase k') = false) ->
  includes (toLowerCase t) (toLowerCase k) = true ->
  checkLearnedPatterns (pre ++ (k, c) :: post) t = Some c.
Proof.
  intros Hpre Hk. induction pre as [|[k0 c0] pre IH]; simpl.
  - now rewrite Hk.
  - rewrite (Hpre k0 c0) by now left.
    apply IH. intros k' c' Hin. apply (Hpre k' c'). now right.
Qed.

Lemma checkLearnedPatterns_none (t : jsstring) (learned : JsMap.t command) :
  (forall k c, In (k, c) learned ->
     includes (toLowerCase t) (toLowerCase k) = false) ->
  checkLearnedPatterns learned t = None.
Proof.
  induction learned as [|[k0 c0] l IH]; intro H; simpl; [reflexivity|].
  rewrite (H k0 c0) by now left.
  apply IH. intros k c Hin. apply (H k c). now right.
Qed.

(** C1 (as amended): for every transcript [t] and every learned-pattern map,
    if [k] is the first key in insertion order whose lowercase form occurs
    in the lowercase transcript, and the command bound to it is a non-empty
    string, then [parseAdvancedCommand] returns exactly the one-element
    list of that command, whatever other keywords or compound phrasings
    the transcript has (the matcher takes no confidence). *)
Theorem learned_pattern_first_match (t : jsstring) (pre : JsMap.t command)
    (k : jsstring) (c : command) (post : JsMap.t command) :
  (forall k' c', In (k', c') pre ->
     includes (toLowerCase t) (toLowerCase k') = false) ->
  includes (toLowerCase t) (toLowerCase k) = true ->
  truthy c = true ->
  parseAdvancedCommand (pre ++ (k, c) :: post) t = [c].
Proof.
  intros Hpre Hk Hc. unfold parseAdvancedCommand.
  rewrite (checkLearnedPatterns_first t pre k c post Hpre Hk).
  now rewrite Hc.
Qed.

End MatcherFacts.

Lemma learned_pattern_first_match_witness :
  parseAdvancedCommand
    ([(utf16 "いけない", retreat)] ++ (utf16 "攻撃", defend) :: [(utf16 "防御", attack)])
    (utf16 "攻撃してから防御") = [defend].
Proof.
  apply (@learned_pattern_first_match model_platform).
  - intros k' c' [H|[]]. injection H as <- <-. vm_compute. reflexivity.
  - vm_compute. reflexivity.
  - reflexivity.
Defined.

(** C1 as stated fails: with the learned patterns ["いけない" -> retreat] and
    ["いけ" -> attack] (in this insertion order) the transcript ["いけない"]
    contains the key ["いけ"], which is bound to attack, and the matcher
    answers with retreat, the command of the earlier key. *)
Lemma learned_key_later_in_order_loses :
  let learned := [(utf16 "いけない", retreat); (utf16 "いけ", attack)] in
  let t := utf16 "いけない" in
  JsMap.get learned (utf16 "いけ") = Some attack /\
  includes (toLowerCase t) (toLowerCase (utf16 "いけ")) = true /\
  parseAdvancedCommand learned t = [retreat] /\
  parseAdvancedCommand learned t <> [attack].
Proof.
  vm_compute. repeat split; try reflexivity. discriminate.
Qed.

(** ** The confirmation threshold *)

Lemma Qltb_lt (x y : Q) : Qltb x y = true <-> x < y.
Proof. unfold Qltb, Qlt. apply Z.ltb_lt. Qed.

Lemma Qltb_ge (x y : Q) : Qltb x y = false <-> y <= x.
Proof. unfold Qltb, Qle. apply Z.ltb_ge. Qed.

Section ThresholdFacts.
Context {P : Platform}.

(** [shouldConfirm], with the constructor's threshold, is the comparison of
    the confidence with one number. *)
Lemma shouldConfirm_default (pending : option PendingConfirmation) (tm : option N)
    (cmd : command) (text : jsstring) (confidence : Q) :
  shouldConfirm {| pendingConfirmation := pending; confirmationTimeout := tm;
                   confidenceThreshold := 6 # 10 |} cmd text confidence =
  Qltb confidence
    (if existsb (fun critical => includes (toLowerCase cmd) (toLowerCase critical))
                criticalCommands
     then 8 # 10
     else if (3 <? List.length (split 32%N text))%nat then 75 # 100 else 6 # 10).
Proof.
  unfold shouldConfirm. simpl confidenceThreshold.
  destruct (Qltb confidence (6 # 10)) eqn:E6.
  - apply Qltb_lt in E6. symmetry.
    destruct (existsb _ criticalCommands); [|destruct (3 <? _)%nat].
    + apply Qltb_lt. eapply Qlt_trans; [exact E6 | reflexivity].
    + apply Qltb_lt. eapply Qlt_trans; [exact E6 | reflexivity].
    + now apply Qltb_lt.
  - destruct (existsb _ criticalCommands); [reflexivity|].
    destruct (3 <? _)%nat; simpl.
    + now destruct (Qltb confidence (75 # 100)).
    + symmetry. exact E6.
Qed.


End ThresholdFacts.

(** The three thresholds at work: attack on a short transcript, retreat,
    and attack on a transcript of four tokens. *)
Lemma confirmation_threshold_examples :
  let c := newConfirmationSystem in
  (shouldConfirm c attack (utf16 "攻撃") (6 # 10) = false /\
   shouldConfirm c attack (utf16 "攻撃") (59 # 100) = true) /\
  (shouldConfirm c retreat (utf16 "撤退") (8 # 10) = false /\
   shouldConfirm c retreat (utf16 "撤退") (79 # 100) = true) /\
  (shouldConfirm c attack (utf16 "敵 を 攻撃 して") (75 # 100) = false /\
   shouldConfirm c attack (utf16 "敵 を 攻撃 して") (74 # 100) = true).
Proof. vm_compute. repeat split. Qed.

(** ** The learning store *)

Section LearningFacts.
Context {P : Platform}.

Lemma phrasesOf_set_same (m : JsMap.t JsSet.t) (c : command) (s : JsSet.t) :
  phrasesOf (JsMap.set m c s) c = s.
Proof. unfold phrasesOf. now rewrite JsMapFacts.get_set_same. Qed.

Lemma phrasesOf_set_other (m : JsMap.t JsSet.t) (c c' : command) (s : JsSet.t) :
  c' <> c -> phrasesOf (JsMap.set m c s) c' = phrasesOf m c'.
Proof. intro H. unfold phrasesOf. now rewrite JsMapFacts.get_set_other. Qed.

(** The set of the recorded command gains the phrase; no other set changes. *)
Lemma get_recordPhrase_same (m : JsMap.t JsSet.t) (c : command) (key : jsstring) :
  JsMap.get (recordPhrase m c key) c = Some (JsSet.add (phrasesOf m c) key).
Proof.
  unfold recordPhrase. rewrite JsMapFacts.get_set_same. do 2 f_equal.
  unfold JsMap.has, phrasesOf. destruct (JsMap.get m c) eqn:E.
  - now rewrite E.
  - now rewrite JsMapFacts.get_set_same.
Qed.

Lemma phrasesOf_recordPhrase_same (m : JsMap.t JsSet.t) (c : command) (key : jsstring) :
  phrasesOf (recordPhrase m c key) c = JsSet.add (phrasesOf m c) key.
Proof. unfold phrasesOf at 1. now rewrite get_recordPhrase_same. Qed.

Lemma phrasesOf_recordPhrase_other (m : JsMap.t JsSet.t) (c c' : command) (key : jsstring) :
  c' <> c -> phrasesOf (recordPhrase m c key) c' = phrasesOf m c'.
Proof.
  intro H. unfold recordPhrase. rewrite phrasesOf_set_other by assumption.
  destruct (JsMap.has m c); [reflexivity|]. now apply phrasesOf_set_other.
Qed.

Lemma has_recordPhrase (m : JsMap.t JsSet.t) (c c' : command) (key p : jsstring) :
  JsSet.has (phrasesOf (recordPhrase m c key) c') p =
  JsSet.has (phrasesOf m c') p || (eqb c' c && eqb p key).
Proof.
  destruct (eqb c' c) eqn:E.
  - apply eqb_eq in E. subst c'.
    now rewrite phrasesOf_recordPhrase_same, JsSetFacts.has_add.
  - apply eqb_neq in E. rewrite phrasesOf_recordPhrase_other by assumption.
    simpl. now rewrite orb_false_r.
Qed.


Lemma userPatterns_learn (t : jsstring) (c : command) (cs : list command) (w : World) :
  userPatterns (learnSuccessfulPattern t (c :: cs) w) =
  recordPhrase (userPatterns w) c (trim (toLowerCase t)).
Proof.
  unfold learnSuccessfulPattern. simpl.
  now case_if.
Qed.

Lemma learnedCommands_learn (t : jsstring) (c : command) (cs : list command) (w : World) :
  learnedCommands (learnSuccessfulPattern t (c :: cs) w) =
  if (3 <=? JsSet.size (JsSet.add (phrasesOf (userPatterns w) c) (trim (toLowerCase t))))%nat
  then JsMap.set (learnedCommands w) (trim (toLowerCase t)) c
  else learnedCommands w.
Proof.
  unfold learnSuccessfulPattern. simpl.
  rewrite phrasesOf_recordPhrase_same.
  now case_if.
Qed.



End LearningFacts.

Lemma three_distinct_phrases_promote_the_third :
  let w3 := learnSuccessfulPattern (utf16 "戦う") [attack]
              (learnSuccessfulPattern (utf16 "アタック") [attack]
                 (learnSuccessfulPattern (utf16 "攻撃") [attack]
                    (newWorld AdvancedVoiceRecognition false 0))) in
  learnedCommands w3 = [(utf16 "戦う", attack)] /\
  userPatterns w3 = [(attack, [utf16 "攻撃"; utf16 "アタック"; utf16 "戦う"])].
Proof. vm_compute. split; reflexivity. Qed.


(** ** Corrections *)

Section CorrectionFacts.
Context {P : Platform}.

Lemma get_deleteEverywhere (phrase : jsstring) (m : JsMap.t JsSet.t) (c : command) :
  JsMap.get (deleteEverywhere phrase m) c =
  option_map (fun s => JsSet.delete s phrase) (JsMap.get m c).
Proof.
  unfold deleteEverywhere. induction m as [|[c0 s0] m IH]; simpl; [reflexivity|].
  now destruct (eqb c0 c).
Qed.

Lemma phrasesOf_deleteEverywhere (phrase : jsstring) (m : JsMap.t JsSet.t) (c : command) :
  phrasesOf (deleteEverywhere phrase m) c = JsSet.delete (phrasesOf m c) phrase.
Proof.
  unfold phrasesOf. rewrite get_deleteEverywhere.
  now destruct (JsMap.get m c).
Qed.

Lemma userPatterns_addLearningPattern (t : jsstring) (c : command) (q : Q) (w : World) :
  userPatterns (addLearningPattern t c q w) =
  recordPhrase (userPatterns w) c (trim (toLowerCase t)).
Proof. exact (userPatterns_learn t c [] w). Qed.

Lemma learnedCommands_addLearningPattern (t : jsstring) (c : command) (q : Q) (w : World) :
  learnedCommands (addLearningPattern t c q w) =
  if (3 <=? JsSet.size (JsSet.add (phrasesOf (userPatterns w) c) (trim (toLowerCase t))))%nat
  then JsMap.set (learnedCommands w) (trim (toLowerCase t)) c
  else learnedCommands w.
Proof. exact (learnedCommands_learn t c [] w). Qed.

(** C10: [addCorrectionPattern] is the recording of the new text under the
    new command in the store from which the normalized old text has been
    deleted; the deletion takes it out of the candidate set of every
    command; after the call a phrase is in a command's set exactly if it
    was there and is not the old phrase, or it is the new phrase and the
    command is the new command; and every learned pattern whose key is not
    the new phrase is bound as before, the new phrase being bound as before
    or to the new command. *)
Theorem correction_deletes_from_every_command (originalText : jsstring)
    (wrongCommand : command) (correctedText : jsstring) (correctCommand : command)
    (w : World) :
  let oldKey := trim (toLowerCase originalText) in
  let newKey := trim (toLowerCase correctedText) in
  let deleted := set_userPatterns (deleteEverywhere oldKey (userPatterns w)) w in
  let w' := addCorrectionPattern originalText wrongCommand correctedText correctCommand w in
  w' = addLearningPattern correctedText correctCommand 1 deleted /\
  (forall cmd, JsSet.has (phrasesOf (userPatterns deleted) cmd) oldKey = false) /\
  (forall cmd p,
     JsSet.has (phrasesOf (userPatterns deleted) cmd) p =
     JsSet.has (phrasesOf (userPatterns w) cmd) p && negb (eqb p oldKey)) /\
  learnedCommands deleted = learnedCommands w /\
  (forall cmd p,
     JsSet.has (phrasesOf (userPatterns w') cmd) p =
     (JsSet.has (phrasesOf (userPatterns w) cmd) p && negb (eqb p oldKey))
     || (eqb cmd correctCommand && eqb p newKey)) /\
  (forall k, k <> newKey ->
     JsMap.get (learnedCommands w') k = JsMap.get (learnedCommands w) k) /\
  (JsMap.get (learnedCommands w') newKey = JsMap.get (learnedCommands w) newKey \/
   JsMap.get (learnedCommands w') newKey = Some correctCommand).
Proof.
  intros oldKey newKey deleted w'.
  assert (D : forall cmd p,
             JsSet.has (phrasesOf (userPatterns deleted) cmd) p =
             JsSet.has (phrasesOf (userPatterns w) cmd) p && negb (eqb p oldKey)).
  { intros cmd p. unfold deleted. simpl.
    now rewrite phrasesOf_deleteEverywhere, JsSetFacts.has_delete. }
  split; [reflexivity|]. split; [|split; [exact D|split; [reflexivity|]]].
  - intro cmd. rewrite D, eqb_refl. simpl. apply andb_false_r.
  - unfold w', addCorrectionPattern. fold oldKey. fold deleted.
    split; [|split].
    + intros cmd p. rewrite userPatterns_addLearningPattern. fold newKey.
      now rewrite has_recordPhrase, D.
    + intros k Hk. rewrite learnedCommands_addLearningPattern. fold newKey.
      case_if; [|reflexivity].
      now apply JsMapFacts.get_set_other.
    + rewrite learnedCommands_addLearningPattern. fold newKey.
      case_if; [right | left; reflexivity].
      apply JsMapFacts.get_set_same.
Qed.

End CorrectionFacts.

(** The correction of ["やれ"] (attack) by ["まもれ"] (defend), in a store
    where ["やれ"] is a candidate of attack and of status: it leaves both
    sets, and ["まもれ"] joins the set of defend. *)
Lemma correction_example :
  let w := set_userPatterns
             [(attack, [utf16 "やれ"; utf16 "攻撃"]); (status, [utf16 "やれ"])]
             (newWorld AdvancedVoiceRecognition true 0) in
  userPatterns (addCorrectionPattern (utf16 " やれ ") attack (utf16 "まもれ") defend w) =
  [(attack, [utf16 "攻撃"]); (status, []); (defend, [utf16 "まもれ"])].
Proof. vm_compute. reflexivity. Qed.

(** ** Persistence *)

Module WfFacts.
Section WithValue.
Variable V : Type.

Lemma In_set (m : JsMap.t V) (k k' : jsstring) (v v' : V) :
  In (k', v') (JsMap.set m k v) -> In (k', v') m \/ (k' = k /\ v' = v).
Proof.
  induction m as [|[k0 v0] m IH]; simpl.
  - intros [[= <- <-]|[]]. now right.
  - destruct (eqb k0 k) eqn:E; simpl.
    + apply eqb_eq in E. subst k0.
      intros [[= <- <-]|H]; [now right | left; now right].
    + intros [H|H]; [left; now left|].
      destruct (IH H) as [H1|H1]; [left; now right | now right].
Qed.

End WithValue.
End WfFacts.

Section PersistenceFacts.
Context {P : Platform}.

(** The store of a new recognizer is well formed, and recording and
    correcting keep it so. *)
Lemma LearningWf_newWorld (cls : recognizer) (wc : bool) (t0 : Z) :
  LearningWf (newWorld cls wc t0).
Proof. repeat split; simpl; try constructor. intros c s []. Qed.

Lemma In_phrasesOf (m : JsMap.t JsSet.t) (c : command) :
  (forall c' s, In (c', s) m -> JsSet.wf s) -> JsSet.wf (phrasesOf m c).
Proof.
  intro H. unfold phrasesOf. destruct (JsMap.get m c) eqn:E; [|constructor].
  induction m as [|[c0 s0] m IH]; simpl in E; [discriminate|].
  destruct (eqb c0 c).
  - injection E as <-. apply (H c0). now left.
  - apply IH; [|assumption]. intros c' s Hin. apply (H c'). now right.
Qed.

Lemma wf_recordPhrase (m : JsMap.t JsSet.t) (c : command) (key : jsstring) :
  JsMap.wf m -> (forall c' s, In (c', s) m -> JsSet.wf s) ->
  JsMap.wf (recordPhrase m c key) /\
  (forall c' s, In (c', s) (recordPhrase m c key) -> JsSet.wf s).
Proof.
  intros Hm Hs. unfold recordPhrase.
  set (m0 := if JsMap.has m c then m else JsMap.set m c []).
  assert (Hm0 : JsMap.wf m0).
  { unfold m0. destruct (JsMap.has m c); [assumption | now apply JsMapFacts.wf_set]. }
  assert (Hs0 : forall c' s, In (c', s) m0 -> JsSet.wf s).
  { unfold m0. destruct (JsMap.has m c); [assumption|].
    intros c' s Hin. apply WfFacts.In_set in Hin as [Hin|[_ ->]].
    - now apply (Hs c').
    - constructor. }
  split; [now apply JsMapFacts.wf_set|].
  intros c' s Hin. apply WfFacts.In_set in Hin as [Hin|[_ ->]].
  - now apply (Hs0 c').
  - apply JsSetFacts.wf_add. now apply In_phrasesOf.
Qed.

Lemma LearningWf_learn (t : jsstring) (cs : list command) (w : World) :
  LearningWf w -> LearningWf (learnSuccessfulPattern t cs w).
Proof.
  intros (Hm & Hs & Hl). destruct cs as [|c cs]; [now repeat split|].
  unfold LearningWf. rewrite userPatterns_learn, learnedCommands_learn.
  destruct (wf_recordPhrase c (trim (toLowerCase t)) Hm Hs) as [H1 H2].
  repeat split; try assumption.
  case_if; [now apply JsMapFacts.wf_set | assumption].
Qed.

Lemma LearningWf_correction (t : jsstring) (c : command) (t' : jsstring) (c' : command)
    (w : World) :
  LearningWf w -> LearningWf (addCorrectionPattern t c t' c' w).
Proof.
  intros (Hm & Hs & Hl). unfold addCorrectionPattern, addLearningPattern.
  set (w1 := set_userPatterns _ w).
  assert (H1 : LearningWf w1).
  { unfold LearningWf, w1. simpl. repeat split; try assumption.
    - unfold JsMap.wf, deleteEverywhere in *. now rewrite map_map.
    - intros c0 s Hin. unfold deleteEverywhere in Hin.
      apply in_map_iff in Hin as [[c1 s1] [[= <- <-] Hin]].
      apply JsSetFacts.wf_delete. now apply (Hs c1). }
  apply (LearningWf_learn t' [c']) in H1.
  exact H1.
Qed.

(** The arrays [saveUserLearning] writes, read back by [loadUserLearning],
    are the maps they were made from. *)
Lemma entries_round_trip (m : JsMap.t JsSet.t) :
  JsMap.wf m -> (forall c s, In (c, s) m -> JsSet.wf s) ->
  JsMap.fromEntries
    (map (fun e => (fst e, JsSet.fromArray (snd e)))
         (map (fun e => (fst e, snd e)) m)) = m.
Proof.
  intros Hm Hs. rewrite map_map. simpl.
  assert (E : map (fun e : jsstring * JsSet.t => (fst e, JsSet.fromArray (snd e))) m = m).
  { induction m as [|[c s] m IH]; simpl; [reflexivity|].
    rewrite JsSetFacts.fromArray_id by (apply (Hs c); now left).
    f_equal. apply IH.
    - now inversion Hm.
    - intros c' s' Hin. apply (Hs c'). now right. }
  rewrite E. now apply JsMapFacts.fromEntries_id.
Qed.

(** C7: on a platform whose [JSON.parse] reads back what [JSON.stringify]
    wrote, for every state [w] of the store (its maps being [Map]s of
    [Set]s: no key and no member twice), a recognizer [w0] that finds in
    [localStorage] what [saveUserLearning] stored for [w] has, after
    [loadUserLearning], the candidate-set map and the learned-pattern map of
    [w]: the same command keys, the same phrases in the set of each command
    and the same learned entries. *)
Theorem learning_store_round_trip :
  (forall d, JSON_parse (JSON_stringify d) = Some d) ->
  forall w w0 : World,
  LearningWf w ->
  localStorage w0 = localStorage (saveUserLearning w) ->
  let w' := loadUserLearning w0 in
  userPatterns w' = userPatterns w /\
  learnedCommands w' = learnedCommands w /\
  (forall c, JsMap.has (userPatterns w') c = JsMap.has (userPatterns w) c) /\
  (forall c p, JsSet.has (phrasesOf (userPatterns w') c) p =
               JsSet.has (phrasesOf (userPatterns w) c) p) /\
  (forall k, JsMap.get (learnedCommands w') k = JsMap.get (learnedCommands w) k).
Proof.
  intros Hjson w w0 (Hm & Hs & Hl) Hstore w'.
  assert (E : userPatterns w' = userPatterns w /\ learnedCommands w' = learnedCommands w).
  { unfold w', loadUserLearning. rewrite Hstore.
    unfold saveUserLearning, set_localStorage. cbn [localStorage].
    rewrite Hjson. cbn.
    split; [now apply entries_round_trip | now apply JsMapFacts.fromEntries_id]. }
  destruct E as [E1 E2]. rewrite E1, E2. repeat split.
Qed.

End PersistenceFacts.

Lemma learning_store_round_trip_witness :
  let w := learnSuccessfulPattern (utf16 "戦う") [attack]
             (learnSuccessfulPattern (utf16 "アタック") [attack]
                (learnSuccessfulPattern (utf16 "攻撃") [attack]
                   (newWorld AdvancedVoiceRecognition false 0))) in
  let w0 := set_localStorage (localStorage (saveUserLearning w))
              (newWorld AdvancedVoiceRecognition false 7) in
  userPatterns (loadUserLearning w0) = userPatterns w /\
  learnedCommands (loadUserLearning w0) = learnedCommands w.
Proof.
  intros w w0.
  assert (Hw : LearningWf w).
  { unfold w. repeat apply LearningWf_learn. apply LearningWf_newWorld. }
  destruct (@learning_store_round_trip model_platform (fun d => eq_refl) w w0 Hw eq_refl)
    as (H1 & H2 & _).
  split; assumption.
Defined.

(** ** The command sequencer *)

Section SequencerFacts.
Context {P : Platform}.

(** Recording touches the two maps and the store, and nothing else. *)
Lemma learn_frame (t : jsstring) (cs : list command) (w : World) :
  let w' := learnSuccessfulPattern t cs w in
  recognizerClass w' = recognizerClass w /\
  commandQueue w' = commandQueue w /\
  processingQueue w' = processingQueue w /\
  contextHistory w' = contextHistory w /\
  confirmationSystem w' = confirmationSystem w /\
  now w' = now w /\
  timers w' = timers w /\
  nextTimerId w' = nextTimerId w /\
  log w' = log w.
Proof.
  destruct cs as [|c cs]; simpl; [now repeat split|].
  unfold learnSuccessfulPattern. case_if; simpl; now repeat split.
Qed.

(** The turn of the loop dispatches the head of the queue, whatever came
    before it. *)
Lemma drainQueue_dispatches (w : World) (item : QueuedCommand) (rest : list QueuedCommand) :
  commandQueue w = item :: rest ->
  log (drainQueue w) =
  log w ++ [(now w, OnCommand (qc_command item) (qc_originalText item))].
Proof.
  intro Hq. unfold drainQueue. rewrite Hq. destruct w; simpl in *.
  now destruct rest.
Qed.

(** Two commands on an idle sequencer: the first is dispatched at once, the
    notification follows, and the second waits for a timer due
    [queueProcessingDelay] later. *)
Lemma queueCommands_two (c1 c2 : command) (text : jsstring) (w : World) :
  processingQueue w = false -> commandQueue w = [] ->
  let w1 := queueCommands [c1; c2] text w in
  log w1 = log w ++
           [(now w, OnCommand c1 text);
            (now w, OnCommand (utf16 "queue")
                      (utf16 "連続コマンド：" ++ join (utf16 " → ") [c1; c2]))] /\
  timers w1 = timers w ++
              [{| timerId := nextTimerId w; due := (now w + 1000)%Z;
                  action := QueueWaitOver |}] /\
  commandQueue w1 =
    [{| qc_command := c2; qc_originalText := text; qc_timestamp := now w |}] /\
  processingQueue w1 = true /\ now w1 = now w.
Proof.
  intros Hp Hq. destruct w; simpl in *. subst.
  unfold queueCommands, processCommandQueue, drainQueue; simpl.
  rewrite <- app_assoc. simpl. repeat split.
Qed.

(** The timer of the wait fires on a queue of one: that command is
    dispatched and the sequencer is idle again. *)
Lemma fire_QueueWaitOver (id : N) (w : World) (t : timer) (item : QueuedCommand) :
  find (fun t => (timerId t =? id)%N) (timers w) = Some t ->
  action t = QueueWaitOver ->
  commandQueue w = [item] ->
  let w1 := fire id w in
  log w1 = log w ++
           [(Z.max (now w) (due t), OnCommand (qc_command item) (qc_originalText item))] /\
  commandQueue w1 = [] /\ processingQueue w1 = false /\
  timers w1 = filter (fun t => negb (timerId t =? id)%N) (timers w).
Proof.
  intros Hf Ha Hq. unfold fire. rewrite Hf, Ha. destruct w; simpl in *. subst.
  unfold drainQueue; simpl. repeat split.
Qed.

End SequencerFacts.

Lemma commandsOf_attack_then_defend :
  commandsOf [] (utf16 "攻撃してから防御") = [attack; defend].
Proof. vm_compute. reflexivity. Qed.

(** C9: the transcript ["攻撃してから防御"] is matched by the compound-phrase
    check to [attack; defend].  On a new [AdvancedVoiceRecognition] at clock
    [T] (with no confirmation system, or with one and a confidence of at
    least 0.6, so that no confirmation is asked) [processRecognitionResult]
    dispatches attack at [T] and leaves one timer, due at [T + 1000]; when
    it fires, defend is dispatched at [T + 1000], after attack, and the
    sequencer is idle.  The turn of the loop that dispatches a queued
    command reads the queue only: it does not look at what became of the
    command before. *)
Theorem compound_attack_then_defend (T : Z) (confidence : Q) (withConfirmation : bool) :
  (withConfirmation = true -> 6 # 10 <= confidence) ->
  let t := utf16 "攻撃してから防御" in
  let w0 := newWorld AdvancedVoiceRecognition withConfirmation T in
  comboCheck naturalLanguagePatterns (toLowerCase t) = Some [attack; defend] /\
  parseAdvancedCommand (learnedCommands w0) t = [attack; defend] /\
  (exists w1,
     processRecognitionResult t confidence w0 = Normal tt w1 /\
     log w1 = [(T, OnCommand attack t);
               (T, OnCommand (utf16 "queue") (utf16 "連続コマンド：attack → defend"))] /\
     timers w1 = [{| timerId := 1; due := (T + 1000)%Z; action := QueueWaitOver |}] /\
     log (fire 1 w1) = log w1 ++ [((T + 1000)%Z, OnCommand defend t)] /\
     timers (fire 1 w1) = [] /\
     commandQueue (fire 1 w1) = [] /\
     processingQueue (fire 1 w1) = false) /\
  (forall (w : World) item rest,
     commandQueue w = item :: rest ->
     log (drainQueue w) =
     log w ++ [(now w, OnCommand (qc_command item) (qc_originalText item))]).
Proof.
  intros Hc t w0.
  split; [vm_compute; reflexivity|].
  split; [vm_compute; reflexivity|].
  split; [|apply drainQueue_dispatches].
  set (w := learnSuccessfulPattern t [attack; defend] (addToContext t w0)).
  assert (E : processRecognitionResult t confidence w0 =
              Normal tt (queueCommands [attack; defend] t w)).
  { unfold processRecognitionResult.
    replace (hasPendingConfirmation (addToContext t w0)) with false
      by now destruct withConfirmation.
    unfold interpretTranscript.
    change (learnedCommands (addToContext t w0)) with (@nil (jsstring * command)).
    rewrite (commandsOf_attack_then_defend : commandsOf [] t = _). unfold actOn.
    destruct withConfirmation.
    - change (confirmationSystem (addToContext t w0)) with (Some newConfirmationSystem).
      cbv iota. unfold newConfirmationSystem. rewrite shouldConfirm_default.
      change (existsb _ criticalCommands) with false. cbv iota.
      change (3 <? _)%nat with false. cbv iota.
      replace (Qltb confidence (6 # 10)) with false
        by (symmetry; apply Qltb_ge; auto).
      reflexivity.
    - reflexivity. }
  destruct (learn_frame t [attack; defend] (addToContext t w0))
    as (_ & Fq & Fp & _ & _ & Fn & Ft & Fi & Fl).
  change (commandQueue (addToContext t w0)) with (@nil QueuedCommand) in Fq.
  change (processingQueue (addToContext t w0)) with false in Fp.
  change (now (addToContext t w0)) with T in Fn.
  change (timers (addToContext t w0)) with (@nil timer) in Ft.
  change (nextTimerId (addToContext t w0)) with 1%N in Fi.
  change (log (addToContext t w0)) with (@nil (Z * effect)) in Fl.
  fold w in Fq, Fp, Fn, Ft, Fi, Fl.
  destruct (queueCommands_two attack defend t w Fp Fq) as (Q1 & Q2 & Q3 & Q4 & Q5).
  rewrite Fl, Fn in Q1. rewrite Ft, Fi, Fn in Q2. rewrite Fn in Q3.
  set (w1 := queueCommands [attack; defend] t w) in *.
  assert (Hf : find (fun x => (timerId x =? 1)%N) (timers w1) =
               Some {| timerId := 1; due := (T + 1000)%Z; action := QueueWaitOver |}).
  { rewrite Q2. reflexivity. }
  destruct (fire_QueueWaitOver 1 w1 Hf eq_refl Q3) as (G1 & G2 & G3 & G4).
  exists w1. split; [exact E|]. split; [exact Q1|]. split; [exact Q2|].
  split; [|split; [|split; assumption]].
  - rewrite G1, Q5. cbn [due qc_command qc_originalText].
    rewrite Z.max_r by lia. reflexivity.
  - rewrite G4, Q2. reflexivity.
Qed.

Lemma compound_attack_then_defend_witness :
  let t := utf16 "攻撃してから防御" in
  exists w1,
    processRecognitionResult t (9 # 10) (newWorld AdvancedVoiceRecognition true 0)
      = Normal tt w1 /\
    log (fire 1 w1) =
      [(0%Z, OnCommand attack t);
       (0%Z, OnCommand (utf16 "queue") (utf16 "連続コマンド：attack → defend"));
       (1000%Z, OnCommand defend t)].
Proof.
  intro t.
  destruct (@compound_attack_then_defend 0 (9 # 10) true
              (fun _ => ltac:(discriminate)))
    as (_ & _ & (w1 & E & L & _ & F & _) & _).
  exists w1. split; [exact E|]. rewrite F, L. reflexivity.
Defined.

(** ** The patterns of the confirmation system *)

Module RegexFacts.

Section Prefix.
Variable ic : bool.






End Prefix.


End RegexFacts.


(** ** The confirmation coordinator *)

Section ConfirmationFacts.
Context {P : Platform}.

Lemma keeps_refl (w : World) : KeepsConfirmation w w.
Proof. now repeat split. Qed.

Lemma keeps_trans (w1 w2 w3 : World) :
  KeepsConfirmation w1 w2 -> KeepsConfirmation w2 w3 -> KeepsConfirmation w1 w3.
Proof.
  intros (A1 & A2 & A3) (B1 & B2 & B3). repeat split; congruence.
Qed.

Lemma keeps_emit (e : effect) (w : World) : KeepsConfirmation w (emit e w).
Proof. now repeat split. Qed.

Lemma keeps_learn (t : jsstring) (cs : list command) (w : World) :
  KeepsConfirmation w (learnSuccessfulPattern t cs w).
Proof.
  destruct (learn_frame t cs w) as (H1 & _ & _ & _ & H2 & _ & H3 & _).
  repeat split; try assumption. unfold confirmationTimers. now rewrite H3.
Qed.

Lemma keeps_addLearningPattern (t : jsstring) (c : command) (q : Q) (w : World) :
  KeepsConfirmation w (addLearningPattern t c q w).
Proof.
  unfold addLearningPattern.
  eapply keeps_trans; [apply keeps_learn | apply keeps_emit].
Qed.

Lemma keeps_addCorrectionPattern (t : jsstring) (c : command) (t' : jsstring)
    (c' : command) (w : World) :
  KeepsConfirmation w (addCorrectionPattern t c t' c' w).
Proof.
  unfold addCorrectionPattern.
  eapply keeps_trans; [|apply keeps_addLearningPattern]. now repeat split.
Qed.

Lemma keeps_executeCommand (c : command) (t : jsstring) (w : World) :
  KeepsConfirmation w (executeCommand c t w).
Proof. apply keeps_emit. Qed.

Lemma keeps_drainQueue (w : World) : KeepsConfirmation w (drainQueue w).
Proof.
  unfold drainQueue. destruct (commandQueue w) as [|i [|j r]] eqn:E;
    destruct w; simpl in *; repeat split.
  unfold confirmationTimers. simpl. rewrite filter_app. simpl. now rewrite app_nil_r.
Qed.

Lemma keeps_queueCommands (cs : list command) (t : jsstring) (w : World) :
  KeepsConfirmation w (queueCommands cs t w).
Proof.
  unfold queueCommands.
  eapply keeps_trans; [|apply keeps_emit].
  set (w1 := set_commandQueue _ w).
  assert (K1 : KeepsConfirmation w w1) by now repeat split.
  eapply keeps_trans; [exact K1|].
  destruct (processingQueue w1) eqn:E; [apply keeps_refl|].
  unfold processCommandQueue. rewrite E.
  eapply keeps_trans; [|apply keeps_drainQueue]. now repeat split.
Qed.

Lemma keeps_callConfirmed (cb : confirmedCallback) (c : command) (t : jsstring) (w : World) :
  KeepsConfirmation w (callConfirmed cb c t w).
Proof.
  destruct cb as [allCommands]. unfold callConfirmed.
  eapply keeps_trans; [|apply keeps_learn].
  case_if; [apply keeps_executeCommand | apply keeps_queueCommands].
Qed.

Lemma keeps_callRejected (cb : rejectedCallback) (t r : jsstring) (w : World) :
  KeepsConfirmation w (callRejected cb t r w).
Proof. destruct cb. apply keeps_emit. Qed.


Lemma filter_conf_cleared (id : N) (ts : list timer) :
  (forall t, In t (filter isConfirmationTimer ts) -> Some id = Some (timerId t)) ->
  filter isConfirmationTimer (filter (fun t => negb (timerId t =? id)%N) ts) = [].
Proof.
  induction ts as [|t ts IH]; intro H; simpl; [reflexivity|].
  simpl in H. destruct (isConfirmationTimer t) eqn:Ec.
  - assert (E : Some id = Some (timerId t)) by (apply H; now left).
    injection E as ->. rewrite N.eqb_refl. simpl.
    apply IH. intros t' Hin. apply H. now right.
  - destruct (negb (timerId t =? id)%N); simpl; [rewrite Ec|]; now apply IH.
Qed.

(** [clearPendingConfirmation]: no pending confirmation, no remembered
    timer, the overlay hidden; the timer it remembered is off the table. *)
Lemma clearPending_spec (w : World) :
  let w' := clearPendingConfirmation w in
  pendingOf w' = None /\ timeoutOf w' = None /\
  log w' = log w ++ [(now w, HideConfirmationUI)] /\
  timers w' = match timeoutOf w with
              | Some id => filter (fun t => negb (timerId t =? id)%N) (timers w)
              | None => timers w
              end /\
  recognizerClass w' = recognizerClass w /\
  userPatterns w' = userPatterns w /\
  learnedCommands w' = learnedCommands w /\
  commandQueue w' = commandQueue w /\
  localStorage w' = localStorage w /\
  now w' = now w.
Proof.
  destruct w as [cls q pq up lc ch [[p [id|] th]|] nw ts nx ls lg]; simpl;
    now repeat split.
Qed.

Lemma clearPending_cancels (w : World) :
  (forall t, In t (confirmationTimers w) -> timeoutOf w = Some (timerId t)) ->
  confirmationTimers (clearPendingConfirmation w) = [].
Proof.
  intro H. unfold confirmationTimers in *.
  destruct (clearPending_spec w) as (_ & _ & _ & -> & _).
  destruct (timeoutOf w) as [id|] eqn:E.
  - now apply filter_conf_cleared.
  - destruct (filter isConfirmationTimer (timers w)) as [|t r]; [reflexivity|].
    specialize (H t (or_introl eq_refl)). discriminate.
Qed.

(** The timeout handler on a world with no pending confirmation. *)
Lemma handleConfirmationTimeout_idle (w : World) :
  pendingOf w = None -> handleConfirmationTimeout w = w.
Proof. intro H. unfold handleConfirmationTimeout. now rewrite H. Qed.

(** A resolution ends in [clearPendingConfirmation]: whatever the calls
    before it did, the confirmation is closed and its timer cancelled. *)
Lemma resolved_by_clear (w w4 : World) :
  (forall t, In t (confirmationTimers w) -> timeoutOf w = Some (timerId t)) ->
  KeepsConfirmation w w4 ->
  let w' := clearPendingConfirmation w4 in
  pendingOf w' = None /\ timeoutOf w' = None /\ confirmationTimers w' = [] /\
  handleConfirmationTimeout w' = w' /\ recognizerClass w' = recognizerClass w.
Proof.
  intros H (K1 & K2 & K3) w'.
  destruct (clearPending_spec w4) as (S1 & S2 & _ & _ & S5 & _).
  repeat split; try assumption.
  - apply clearPending_cancels. rewrite K3. unfold timeoutOf. now rewrite K2.
  - now apply handleConfirmationTimeout_idle.
  - unfold w'. congruence.
Qed.






Lemma find_new_timer (ts : list timer) (n : N) (a b : timer) :
  (forall t, In t ts -> (timerId t < n)%N) ->
  timerId a = n -> timerId b = (n + 1)%N ->
  find (fun t => (timerId t =? n + 1)%N) ((ts ++ [a]) ++ [b]) = Some b.
Proof.
  intros H Ha Hb. induction ts as [|t ts IH]; simpl.
  - rewrite Ha, Hb, N.eqb_refl.
    replace (n =? n + 1)%N with false by (symmetry; apply N.eqb_neq; lia).
    reflexivity.
  - replace (timerId t =? n + 1)%N with false.
    + apply IH. intros t' Hin. apply H. now right.
    + symmetry. apply N.eqb_neq. specialize (H t (or_introl eq_refl)). lia.
Qed.

Lemma In_filter_lt (id n : N) (ts : list timer) :
  (forall t, In t ts -> (timerId t < n)%N) ->
  forall t, In t (filter (fun t => negb (timerId t =? id)%N) ts) -> (timerId t < n)%N.
Proof. intros H t Hin. apply filter_In in Hin as [Hin _]. now apply H. Qed.

Lemma requestConfirmation_spec (cmd : command) (text : jsstring) (confidence : Q)
    (onC : option confirmedCallback) (onR : option rejectedCallback)
    (w : World) (c : ConfirmationSystem) :
  confirmationSystem w = Some c -> TimersOk w ->
  let w1 := requestConfirmation cmd text confidence onC onR w in
  let id := (nextTimerId w + 1)%N in
  let tm := {| timerId := id; due := (now w + 10000)%Z;
               action := ConfirmationTimeoutFires |} in
  pendingOf w1 = Some {| pc_command := cmd; pc_originalText := text;
                         pc_confidence := confidence; pc_onConfirmed := onC;
                         pc_onRejected := onR; pc_timestamp := now w |} /\
  timeoutOf w1 = Some id /\
  confirmationTimers w1 = [tm] /\
  find (fun t => (timerId t =? id)%N) (timers w1) = Some tm /\
  now w1 = now w /\
  recognizerClass w1 = recognizerClass w /\
  log w1 = log w ++ [(now w, HideConfirmationUI); (now w, ShowConfirmationUI text cmd)] /\
  TimersOk w1.
Proof.
  intros Hc [Hfresh Hconf].
  destruct w as [cls q pq up lc ch cs nw ts nx ls lg]. simpl in Hc. subst cs.
  destruct c as [p tmo th].
  unfold TimersOk, confirmationTimers, timeoutOf in *. simpl in Hfresh, Hconf.
  set (ts' := match tmo with
              | Some id => filter (fun t => negb (timerId t =? id)%N) ts
              | None => ts
              end).
  assert (F' : forall t, In t ts' -> (timerId t < nx)%N).
  { unfold ts'. destruct tmo; [now apply In_filter_lt | assumption]. }
  assert (C' : filter isConfirmationTimer ts' = []).
  { unfold ts'. destruct tmo as [id|].
    - apply filter_conf_cleared. intros t Hin. now apply Hconf.
    - destruct (filter isConfirmationTimer ts) as [|t r]; [reflexivity|].
      specialize (Hconf t (or_introl eq_refl)). discriminate. }
  assert (T1 : timers (requestConfirmation cmd text confidence onC onR
                 {| recognizerClass := cls; commandQueue := q; processingQueue := pq;
                    userPatterns := up; learnedCommands := lc; contextHistory := ch;
                    confirmationSystem := Some {| pendingConfirmation := p;
                      confirmationTimeout := tmo; confidenceThreshold := th |};
                    now := nw; timers := ts; nextTimerId := nx; localStorage := ls;
                    log := lg |})
               = (ts' ++ [{| timerId := nx; due := (nw + 500)%Z;
                            action := SpeakRequest (cmd ++ utf16 "、でよろしいですか？") |}])
                 ++ [{| timerId := (nx + 1)%N; due := (nw + 10000)%Z;
                        action := ConfirmationTimeoutFires |}]).
  { unfold ts'. destruct tmo; reflexivity. }
  cbv zeta. rewrite T1.
  split; [destruct tmo; reflexivity|].
  split; [destruct tmo; reflexivity|].
  split; [rewrite !filter_app, C'; reflexivity|].
  split; [now apply find_new_timer|].
  split; [destruct tmo; reflexivity|].
  split; [destruct tmo; reflexivity|].
  split; [destruct tmo; simpl; now rewrite <- app_assoc|].
  split.
  - intros t Hin.
    replace (nextTimerId _) with (nx + 1 + 1)%N by (destruct tmo; reflexivity).
    apply in_app_or in Hin as [Hin|[<-|[]]]; [|simpl; lia].
    apply in_app_or in Hin as [Hin|[<-|[]]]; [|simpl; lia].
    specialize (F' t Hin). lia.
  - intros t Hin. rewrite !filter_app, C' in Hin. simpl in Hin.
    destruct Hin as [<-|[]]. destruct tmo; reflexivity.
Qed.


Lemma find_after_clear (id : N) (ts : list timer) :
  find (fun t => (timerId t =? id)%N) (filter (fun t => negb (timerId t =? id)%N) ts) = None.
Proof.
  induction ts as [|t ts IH]; simpl; [reflexivity|].
  destruct (timerId t =? id)%N eqn:E; simpl; [assumption|]. now rewrite E.
Qed.

(** The timeout fires on a pending confirmation: it is rejected, through
    [rejectCommand], and closed. *)
Lemma timeout_fires (w1 : World) (p : PendingConfirmation) (id : N) (tm : timer) :
  pendingOf w1 = Some p ->
  pc_onRejected p = Some AdvancedOnRejected ->
  timeoutOf w1 = Some id ->
  find (fun t => (timerId t =? id)%N) (timers w1) = Some tm ->
  action tm = ConfirmationTimeoutFires ->
  confirmationTimers w1 = [tm] ->
  let w2 := fire id w1 in
  let T := Z.max (now w1) (due tm) in
  log w2 = log w1 ++
           [(T, HideConfirmationUI);
            (T, OnConfirmationRejected (pc_originalText p) (utf16 "認識が間違っていました"));
            (T, PlaySound (utf16 "error") (3 # 10));
            (T, HideConfirmationUI);
            (T, SpeakAsSystem (utf16 "確認がタイムアウトしました"))] /\
  pendingOf w2 = None /\ timeoutOf w2 = None /\ confirmationTimers w2 = [] /\
  fire id w2 = w2 /\
  userPatterns w2 = userPatterns w1 /\ learnedCommands w2 = learnedCommands w1 /\
  commandQueue w2 = commandQueue w1.
Proof.
  intros Hp Hr Ht Hf Ha Hc.
  destruct w1 as [cls q pq up lc ch [[p0 tmo th]|] nw ts nx ls lg];
    unfold pendingOf, timeoutOf in Hp, Ht; simpl in Hp, Ht; [|discriminate].
  subst p0 tmo. unfold confirmationTimers in Hc. simpl in Hc, Hf.
  unfold fire. simpl timers. rewrite Hf, Ha.
  unfold runTimer, handleConfirmationTimeout, rejectCommand. simpl. rewrite Hr. simpl.
  unfold confirmationTimers. simpl.
  rewrite find_after_clear.
  repeat split.
  - now rewrite <- !app_assoc.
  - apply filter_conf_cleared. intros t Hin.
    apply filter_In in Hin as [Hin Hct]. apply filter_In in Hin as [Hin Hne].
    assert (Hin' : In t (filter isConfirmationTimer ts)) by (apply filter_In; now split).
    rewrite Hc in Hin'. destruct Hin' as [<-|[]].
    apply find_some in Hf as [_ Hid]. apply N.eqb_eq in Hid. now rewrite Hid.
Qed.


Lemma keeps_hide (w : World) : KeepsConfirmation w (hideConfirmationUI w).
Proof. apply keeps_emit. Qed.

(** On [AdvancedVoiceRecognition] the three resolutions that call into the
    recognizer complete normally and end in [clearPendingConfirmation]. *)
Lemma confirmCommand_advanced (w : World) (p : PendingConfirmation) :
  recognizerClass w = AdvancedVoiceRecognition -> pendingOf w = Some p ->
  exists w4, confirmCommand w = Normal tt (clearPendingConfirmation w4) /\
             KeepsConfirmation w w4.
Proof.
  intros Hc Hp. unfold confirmCommand. rewrite Hp.
  set (w2 := match pc_onConfirmed p with
             | Some cb => callConfirmed cb (pc_command p) (pc_originalText p)
                            (hideConfirmationUI w)
             | None => hideConfirmationUI w
             end).
  assert (K2 : KeepsConfirmation w w2).
  { unfold w2. destruct (pc_onConfirmed p).
    - eapply keeps_trans; [apply keeps_hide | apply keeps_callConfirmed].
    - apply keeps_hide. }
  set (w3 := emit (PlaySound (utf16 "notification") (1 # 2)) w2).
  assert (K3 : KeepsConfirmation w w3).
  { eapply keeps_trans; [exact K2 | apply keeps_emit]. }
  unfold voiceRecognition_addLearningPattern.
  destruct K3 as (K31 & K32 & K33). rewrite K31, Hc. simpl.
  eexists. split; [reflexivity|].
  eapply keeps_trans; [|apply keeps_addLearningPattern]. now repeat split.
Qed.

Lemma replaceCommand_advanced (newCommand : command) (newText : jsstring)
    (w : World) (p : PendingConfirmation) :
  recognizerClass w = AdvancedVoiceRecognition -> pendingOf w = Some p ->
  exists w4, replaceCommand newCommand newText w = Normal tt (clearPendingConfirmation w4) /\
             KeepsConfirmation w w4.
Proof.
  intros Hc Hp. unfold replaceCommand. rewrite Hp.
  set (w2 := match pc_onConfirmed p with
             | Some cb => callConfirmed cb newCommand newText (hideConfirmationUI w)
             | None => hideConfirmationUI w
             end).
  assert (K2 : KeepsConfirmation w w2).
  { unfold w2. destruct (pc_onConfirmed p).
    - eapply keeps_trans; [apply keeps_hide | apply keeps_callConfirmed].
    - apply keeps_hide. }
  unfold voiceRecognition_addCorrectionPattern.
  destruct K2 as (K21 & K22 & K23). rewrite K21, Hc. simpl.
  eexists. split; [reflexivity|].
  eapply keeps_trans; [|apply keeps_emit].
  eapply keeps_trans; [|apply keeps_addCorrectionPattern]. now repeat split.
Qed.

Lemma rejectCommand_clears (w : World) (p : PendingConfirmation) :
  pendingOf w = Some p ->
  exists w4, rejectCommand w = clearPendingConfirmation w4 /\ KeepsConfirmation w w4.
Proof.
  intro Hp. unfold rejectCommand. rewrite Hp.
  eexists. split; [reflexivity|].
  eapply keeps_trans; [|apply keeps_emit].
  destruct (pc_onRejected p).
  - eapply keeps_trans; [apply keeps_hide | apply keeps_callRejected].
  - apply keeps_hide.
Qed.

Lemma retryCommand_clears (w : World) (p : PendingConfirmation) :
  pendingOf w = Some p ->
  exists w4, retryCommand w = clearPendingConfirmation w4 /\ KeepsConfirmation w w4.
Proof.
  intro Hp. unfold retryCommand. rewrite Hp.
  eexists. split; [reflexivity|].
  eapply keeps_trans; [apply keeps_hide | apply keeps_emit].
Qed.

(** On [AdvancedVoiceRecognition] every response to a pending confirmation
    completes normally; one that is taken as an answer closes the
    confirmation and cancels its timer, any other is handled by
    [handleUnknownResponse] after the attempt to parse it as a command. *)
Lemma advanced_response (w : World) (p : PendingConfirmation) (responseText : jsstring) :
  recognizerClass w = AdvancedVoiceRecognition ->
  pendingOf w = Some p ->
  (forall t, In t (confirmationTimers w) -> timeoutOf w = Some (timerId t)) ->
  exists b w',
    handleConfirmationResponse responseText w = Normal b w' /\
    (b = true ->
       pendingOf w' = None /\ timeoutOf w' = None /\ confirmationTimers w' = [] /\
       handleConfirmationTimeout w' = w') /\
    (b = false ->
       w' = handleUnknownResponse responseText w /\
       (parseCommand (toLowerCase responseText) = None \/
        exists c, parseCommand (toLowerCase responseText) = Some c /\
                  truthy c && negb (eqb c (utf16 "unknown")) = false)).
Proof.
  intros Hc Hp Hinv.
  assert (Done : forall w4, KeepsConfirmation w w4 ->
            pendingOf (clearPendingConfirmation w4) = None /\
            timeoutOf (clearPendingConfirmation w4) = None /\
            confirmationTimers (clearPendingConfirmation w4) = [] /\
            handleConfirmationTimeout (clearPendingConfirmation w4) =
              clearPendingConfirmation w4).
  { intros w4 K. destruct (resolved_by_clear Hinv K) as (A & B & C & D & _).
    now repeat split. }
  unfold handleConfirmationResponse. rewrite Hp.
  destruct (test yesPhrase _).
  { destruct (confirmCommand_advanced w Hc Hp) as (w4 & E & K). rewrite E. simpl.
    exists true, (clearPendingConfirmation w4).
    split; [reflexivity|]. split; [intros _; now apply Done | discriminate]. }
  destruct (test noPhrase _).
  { destruct (rejectCommand_clears w Hp) as (w4 & E & K). rewrite E.
    exists true, (clearPendingConfirmation w4).
    split; [reflexivity|]. split; [intros _; now apply Done | discriminate]. }
  destruct (test retryPhrase _).
  { destruct (retryCommand_clears w Hp) as (w4 & E & K). rewrite E.
    exists true, (clearPendingConfirmation w4).
    split; [reflexivity|]. split; [intros _; now apply Done | discriminate]. }
  unfold voiceRecognition_parseCommand. rewrite Hc. simpl.
  destruct (parseCommand (toLowerCase responseText)) as [c|] eqn:Ec.
  - destruct (truthy c && negb (eqb c (utf16 "unknown"))) eqn:Et.
    + destruct (replaceCommand_advanced c responseText w Hc Hp) as (w4 & E & K).
      rewrite E. simpl. exists true, (clearPendingConfirmation w4).
      split; [reflexivity|]. split; [intros _; now apply Done | discriminate].
    + exists false, (handleUnknownResponse responseText w).
      split; [reflexivity|]. split; [discriminate|]. intros _. split; [reflexivity|].
      right. exists c. now split.
  - exists false, (handleUnknownResponse responseText w).
    split; [reflexivity|]. split; [discriminate|]. intros _. split; [reflexivity|].
    now left.
Qed.

(** [handleUnknownResponse]: the confirmation stays pending, the user is
    prompted again and the timeout starts anew. *)
Lemma handleUnknownResponse_spec (w : World) (p : PendingConfirmation) (id : N)
    (responseText : jsstring) :
  pendingOf w = Some p -> timeoutOf w = Some id ->
  (forall t, In t (confirmationTimers w) -> timeoutOf w = Some (timerId t)) ->
  let w' := handleUnknownResponse responseText w in
  pendingOf w' = Some p /\
  timeoutOf w' = Some (nextTimerId w) /\
  confirmationTimers w' =
    [{| timerId := nextTimerId w; due := (now w + 10000)%Z;
        action := ConfirmationTimeoutFires |}] /\
  log w' = log w ++
    [(now w, SpeakAsSystem
               (utf16 "「はい」「いいえ」でお答えいただくか、正しいコマンドをお聞かせください"));
     (now w, PlaySound (utf16 "notification") (3 # 10))].
Proof.
  intros Hp Ht Hinv.
  destruct w as [cls q pq up lc ch [[p0 tmo th]|] nw ts nx ls lg];
    unfold pendingOf, timeoutOf, confirmationTimers in *; simpl in *; [|discriminate].
  subst p0 tmo. unfold handleUnknownResponse. simpl.
  repeat split.
  - unfold confirmationTimers. simpl. rewrite filter_app.
    rewrite filter_conf_cleared by (intros t Hin; now apply Hinv).
    reflexivity.
  - now rewrite <- app_assoc.
Qed.


Lemma find_filter_other (id j : N) (ts : list timer) :
  j <> id ->
  find (fun t => (timerId t =? id)%N) (filter (fun t => negb (timerId t =? j)%N) ts) =
  find (fun t => (timerId t =? id)%N) ts.
Proof.
  intro H. induction ts as [|t ts IH]; simpl; [reflexivity|].
  destruct (timerId t =? j)%N eqn:Ej; simpl.
  - apply N.eqb_eq in Ej.
    replace (timerId t =? id)%N with false by (symmetry; apply N.eqb_neq; congruence).
    exact IH.
  - now rewrite IH.
Qed.

Lemma find_app_found (A : Type) (f : A -> bool) (l l' : list A) (a : A) :
  find f l = Some a -> find f (l ++ l') = Some a.
Proof.
  induction l as [|x l IH]; simpl; [discriminate|].
  destruct (f x); [trivial | exact IH].
Qed.

Lemma timers_drainQueue (w : World) :
  exists extra, timers (drainQueue w) = timers w ++ extra.
Proof.
  unfold drainQueue. destruct (commandQueue w) as [|i [|j r]];
    destruct w; simpl; eexists; try (symmetry; apply app_nil_r); reflexivity.
Qed.

Lemma now_drainQueue (w : World) : now (drainQueue w) = now w.
Proof.
  unfold drainQueue. destruct (commandQueue w) as [|i [|j r]]; destruct w; reflexivity.
Qed.

(** Another timer fires while a confirmation is pending: the confirmation
    and its timeout timer are as before. *)
Lemma fire_other_timer (w : World) (p : PendingConfirmation) (id j : N) (tm : timer) :
  j <> id ->
  pendingOf w = Some p ->
  timeoutOf w = Some id ->
  find (fun t => (timerId t =? id)%N) (timers w) = Some tm ->
  confirmationTimers w = [tm] ->
  pendingOf (fire j w) = Some p /\
  timeoutOf (fire j w) = Some id /\
  find (fun t => (timerId t =? id)%N) (timers (fire j w)) = Some tm /\
  confirmationTimers (fire j w) = [tm] /\
  recognizerClass (fire j w) = recognizerClass w /\
  (now w <= now (fire j w))%Z.
Proof.
  intros Hj Hp Ht Hf Hc. unfold fire.
  destruct (find (fun t => (timerId t =? j)%N) (timers w)) as [t|] eqn:Ej.
  2:{ repeat split; try assumption. lia. }
  set (w0 := set_now (Z.max (now w) (due t)) (clearTimeout j w)).
  assert (Hid : timerId tm = id).
  { apply find_some in Hf as [_ H]. now apply N.eqb_eq in H. }
  assert (F0 : find (fun t => (timerId t =? id)%N) (timers w0) = Some tm).
  { unfold w0. simpl. now rewrite find_filter_other. }
  assert (C0 : confirmationTimers w0 = [tm]).
  { unfold w0, confirmationTimers in *. simpl.
    assert (G : forall ts, filter isConfirmationTimer ts = [tm] ->
                filter isConfirmationTimer
                  (filter (fun t => negb (timerId t =? j)%N) ts) = [tm]).
    { clear -Hj Hid. intros ts. 
      assert (G' : forall l, (forall t, In t (filter isConfirmationTimer ts) -> In t l) -> 
                  (forall t, In t l -> timerId t = id) ->
                  filter isConfirmationTimer (filter (fun t => negb (timerId t =? j)%N) ts)
                  = filter isConfirmationTimer ts).
      { intros l. induction ts as [|t ts IH]; simpl; intros H1 H2; [reflexivity|].
        destruct (isConfirmationTimer t) eqn:Ec.
        - assert (E : timerId t = id) by (apply H2, H1; now left).
          replace (timerId t =? j)%N with false
            by (symmetry; apply N.eqb_neq; congruence).
          simpl. rewrite Ec. f_equal. apply IH; [|assumption].
          intros t' Hin. apply H1. now right.
        - destruct (negb (timerId t =? j)%N); simpl; [rewrite Ec|]; now apply IH. }
      intro E. rewrite (G' [tm]); [assumption | now rewrite E |].
      intros t [<-|[]]. assumption. }
    now apply G. }
  assert (A : action t <> ConfirmationTimeoutFires).
  { intro Ha. apply find_some in Ej as [Hin Hid'].
    apply N.eqb_eq in Hid'.
    assert (Hin' : In t (confirmationTimers w)).
    { unfold confirmationTimers. apply filter_In. split; [assumption|].
      unfold isConfirmationTimer. now rewrite Ha. }
    rewrite Hc in Hin'. destruct Hin' as [<-|[]]. congruence. }
  assert (N0 : (now w <= now w0)%Z) by (unfold w0; simpl; lia).
  assert (P0 : pendingOf w0 = Some p) by exact Hp.
  assert (T0 : timeoutOf w0 = Some id) by exact Ht.
  assert (R0 : recognizerClass w0 = recognizerClass w) by reflexivity.
  fold w0. clearbody w0.
  destruct (action t) as [|text| |cmd text]; [contradiction| | |]; simpl.
  - now repeat split.
  - destruct (keeps_drainQueue w0) as (K1 & K2 & K3).
    destruct (timers_drainQueue w0) as [extra E].
    unfold pendingOf, timeoutOf in *. rewrite K2, K3, K1, E, now_drainQueue.
    repeat split; try assumption. now apply find_app_found.
  - now repeat split.
Qed.

Lemma fire_other_timers (js : list N) (w : World) (p : PendingConfirmation) (id : N)
    (tm : timer) :
  ~ In id js ->
  pendingOf w = Some p ->
  timeoutOf w = Some id ->
  find (fun t => (timerId t =? id)%N) (timers w) = Some tm ->
  confirmationTimers w = [tm] ->
  let w' := fold_left (fun v j => fire j v) js w in
  pendingOf w' = Some p /\
  timeoutOf w' = Some id /\
  find (fun t => (timerId t =? id)%N) (timers w') = Some tm /\
  confirmationTimers w' = [tm] /\
  recognizerClass w' = recognizerClass w /\
  (now w <= now w')%Z.
Proof.
  revert w. induction js as [|j js IH]; intros w Hj Hp Ht Hf Hc; simpl.
  - repeat split; try assumption. lia.
  - assert (Hne : j <> id) by (intro E; apply Hj; now left).
    destruct (@fire_other_timer w p id j tm Hne Hp Ht Hf Hc)
      as (A1 & A2 & A3 & A4 & A5 & A6).
    destruct (IH (fire j w)) as (B1 & B2 & B3 & B4 & B5 & B6); try assumption.
    { intro Hin. apply Hj. now right. }
    repeat split; try assumption; [congruence | lia].
Qed.

Lemma TimersOk_newWorld (cls : recognizer) (wc : bool) (t0 : Z) :
  TimersOk (newWorld cls wc t0).
Proof. split; intros t []. Qed.

(** C4: a confirmation is requested at clock [T0].  It is pending with one
    timeout timer, due at [T0 + 10000].  If no response is processed,
    whatever other timers fire meanwhile, the firing of that timer invokes
    the rejection callback, once, not before [T0 + 10000], closes the
    confirmation and leaves no timeout timer: firing it again, or running
    the handler again, changes nothing.  On [AdvancedVoiceRecognition]
    every response completes normally, and one that resolves the
    confirmation (confirmed, rejected, retried or replaced) leaves no
    pending confirmation and no timeout timer, so that no timeout can
    fire, and the handler, were it run, changes nothing; a response that
    does not resolve it leaves it pending with the one timer started anew.
    A new request cancels the timer of the one it discards. *)
Theorem confirmation_timeout_once_and_cancelled (w : World) (c : ConfirmationSystem)
    (cmd : command) (text : jsstring) (confidence : Q)
    (onConfirmed : option confirmedCallback) :
  confirmationSystem w = Some c ->
  TimersOk w ->
  let w1 := requestConfirmation cmd text confidence onConfirmed
              (Some AdvancedOnRejected) w in
  let id := (nextTimerId w + 1)%N in
  let T := (now w + 10000)%Z in
  (timeoutOf w1 = Some id /\
   confirmationTimers w1 =
     [{| timerId := id; due := T; action := ConfirmationTimeoutFires |}]) /\
  (forall others : list N, ~ In id others ->
   let v := fold_left (fun v j => fire j v) others w1 in
   let T' := Z.max (now v) T in
   let w2 := fire id v in
   log w2 = log v ++
            [(T', HideConfirmationUI);
             (T', OnConfirmationRejected text (utf16 "認識が間違っていました"));
             (T', PlaySound (utf16 "error") (3 # 10));
             (T', HideConfirmationUI);
             (T', SpeakAsSystem (utf16 "確認がタイムアウトしました"))] /\
   pendingOf w2 = None /\ timeoutOf w2 = None /\ confirmationTimers w2 = [] /\
   fire id w2 = w2 /\ handleConfirmationTimeout w2 = w2) /\
  (recognizerClass w = AdvancedVoiceRecognition ->
   forall responseText, exists b w',
     handleConfirmationResponse responseText w1 = Normal b w' /\
     (b = true ->
        pendingOf w' = None /\ timeoutOf w' = None /\ confirmationTimers w' = [] /\
        handleConfirmationTimeout w' = w') /\
     (b = false ->
        pendingOf w' = pendingOf w1 /\
        confirmationTimers w' =
          [{| timerId := nextTimerId w1; due := T; action := ConfirmationTimeoutFires |}])) /\
  (forall cmd' text' confidence' onC' onR',
     exists tm,
       confirmationTimers
         (requestConfirmation cmd' text' confidence' onC' onR' w1) = [tm] /\
       timerId tm <> id).
Proof.
  intros Hc Hok w1 id T.
  destruct (@requestConfirmation_spec cmd text confidence onConfirmed
              (Some AdvancedOnRejected) w c Hc Hok)
    as (R1 & R2 & R3 & R4 & R5 & R6 & R7 & R8).
  fold w1 in R1, R2, R3, R4, R5, R6, R7, R8. fold id in R2, R3, R4. fold T in R3, R4.
  assert (Hinv : forall t, In t (confirmationTimers w1) -> timeoutOf w1 = Some (timerId t)).
  { apply R8. }
  split; [now split|]. split; [|split].
  - intros others Hothers v T' w2.
    destruct (@fire_other_timers others w1 _ id _ Hothers R1 R2 R4 R3)
      as (V1 & V2 & V3 & V4 & _ & _).
    fold v in V1, V2, V3, V4.
    destruct (@timeout_fires v _ id _ V1 eq_refl V2 V3 eq_refl V4)
      as (F1 & F2 & F3 & F4 & F5 & _).
    cbn [due pc_originalText] in F1. fold T' in F1. fold w2 in F1, F2, F3, F4, F5.
    repeat split; try assumption.
    now apply handleConfirmationTimeout_idle.
  - intros Hcls r.
    assert (Hcls1 : recognizerClass w1 = AdvancedVoiceRecognition) by congruence.
    destruct (@advanced_response w1 _ r Hcls1 R1 Hinv) as (b & w' & E & Ht & Hf).
    exists b, w'. split; [exact E|]. split; [exact Ht|].
    intro Hb. destruct (Hf Hb) as [-> _].
    destruct (@handleUnknownResponse_spec w1 _ id r R1 R2 Hinv) as (U1 & _ & U3 & _).
    split; [congruence|]. rewrite U3. unfold T. now rewrite R5.
  - intros cmd' text' confidence' onC' onR'.
    assert (Hc1 : exists c1, confirmationSystem w1 = Some c1).
    { unfold pendingOf in R1. destruct (confirmationSystem w1) as [c1|];
        [now exists c1 | discriminate]. }
    destruct Hc1 as [c1 Hc1].
    destruct (@requestConfirmation_spec cmd' text' confidence' onC' onR' w1 c1 Hc1 R8)
      as (_ & _ & S3 & _).
    eexists. split; [exact S3|]. cbn [timerId].
    assert (Hn : (id < nextTimerId w1)%N).
    { destruct R8 as [Hfresh _]. apply find_some in R4 as [Hin _].
      apply (Hfresh _ Hin). }
    clearbody id w1. lia.
Qed.

(** On [UnifiedVoiceRecognition] a yes answer is no resolution either: the
    confirmation callback has run when the call of [addLearningPattern]
    throws, and the confirmation and its timer stay as they were. *)
Lemma unified_yes_response_throws (w : World) (p : PendingConfirmation)
    (responseText : jsstring) :
  recognizerClass w = UnifiedVoiceRecognition ->
  pendingOf w = Some p ->
  test yesPhrase (toLowerCase responseText) = true ->
  exists w3,
    handleConfirmationResponse responseText w =
      Throw (TypeError "this.voiceRecognition.addLearningPattern is not a function") w3 /\
    pendingOf w3 = Some p /\ timeoutOf w3 = timeoutOf w /\
    confirmationTimers w3 = confirmationTimers w.
Proof.
  intros Hc Hp Hy. unfold handleConfirmationResponse. rewrite Hp, Hy.
  unfold confirmCommand. rewrite Hp.
  set (w2 := match pc_onConfirmed p with
             | Some cb => callConfirmed cb (pc_command p) (pc_originalText p)
                            (hideConfirmationUI w)
             | None => hideConfirmationUI w
             end).
  assert (K2 : KeepsConfirmation w w2).
  { unfold w2. destruct (pc_onConfirmed p).
    - eapply keeps_trans; [apply keeps_hide | apply keeps_callConfirmed].
    - apply keeps_hide. }
  set (w3 := emit (PlaySound (utf16 "notification") (1 # 2)) w2).
  assert (K3 : KeepsConfirmation w w3).
  { eapply keeps_trans; [exact K2 | apply keeps_emit]. }
  destruct K3 as (K31 & K32 & K33).
  unfold voiceRecognition_addLearningPattern. rewrite K31, Hc. simpl.
  exists w3. split; [reflexivity|].
  unfold pendingOf, timeoutOf in *. rewrite K32. now repeat split.
Qed.

End ConfirmationFacts.

Lemma confirmation_timeout_once_and_cancelled_witness :
  let w := newWorld AdvancedVoiceRecognition true 0 in
  let w1 := requestConfirmation attack (utf16 "攻撃") (55 # 100)
              (Some (AdvancedOnConfirmed [attack])) (Some AdvancedOnRejected) w in
  let id := (nextTimerId w + 1)%N in
  let v := fold_left (fun v j => fire j v) [1%N] w1 in
  pendingOf (fire id v) = None /\ confirmationTimers (fire id v) = [] /\
  fire id (fire id v) = fire id v.
Proof.
  intros w w1 id v.
  destruct (@confirmation_timeout_once_and_cancelled model_platform
              w newConfirmationSystem
              attack (utf16 "攻撃") (55 # 100) (Some (AdvancedOnConfirmed [attack]))
              eq_refl (TimersOk_newWorld _ _ _))
    as (_ & F & _).
  destruct (F [1%N]) as (_ & F2 & _ & F4 & F5 & _).
  - intros [H|[]]. discriminate.
  - exact (conj F2 (conj F4 F5)).
Defined.

(** The request for attack at clock 0: the spoken request (timer 1, due at
    500) comes first, the timeout (timer 2) fires at 10000 and rejects. *)
Lemma confirmation_timeout_trace :
  let w1 := requestConfirmation attack (utf16 "攻撃") (55 # 100)
              (Some (AdvancedOnConfirmed [attack])) (Some AdvancedOnRejected)
              (newWorld AdvancedVoiceRecognition true 0) in
  log (fire 2 (fire 1 w1)) =
    log w1 ++
    [(500%Z, SpeakAsSystem (utf16 "attack、でよろしいですか？"));
     (10000%Z, HideConfirmationUI);
     (10000%Z, OnConfirmationRejected (utf16 "攻撃") (utf16 "認識が間違っていました"));
     (10000%Z, PlaySound (utf16 "error") (3 # 10));
     (10000%Z, HideConfirmationUI);
     (10000%Z, SpeakAsSystem (utf16 "確認がタイムアウトしました"))] /\
  timers (fire 2 (fire 1 w1)) = [] /\
  fire 2 (fire 2 (fire 1 w1)) = fire 2 (fire 1 w1).
Proof. vm_compute. repeat split. Qed.




(** ** The transcription queue of the offline engine *)

Module WhisperFacts.
Import Whisper.

Section Serialized.
Variable audio : Type.
Implicit Types (e : Engine audio) (ev : event audio).

(** What holds whenever control is back at the event loop. *)
Lemma step_invariant e ev :
  (processingQueue e = [] /\ whisperContext e = true /\
   (if isProcessing e then exists a, inFlight e = [a] else inFlight e = [])) ->
  processingQueue (step e ev) = [] /\ whisperContext (step e ev) = true /\
  (if isProcessing (step e ev) then exists a, inFlight (step e ev) = [a]
   else inFlight (step e ev) = []).
Proof.
  intros (Hq & Hc & Hf).
  destruct e as [l p q c k f tc n]. simpl in Hq, Hc, Hf. subst q c.
  destruct ev as [| |a d|r]; simpl.
  - unfold start. simpl. destruct l; simpl; now repeat split.
  - unfold stop. simpl. destruct l; simpl; now repeat split.
  - unfold processAudioData. simpl.
    destruct l; simpl; [|now repeat split].
    destruct p; simpl; [now repeat split|].
    subst f. repeat split. now exists a.
  - unfold transcribeSettles. simpl.
    destruct f as [|a f]; [now repeat split|].
    destruct p; [|discriminate].
    destruct Hf as [a' [= -> ->]]. simpl. now repeat split.
Qed.



End Serialized.
End WhisperFacts.


(* ===================================================================== *)
(** * Part III. Further properties of the code                            *)
(* ===================================================================== *)

(** ** The keyword step *)

Section KeywordFacts.
Context {P : Platform}.



(** A run of entries that all name the command [c]. *)
Lemma keyword_fold_block (c : jsstring) (block : list (jsstring * jsstring))
    (lt : jsstring) (acc : list jsstring) :
  (forall e, In e block -> snd e = c) ->
  fold_left
    (fun commands e =>
       if includes lt (toLowerCase (fst e))
       then if existsb (eqb (snd e)) commands then commands
            else commands ++ [snd e]
       else commands) block acc =
  if existsb (eqb c) acc then acc
  else if existsb (fun e => includes lt (toLowerCase (fst e))) block
       then acc ++ [c] else acc.
Proof.
  revert acc. induction block as [|e block IH]; intros acc Hb; simpl.
  - now destruct (existsb (eqb c) acc).
  - assert (He : snd e = c) by (apply Hb; now left).
    assert (Hb' : forall e', In e' block -> snd e' = c) by (intros e' H; apply Hb; now right).
    unfold command in *. rewrite He. destruct (includes lt (toLowerCase (fst e))) eqn:E; simpl.
    + destruct (existsb (eqb c) acc) eqn:Ec.
      * rewrite IH by assumption. now rewrite Ec.
      * rewrite IH by assumption.
        rewrite existsb_app. simpl. rewrite eqb_refl. simpl.
        now rewrite orb_true_r.
    + now apply IH.
Qed.

End KeywordFacts.


Section KeywordTableFacts.
Context {P : Platform}.

Lemma said_block_same (c : jsstring) (block : list (jsstring * jsstring)) (lt : jsstring) :
  (forall e, In e block -> snd e = c) ->
  existsb (fun e => eqb (snd e) c && includes lt (toLowerCase (fst e))) block =
  existsb (fun e => includes lt (toLowerCase (fst e))) block.
Proof.
  intro Hb. induction block as [|e block IH]; simpl; [reflexivity|].
  rewrite IH by (intros e' H; apply Hb; now right).
  unfold command in *. rewrite (Hb e) by now left. now rewrite eqb_refl.
Qed.

Lemma said_block_other (c c' : jsstring) (block : list (jsstring * jsstring)) (lt : jsstring) :
  (forall e, In e block -> snd e = c') -> eqb c' c = false ->
  existsb (fun e => eqb (snd e) c && includes lt (toLowerCase (fst e))) block = false.
Proof.
  intros Hb Hc. induction block as [|e block IH]; simpl; [reflexivity|].
  rewrite IH by (intros e' H; apply Hb; now right).
  unfold command in *. rewrite (Hb e) by now left. now rewrite Hc.
Qed.

(** A table made of four runs, one per command. *)
Lemma keywordCheck_four_runs (bA bD bR bS : list (jsstring * command)) (lt : jsstring) :
  (forall e, In e bA -> snd e = attack) ->
  (forall e, In e bD -> snd e = defend) ->
  (forall e, In e bR -> snd e = retreat) ->
  (forall e, In e bS -> snd e = status) ->
  keywordCheck (bA ++ bD ++ bR ++ bS) lt =
  filter (fun c => existsb (fun e => eqb (snd e) c && includes lt (toLowerCase (fst e)))
                     (bA ++ bD ++ bR ++ bS))
         [attack; defend; retreat; status].
Proof.
  intros HA HD HR HS. unfold keywordCheck. rewrite !fold_left_app.
  unfold command in *.
  rewrite (@keyword_fold_block P attack bA lt [] HA).
  rewrite (@keyword_fold_block P defend bD lt _ HD).
  rewrite (@keyword_fold_block P retreat bR lt _ HR).
  rewrite (@keyword_fold_block P status bS lt _ HS).
  cbn [filter]. rewrite !existsb_app.
  rewrite (@said_block_same _ bA lt HA).
  rewrite (@said_block_other attack _ bD lt HD eq_refl).
  rewrite (@said_block_other attack _ bR lt HR eq_refl).
  rewrite (@said_block_other attack _ bS lt HS eq_refl).
  rewrite (@said_block_other defend _ bA lt HA eq_refl).
  rewrite (@said_block_same _ bD lt HD).
  rewrite (@said_block_other defend _ bR lt HR eq_refl).
  rewrite (@said_block_other defend _ bS lt HS eq_refl).
  rewrite (@said_block_other retreat _ bA lt HA eq_refl).
  rewrite (@said_block_other retreat _ bD lt HD eq_refl).
  rewrite (@said_block_same _ bR lt HR).
  rewrite (@said_block_other retreat _ bS lt HS eq_refl).
  rewrite (@said_block_other status _ bA lt HA eq_refl).
  rewrite (@said_block_other status _ bD lt HD eq_refl).
  rewrite (@said_block_other status _ bR lt HR eq_refl).
  rewrite (@said_block_same _ bS lt HS).
  destruct (existsb (fun e => includes lt (toLowerCase (fst e))) bA);
  destruct (existsb (fun e => includes lt (toLowerCase (fst e))) bD);
  destruct (existsb (fun e => includes lt (toLowerCase (fst e))) bR);
  destruct (existsb (fun e => includes lt (toLowerCase (fst e))) bS);
  reflexivity.
Qed.

Ltac run_of_one_command :=
  let e := fresh "e" in let H := fresh "H" in
  intros e H; simpl in H;
  repeat (destruct H as [H|H]; [subst e; reflexivity|]); destruct H.

Lemma keywordCheck_commandMap (lt : jsstring) :
  keywordCheck commandMap lt =
  filter (fun c => existsb (fun e => eqb (snd e) c && includes lt (toLowerCase (fst e)))
                           commandMap)
         [attack; defend; retreat; status].
Proof.
  change commandMap with
    ([ (utf16 "攻撃", attack); (utf16 "こうげき", attack);
       (utf16 "アタック", attack); (utf16 "たたかう", attack);
       (utf16 "戦う", attack) ] ++
     [ (utf16 "防御", defend); (utf16 "ぼうぎょ", defend);
       (utf16 "ディフェンス", defend); (utf16 "まもる", defend);
       (utf16 "守る", defend); (utf16 "シールド", defend) ] ++
     [ (utf16 "撤退", retreat); (utf16 "てったい", retreat);
       (utf16 "にげる", retreat); (utf16 "逃げる", retreat);
       (utf16 "ひく", retreat); (utf16 "引く", retreat) ] ++
     [ (utf16 "状況", status); (utf16 "じょうきょう", status);
       (utf16 "レポート", status); (utf16 "ほうこく", status);
       (utf16 "報告", status) ]).
  apply keywordCheck_four_runs; run_of_one_command.
Qed.

Lemma keywordCheck_Unified_commandMap (lt : jsstring) :
  keywordCheck Unified_commandMap lt =
  filter (fun c => existsb (fun e => eqb (snd e) c && includes lt (toLowerCase (fst e)))
                           Unified_commandMap)
         [attack; defend; retreat; status].
Proof.
  change Unified_commandMap with
    ([ (utf16 "攻撃", attack); (utf16 "こうげき", attack); (utf16 "attack", attack) ] ++
     [ (utf16 "防御", defend); (utf16 "ぼうぎょ", defend); (utf16 "defend", defend) ] ++
     [ (utf16 "撤退", retreat); (utf16 "てったい", retreat); (utf16 "retreat", retreat) ] ++
     [ (utf16 "状況", status); (utf16 "じょうきょう", status); (utf16 "status", status) ]).
  apply keywordCheck_four_runs; run_of_one_command.
Qed.

(** X1: the keyword step of the matcher answers, for every transcript, the
    commands one of whose keywords occurs in it, each once and always in
    the order attack, defend, retreat, status, whatever the order of the
    words in the transcript.  This holds for the keyword table of
    [VoiceRecognition], which [AdvancedVoiceRecognition] reads, and for
    the table of [UnifiedVoiceRecognition]. *)
Theorem keyword_commands_follow_the_table (lowerTranscript : jsstring) :
  let said (table : list (jsstring * command)) (c : command) :=
    existsb (fun e => eqb (snd e) c && includes lowerTranscript (toLowerCase (fst e)))
            table in
  keywordCheck commandMap lowerTranscript =
    filter (said commandMap) [attack; defend; retreat; status] /\
  keywordCheck Unified_commandMap lowerTranscript =
    filter (said Unified_commandMap) [attack; defend; retreat; status].
Proof.
  intro said. unfold said. split.
  - apply keywordCheck_commandMap.
  - apply keywordCheck_Unified_commandMap.
Qed.

End KeywordTableFacts.


Section BaseMatcherFacts.
Context {P : Platform}.







End BaseMatcherFacts.


Section VocabularyFacts.
Context {P : Platform}.

Lemma checkLearnedPatterns_Some (learned : JsMap.t command) (t : jsstring) (c : command) :
  checkLearnedPatterns learned t = Some c -> exists k, In (k, c) learned.
Proof.
  induction learned as [|[k0 c0] l IH]; simpl; [discriminate|].
  destruct (includes (toLowerCase t) (toLowerCase k0)).
  - intros [= ->]. exists k0. now left.
  - intro H. destruct (IH H) as [k Hk]. exists k. now right.
Qed.

Lemma comboCheck_Some (entries : JsMap.t (list RegExp)) (lt : jsstring) (l : list command) :
  comboCheck entries lt = Some l ->
  exists combo patterns,
    In (combo, patterns) entries /\ startsWith combo (utf16 "combo_") = true /\
    l = split 95%N (remove_first (utf16 "combo_") combo).
Proof.
  induction entries as [|[combo ps] entries IH]; simpl; [discriminate|].
  destruct (startsWith combo (utf16 "combo_")) eqn:E; simpl.
  - destruct (existsb (fun pattern => test pattern lt) ps).
    + intros [= <-]. exists combo, ps. split; [now left | now split].
    + intro H. destruct (IH H) as (c & p & H1 & H2). exists c, p. split; [now right | assumption].
  - intro H. destruct (IH H) as (c & p & H1 & H2). exists c, p. split; [now right | assumption].
Qed.

Lemma naturalCheck_Some (entries : JsMap.t (list RegExp)) (lt : jsstring) (c : command) :
  naturalCheck entries lt = Some c ->
  exists patterns, In (c, patterns) entries /\ startsWith c (utf16 "combo_") = false.
Proof.
  induction entries as [|[c0 ps] entries IH]; simpl; [discriminate|].
  destruct (startsWith c0 (utf16 "combo_")) eqn:E.
  - intro H. destruct (IH H) as (p & H1 & H2). exists p. split; [now right | assumption].
  - destruct (existsb (fun pattern => test pattern lt) ps).
    + intros [= <-]. exists ps. split; [now left | assumption].
    + intro H. destruct (IH H) as (p & H1 & H2). exists p. split; [now right | assumption].
Qed.

(** The compound-phrase check answers one of the two pairs. *)
Lemma comboCheck_pairs (lt : jsstring) (l : list command) :
  comboCheck naturalLanguagePatterns lt = Some l ->
  l = [attack; defend] \/ l = [defend; attack].
Proof.
  intro H. apply comboCheck_Some in H as (combo & ps & Hin & Hs & ->).
  unfold naturalLanguagePatterns in Hin. simpl in Hin.
  destruct Hin as [Hin|[Hin|[Hin|[Hin|[Hin|[Hin|[]]]]]]]; injection Hin as <- <-;
    vm_compute in Hs; try discriminate Hs; [left | right]; vm_compute; reflexivity.
Qed.

Lemma parseNaturalLanguage_vocabulary (t : jsstring) (c : command) :
  parseNaturalLanguage t = Some c -> In c [attack; defend; retreat; status].
Proof.
  unfold parseNaturalLanguage. intro H. apply naturalCheck_Some in H as (ps & Hin & Hs).
  unfold naturalLanguagePatterns in Hin. simpl in Hin.
  destruct Hin as [Hin|[Hin|[Hin|[Hin|[Hin|[Hin|[]]]]]]]; injection Hin as <- <-;
    vm_compute in Hs; try discriminate Hs; simpl; auto.
Qed.

Lemma keywordCheck_vocabulary (lt : jsstring) :
  exists said, keywordCheck commandMap lt = filter said [attack; defend; retreat; status].
Proof.
  eexists. apply keywordCheck_commandMap.
Qed.

End VocabularyFacts.


(** ** The sequencer, for any number of commands *)

Section SequencerRunFacts.
Context {P : Platform}.

Lemma filter_none (A : Type) (f : A -> bool) (l : list A) :
  (forall x, In x l -> f x = false) -> filter f l = [].
Proof.
  induction l as [|x l IH]; intro H; simpl; [reflexivity|].
  rewrite (H x) by now left. apply IH. intros y Hy. apply H. now right.
Qed.

Lemma filter_all (A : Type) (f : A -> bool) (l : list A) :
  (forall x, In x l -> f x = true) -> filter f l = l.
Proof.
  induction l as [|x l IH]; intro H; simpl; [reflexivity|].
  rewrite (H x) by now left. f_equal. apply IH. intros y Hy. apply H. now right.
Qed.

Lemma find_none (A : Type) (f : A -> bool) (l : list A) :
  (forall x, In x l -> f x = false) -> find f l = None.
Proof.
  induction l as [|x l IH]; intro H; simpl; [reflexivity|].
  rewrite (H x) by now left. apply IH. intros y Hy. apply H. now right.
Qed.

Lemma find_last (A : Type) (f : A -> bool) (l : list A) (a : A) :
  (forall x, In x l -> f x = false) -> f a = true -> find f (l ++ [a]) = Some a.
Proof.
  intros H Ha. induction l as [|x l IH]; simpl; [now rewrite Ha|].
  rewrite (H x) by now left. apply IH. intros y Hy. apply H. now right.
Qed.

Lemma schedule_shift (text : jsstring) (D : Z) (cs : list command) (a n : nat) :
  map (fun ic => ((D + 1000 + 1000 * Z.of_nat (fst ic))%Z, OnCommand (snd ic) text))
      (combine (seq a n) cs) =
  map (fun ic => ((D + 1000 * Z.of_nat (fst ic))%Z, OnCommand (snd ic) text))
      (combine (seq (S a) n) cs).
Proof.
  revert a n. induction cs as [|c cs IH]; intros a [|n]; cbn [seq combine map fst snd];
    try reflexivity.
  f_equal; [f_equal; lia | apply IH].
Qed.

(** The sequencer waits with [c :: cs] in its queue: the timer of the wait
    fires, and again after each command but the last. *)
Lemma runQueue_waiting (cls : recognizer) (up : JsMap.t JsSet.t) (lc : JsMap.t command)
    (ch : list (jsstring * Z)) (cf : option ConfirmationSystem) (ls : option storedText)
    (text : jsstring) (stamp : Z) (ts : list timer) (cs : list command) :
  forall (c : command) (lg : list (Z * effect)) (nx : N) (D nw : Z),
  (forall t, In t ts -> isQueueTimer t = false /\ (timerId t < nx)%N) ->
  (nw <= D)%Z ->
  runQueue (S (List.length cs))
    {| recognizerClass := cls;
       commandQueue := map (fun c => {| qc_command := c; qc_originalText := text;
                                        qc_timestamp := stamp |}) (c :: cs);
       processingQueue := true; userPatterns := up; learnedCommands := lc;
       contextHistory := ch; confirmationSystem := cf; now := nw;
       timers := ts ++ [{| timerId := nx; due := D; action := QueueWaitOver |}];
       nextTimerId := nx + 1; localStorage := ls; log := lg |} =
    {| recognizerClass := cls; commandQueue := [];
       processingQueue := false; userPatterns := up; learnedCommands := lc;
       contextHistory := ch; confirmationSystem := cf;
       now := (D + 1000 * Z.of_nat (List.length cs))%Z;
       timers := ts;
       nextTimerId := nx + 1 + N.of_nat (List.length cs); localStorage := ls;
       log := lg ++ map (fun ic => ((D + 1000 * Z.of_nat (fst ic))%Z,
                                    OnCommand (snd ic) text))
                        (combine (seq 0 (S (List.length cs))) (c :: cs)) |}.
Proof.
  induction cs as [|c' cs IH]; intros c lg nx D nw Hts Hnow.
  - assert (Hq : filter isQueueTimer ts = [])
      by (apply filter_none; intros t Ht; apply (Hts t Ht)).
    assert (Hf : find (fun t => (timerId t =? nx)%N)
                   (ts ++ [{| timerId := nx; due := D; action := QueueWaitOver |}]) =
                 Some {| timerId := nx; due := D; action := QueueWaitOver |}).
    { apply find_last; [|apply N.eqb_refl].
      intros t Ht. apply N.eqb_neq. destruct (Hts t Ht) as [_ Hlt]. lia. }
    assert (Hc : filter (fun t => negb (timerId t =? nx)%N)
                   (ts ++ [{| timerId := nx; due := D; action := QueueWaitOver |}]) = ts).
    { rewrite filter_app. simpl. rewrite N.eqb_refl. simpl. rewrite app_nil_r.
      apply filter_all. intros t Ht. destruct (Hts t Ht) as [_ Hlt].
      apply negb_true_iff, N.eqb_neq. lia. }
    cbn [runQueue List.length]. unfold queueTimers. cbn [timers].
    rewrite filter_app, Hq. cbn [filter isQueueTimer action app timerId].
    unfold fire. cbn [timers]. rewrite Hf.
    unfold clearTimeout, set_timers, set_now. cbn -[Z.max Z.add Z.mul N.add filter].
    rewrite Hc. unfold runTimer, drainQueue. cbn -[Z.max Z.add Z.mul N.add].
    rewrite Z.max_r by assumption.
    unfold set_processingQueue, executeCommand, emit, set_log, set_commandQueue.
    cbn -[Z.max Z.add Z.mul N.add].
    f_equal; try lia.
    now rewrite Z.mul_0_r, Z.add_0_r.
  - assert (Hq : filter isQueueTimer ts = [])
      by (apply filter_none; intros t Ht; apply (Hts t Ht)).
    assert (Hf : find (fun t => (timerId t =? nx)%N)
                   (ts ++ [{| timerId := nx; due := D; action := QueueWaitOver |}]) =
                 Some {| timerId := nx; due := D; action := QueueWaitOver |}).
    { apply find_last; [|apply N.eqb_refl].
      intros t Ht. apply N.eqb_neq. destruct (Hts t Ht) as [_ Hlt]. lia. }
    assert (Hc : filter (fun t => negb (timerId t =? nx)%N)
                   (ts ++ [{| timerId := nx; due := D; action := QueueWaitOver |}]) = ts).
    { rewrite filter_app. simpl. rewrite N.eqb_refl. simpl. rewrite app_nil_r.
      apply filter_all. intros t Ht. destruct (Hts t Ht) as [_ Hlt].
      apply negb_true_iff, N.eqb_neq. lia. }
    change (runQueue (S (List.length (c' :: cs))) ?w) with
      (match queueTimers w with
       | t :: _ => runQueue (S (List.length cs)) (fire (timerId t) w)
       | [] => w
       end).
    unfold queueTimers. cbn [timers].
    rewrite filter_app, Hq. cbn [filter isQueueTimer action app timerId].
    unfold fire. cbn [timers]. rewrite Hf.
    unfold clearTimeout, set_timers, set_now. cbn -[Z.max Z.add Z.mul N.add filter runQueue].
    rewrite Hc. unfold runTimer, drainQueue. cbn -[Z.max Z.add Z.mul N.add runQueue].
    rewrite Z.max_r by assumption.
    unfold setTimeout, set_timers, set_processingQueue, executeCommand, emit, set_log,
      set_commandQueue, queueProcessingDelay.
    cbn -[Z.max Z.add Z.mul N.add runQueue].
    rewrite (IH c' _ (nx + 1)%N (D + 1000)%Z D).
    + f_equal.
      * cbn [List.length]. lia.
      * cbn [List.length]. lia.
      * rewrite <- app_assoc. f_equal.
        change (combine (seq 0 (S (List.length (c' :: cs))) ) (c :: c' :: cs)) with
          ((0%nat, c) :: combine (seq 1 (S (List.length cs))) (c' :: cs)).
        cbn [map fst snd app]. rewrite Z.mul_0_r, Z.add_0_r. f_equal.
        apply schedule_shift.
    + intros t Ht. destruct (Hts t Ht) as [H1 H2]. split; [assumption | lia].
    + lia.
Qed.

End SequencerRunFacts.


Section SequencerOrderFacts.
Context {P : Platform}.

Tactic Notation "ustep" reference(f) :=
  unfold f;
  cbn [recognizerClass commandQueue processingQueue userPatterns learnedCommands
       contextHistory confirmationSystem now timers nextTimerId localStorage log
       qc_command qc_originalText qc_timestamp timerId due action
       fst snd app map].

(** X3: any number of commands queued on an idle sequencer are dispatched
    in their order, the first at once and each next one 1000 ms after the
    one before it (when its timer fires as soon as it is due); the
    notification of the queue follows the first dispatch; at the end the
    queue is empty, the sequencer is idle and no timer of its own is
    left. *)
Theorem sequencer_dispatches_in_order (c : command) (cs : list command)
    (text : jsstring) (w : World) :
  processingQueue w = false -> commandQueue w = [] ->
  (forall t, In t (timers w) -> isQueueTimer t = false /\ (timerId t < nextTimerId w)%N) ->
  let w1 := queueCommands (c :: cs) text w in
  let w2 := runQueue (List.length cs) w1 in
  log w1 = log w ++
           [(now w, OnCommand c text);
            (now w, OnCommand (utf16 "queue")
                      (utf16 "連続コマンド：" ++ join (utf16 " → ") (c :: cs)))] /\
  log w2 = log w1 ++
           map (fun ic => ((now w + 1000 * Z.of_nat (fst ic))%Z, OnCommand (snd ic) text))
               (combine (seq 1 (List.length cs)) cs) /\
  commandQueue w2 = [] /\ processingQueue w2 = false /\ timers w2 = timers w.
Proof.
  intros Hp Hq Hts.
  destruct w as [cls q pq up lc ch cf nw ts nx ls lg].
  cbn [processingQueue commandQueue timers nextTimerId] in Hp, Hq, Hts. subst pq q.
  destruct cs as [|c' cs].
  - cbv zeta. ustep queueCommands. ustep set_commandQueue. ustep processCommandQueue.
    ustep set_processingQueue. ustep drainQueue. ustep executeCommand. ustep emit.
    ustep set_log. ustep set_commandQueue. ustep set_processingQueue. ustep emit.
    ustep set_log. rewrite <- app_assoc. cbn [app]. rewrite app_nil_r.
    repeat split; reflexivity.
  - cbv zeta.
    assert (E : queueCommands (c :: c' :: cs) text
                  {| recognizerClass := cls; commandQueue := []; processingQueue := false;
                     userPatterns := up; learnedCommands := lc; contextHistory := ch;
                     confirmationSystem := cf; now := nw; timers := ts; nextTimerId := nx;
                     localStorage := ls; log := lg |} =
                {| recognizerClass := cls;
                   commandQueue := map (fun c => {| qc_command := c; qc_originalText := text;
                                                    qc_timestamp := nw |}) (c' :: cs);
                   processingQueue := true; userPatterns := up; learnedCommands := lc;
                   contextHistory := ch; confirmationSystem := cf; now := nw;
                   timers := ts ++ [{| timerId := nx; due := (nw + 1000)%Z;
                                       action := QueueWaitOver |}];
                   nextTimerId := nx + 1; localStorage := ls;
                   log := lg ++ [(nw, OnCommand c text);
                                 (nw, OnCommand (utf16 "queue")
                                        (utf16 "連続コマンド：" ++
                                         join (utf16 " → ") (c :: c' :: cs)))] |}).
    { ustep queueCommands. ustep set_commandQueue. ustep processCommandQueue.
      ustep set_processingQueue. ustep drainQueue. ustep executeCommand. ustep emit.
      ustep set_log. ustep set_commandQueue. ustep setTimeout. ustep set_timers.
      ustep emit. ustep set_log. rewrite <- app_assoc. reflexivity. }
    rewrite E. cbn [log]. split; [reflexivity|].
    change (List.length (c' :: cs)) with (S (List.length cs)).
    rewrite (@runQueue_waiting P cls up lc ch cf ls text nw ts cs c' _ nx (nw + 1000)%Z nw Hts)
      by lia.
    cbn [log commandQueue processingQueue timers]. repeat split.
    f_equal. apply schedule_shift.
Qed.

End SequencerOrderFacts.

Lemma sequencer_dispatches_in_order_witness :
  let w := newWorld AdvancedVoiceRecognition false 0 in
  let text := utf16 "攻撃して防御して撤退" in
  let w1 := queueCommands [attack; defend; retreat] text w in
  let w2 := runQueue 2 w1 in
  log w1 = log w ++
           [(now w, OnCommand attack text);
            (now w, OnCommand (utf16 "queue")
                      (utf16 "連続コマンド：" ++ join (utf16 " → ") [attack; defend; retreat]))] /\
  log w2 = log w1 ++
           map (fun ic => ((now w + 1000 * Z.of_nat (fst ic))%Z, OnCommand (snd ic) text))
               (combine (seq 1 2) [defend; retreat]) /\
  commandQueue w2 = [] /\ processingQueue w2 = false /\ timers w2 = timers w.
Proof.
  apply (@sequencer_dispatches_in_order model_platform attack [defend; retreat]).
  - reflexivity.
  - reflexivity.
  - intros t [].
Defined.


(** ** The threshold of the confirmation system *)

Section ThresholdSettingFacts.
Context {P : Platform}.

Lemma Math_min_spec (x y : Q) :
  Math_min x y <= x /\ Math_min x y <= y /\ (Math_min x y = x \/ Math_min x y = y).
Proof.
  unfold Math_min. destruct (Qltb y x) eqn:E.
  - apply Qltb_lt in E. repeat split; [now apply Qlt_le_weak | apply Qle_refl | now right].
  - apply Qltb_ge in E. repeat split; [apply Qle_refl | assumption | now left].
Qed.

Lemma Math_max_spec (x y : Q) :
  x <= Math_max x y /\ y <= Math_max x y /\ (Math_max x y = x \/ Math_max x y = y).
Proof.
  unfold Math_max. destruct (Qltb x y) eqn:E.
  - apply Qltb_lt in E. repeat split; [now apply Qlt_le_weak | apply Qle_refl | now right].
  - apply Qltb_ge in E. repeat split; [apply Qle_refl | assumption | now left].
Qed.

(** [shouldConfirm] for any threshold: the confidence is compared with the
    threshold, raised to 0.8 for a critical command and otherwise to 0.75
    for a transcript of more than three tokens. *)
Lemma shouldConfirm_effective (c : ConfirmationSystem) (cmd : command) (text : jsstring)
    (confidence : Q) :
  shouldConfirm c cmd text confidence =
  Qltb confidence
    (if existsb (fun critical => includes (toLowerCase cmd) (toLowerCase critical))
                criticalCommands
     then Math_max (confidenceThreshold c) (8 # 10)
     else if (3 <? List.length (split 32%N text))%nat
          then Math_max (confidenceThreshold c) (75 # 100)
          else confidenceThreshold c).
Proof.
  unfold shouldConfirm.
  destruct (Qltb confidence (confidenceThreshold c)) eqn:E.
  - apply Qltb_lt in E. symmetry.
    destruct (existsb _ criticalCommands); [|destruct (3 <? _)%nat]; apply Qltb_lt;
      try assumption;
      (eapply Qlt_le_trans; [exact E | apply Math_max_spec]).
  - apply Qltb_ge in E.
    destruct (existsb _ criticalCommands).
    + unfold Math_max. destruct (Qltb (confidenceThreshold c) (8 # 10)) eqn:E8;
        [reflexivity|].
      apply Qltb_ge in E8.
      assert (H : Qltb confidence (8 # 10) = false)
        by (apply Qltb_ge; eapply Qle_trans; eassumption).
      rewrite H. symmetry. now apply Qltb_ge.
    + destruct (3 <? _)%nat; simpl.
      * unfold Math_max. destruct (Qltb (confidenceThreshold c) (75 # 100)) eqn:E7.
        -- now destruct (Qltb confidence (75 # 100)).
        -- apply Qltb_ge in E7.
           assert (H : Qltb confidence (75 # 100) = false)
             by (apply Qltb_ge; eapply Qle_trans; eassumption).
           rewrite H. symmetry. now apply Qltb_ge.
      * symmetry. now apply Qltb_ge.
Qed.

(** X4: whatever its threshold is set to, [shouldConfirm] compares the
    confidence with one effective threshold: the larger of the threshold
    and 0.8 for a command that contains ['撤退'] or ['retreat'], otherwise
    the larger of the threshold and 0.75 for a transcript of more than
    three space-separated tokens, otherwise the threshold; so a command
    that needs confirmation at some confidence needs it at every lower
    one. *)
Theorem confirmation_needed_below_one_threshold (c : ConfirmationSystem) (cmd : command)
    (text : jsstring) (confidence lower : Q) :
  let effective :=
    if existsb (fun critical => includes (toLowerCase cmd) (toLowerCase critical))
               criticalCommands
    then Math_max (confidenceThreshold c) (8 # 10)
    else if (3 <? List.length (split 32%N text))%nat
         then Math_max (confidenceThreshold c) (75 # 100)
         else confidenceThreshold c in
  shouldConfirm c cmd text confidence = Qltb confidence effective /\
  (lower <= confidence ->
   shouldConfirm c cmd text confidence = true ->
   shouldConfirm c cmd text lower = true).
Proof.
  intro effective. split; [apply shouldConfirm_effective|].
  intros Hle H. rewrite shouldConfirm_effective in *. fold effective in H |- *.
  apply Qltb_lt in H. apply Qltb_lt. eapply Qle_lt_trans; eassumption.
Qed.

(** X5: [setConfidenceThreshold] keeps the threshold between 0.1 and 0.9
    (a value in that range is taken as it is), and whatever value was
    asked for, a command heard with a confidence below 0.1 is always
    submitted to confirmation and one heard with a confidence of 0.9 or
    more never is. *)
Theorem threshold_setting_is_clamped (threshold : Q) (c : ConfirmationSystem)
    (cmd : command) (text : jsstring) (confidence : Q) :
  let c' := setConfidenceThreshold threshold c in
  (1 # 10 <= confidenceThreshold c' /\ confidenceThreshold c' <= 9 # 10) /\
  (1 # 10 <= threshold -> threshold <= 9 # 10 -> confidenceThreshold c' == threshold) /\
  (confidence < 1 # 10 -> shouldConfirm c' cmd text confidence = true) /\
  (9 # 10 <= confidence -> shouldConfirm c' cmd text confidence = false) /\
  pendingConfirmation c' = pendingConfirmation c /\
  confirmationTimeout c' = confirmationTimeout c.
Proof.
  intro c'.
  assert (Hlo : 1 # 10 <= confidenceThreshold c').
  { unfold c', setConfidenceThreshold. cbn [confidenceThreshold]. apply Math_max_spec. }
  assert (Hhi : confidenceThreshold c' <= 9 # 10).
  { unfold c', setConfidenceThreshold. cbn [confidenceThreshold].
    destruct (Math_max_spec (1 # 10) (Math_min (9 # 10) threshold)) as (_ & _ & [E|E]);
      rewrite E; [discriminate | apply Math_min_spec]. }
  split; [now split|]. split; [|split; [|split; [|split; reflexivity]]].
  - intros H1 H9. unfold c', setConfidenceThreshold. cbn [confidenceThreshold].
    unfold Math_max, Math_min.
    destruct (Qltb threshold (9 # 10)) eqn:E9.
    + destruct (Qltb (1 # 10) threshold) eqn:E1; [reflexivity|].
      apply Qltb_ge in E1. now apply Qle_antisym.
    + apply Qltb_ge in E9. simpl. now apply Qle_antisym.
  - intro H. rewrite shouldConfirm_effective. apply Qltb_lt.
    assert (Hth : confidence < confidenceThreshold c')
      by (eapply Qlt_le_trans; eassumption).
    destruct (existsb _ criticalCommands); [|destruct (3 <? _)%nat]; try assumption;
      (eapply Qlt_le_trans; [exact Hth | apply Math_max_spec]).
  - intro H. rewrite shouldConfirm_effective. apply Qltb_ge.
    destruct (existsb _ criticalCommands); [|destruct (3 <? _)%nat].
    + destruct (Math_max_spec (confidenceThreshold c') (8 # 10)) as (_ & _ & [E|E]);
        rewrite E; [eapply Qle_trans; eassumption|].
      eapply Qle_trans; [|exact H]. discriminate.
    + destruct (Math_max_spec (confidenceThreshold c') (75 # 100)) as (_ & _ & [E|E]);
        rewrite E; [eapply Qle_trans; eassumption|].
      eapply Qle_trans; [|exact H]. discriminate.
    + eapply Qle_trans; eassumption.
Qed.

End ThresholdSettingFacts.

Lemma confirmation_needed_below_one_threshold_witness :
  shouldConfirm newConfirmationSystem retreat (utf16 "撤退") (5 # 10) = true.
Proof.
  refine (proj2 (@confirmation_needed_below_one_threshold model_platform
                   newConfirmationSystem retreat (utf16 "撤退") (7 # 10) (5 # 10)) _ _).
  - discriminate.
  - vm_compute. reflexivity.
Defined.


(** ** Similarity and suggestions *)

Section SimilarityFacts.
Context {P : Platform}.

Lemma spliceFirst_length (char : jsstring) (chars2 r : list jsstring) :
  spliceFirst char chars2 = Some r -> List.length chars2 = S (List.length r).
Proof.
  revert r. induction chars2 as [|c l IH]; intro r; simpl; [discriminate|].
  destruct (eqb c char).
  - now intros [= <-].
  - destruct (spliceFirst char l) as [r'|]; [|discriminate].
    intros [= <-]. simpl. f_equal. now apply IH.
Qed.

Lemma countCommon_le (chars1 chars2 : list jsstring) :
  (countCommon chars1 chars2 <= List.length chars1)%nat /\
  (countCommon chars1 chars2 <= List.length chars2)%nat.
Proof.
  revert chars2. induction chars1 as [|c l IH]; intro chars2; simpl; [lia|].
  destruct (spliceFirst c chars2) as [r|] eqn:E.
  - apply spliceFirst_length in E. destruct (IH r). lia.
  - destruct (IH chars2). lia.
Qed.

(** The iterator yields no more elements than the string has code units. *)
Lemma stringIterator_length (s : jsstring) :
  (List.length (stringIterator s) <= List.length s)%nat.
Proof.
  assert (H : forall n s, (List.length s <= n)%nat ->
            (List.length (stringIterator s) <= List.length s)%nat).
  { induction n as [|n IH]; intros [|x [|y r]] Hn; cbn [List.length] in Hn; try lia;
      try (cbn; lia).
    assert (IH' : (List.length (stringIterator (y :: r)) <= S (List.length r))%nat)
      by (apply (IH (y :: r)); cbn [List.length]; lia).
    change (stringIterator (x :: y :: r)) with
      (if ((55296 <=? x) && (x <=? 56319) && (56320 <=? y) && (y <=? 57343))%N
       then match stringIterator (y :: r) with
            | [] => [[x; y]]
            | _ :: r' => [x; y] :: r'
            end
       else [x] :: stringIterator (y :: r)).
    destruct ((55296 <=? x) && (x <=? 56319) && (56320 <=? y) && (y <=? 57343))%N.
    - destruct (stringIterator (y :: r)); cbn [List.length] in *; lia.
    - cbn [List.length] in *. lia. }
  now apply (H (List.length s)).
Qed.

Lemma countCommonCharacters_le (str1 str2 : jsstring) :
  (countCommonCharacters str1 str2 <= List.length str1)%nat /\
  (countCommonCharacters str1 str2 <= List.length str2)%nat.
Proof.
  unfold countCommonCharacters.
  destruct (countCommon_le (stringIterator str1) (map (fun c => [c]) str2)) as [H1 H2].
  rewrite length_map in H2. pose proof (stringIterator_length str1). lia.
Qed.

Lemma similarity_value (str1 str2 : jsstring) :
  List.length str1 <> 0%nat \/ List.length str2 <> 0%nat ->
  exists k n : nat,
    (k <= Nat.min (List.length str1) (List.length str2))%nat /\
    n = Nat.max (List.length str1) (List.length str2) /\ (0 < n)%nat /\
    calculateSimilarity str1 str2 = (Z.of_nat k # Pos.of_nat n).
Proof.
  intro Hne. unfold calculateSimilarity.
  destruct (List.length str2 <? List.length str1)%nat eqn:E.
  - apply Nat.ltb_lt in E.
    destruct (List.length str1 =? 0)%nat eqn:E0; [apply Nat.eqb_eq in E0; lia|].
    exists (countCommonCharacters str1 str2), (List.length str1).
    destruct (countCommonCharacters_le str1 str2). repeat split; lia.
  - apply Nat.ltb_ge in E.
    destruct (List.length str2 =? 0)%nat eqn:E0; [apply Nat.eqb_eq in E0; lia|].
    apply Nat.eqb_neq in E0.
    exists (countCommonCharacters str2 str1), (List.length str2).
    destruct (countCommonCharacters_le str2 str1). repeat split; lia.
Qed.

Lemma Pos_of_nat_pos (n : nat) : (0 < n)%nat -> Z.pos (Pos.of_nat n) = Z.of_nat n.
Proof.
  intro H. destruct n as [|m]; [lia|].
  rewrite <- Pos.of_nat_succ. lia.
Qed.

(** A string without a surrogate pair is iterated unit by unit. *)
Lemma stringIterator_units (s : jsstring) :
  (forall x, In x s -> ((55296 <=? x) && (x <=? 56319))%N = false) ->
  stringIterator s = map (fun c => [c]) s.
Proof.
  induction s as [|x s IH]; intro H; [reflexivity|].
  assert (Hx : ((55296 <=? x) && (x <=? 56319))%N = false) by (apply H; now left).
  assert (IH' : stringIterator s = map (fun c => [c]) s)
    by (apply IH; intros y Hy; apply H; now right).
  destruct s as [|y r]; [reflexivity|].
  change (stringIterator (x :: y :: r)) with
    (if ((55296 <=? x) && (x <=? 56319) && (56320 <=? y) && (y <=? 57343))%N
     then match stringIterator (y :: r) with
          | [] => [[x; y]]
          | _ :: r' => [x; y] :: r'
          end
     else [x] :: stringIterator (y :: r)).
  rewrite Hx. cbn [andb]. now rewrite IH'.
Qed.

Lemma countCommon_same (l : list jsstring) : countCommon l l = List.length l.
Proof.
  induction l as [|c l IH]; simpl; [reflexivity|]. now rewrite eqb_refl, IH.
Qed.

(** X6: [calculateSimilarity] is a number between 0 and 1 (it is 1 for two
    empty strings); a non-empty string without surrogate pairs has
    similarity 1 with itself, whereas a character outside the Basic
    Multilingual Plane is never counted as common, so that such a
    character has similarity 0 with itself. *)
Theorem similarity_is_a_ratio (str1 str2 : jsstring) :
  (0 <= calculateSimilarity str1 str2 /\ calculateSimilarity str1 str2 <= 1) /\
  ((forall x, In x str1 -> ((55296 <=? x) && (x <=? 56319))%N = false) ->
   calculateSimilarity str1 str1 == 1) /\
  (forall high low : code_unit,
     ((55296 <=? high) && (high <=? 56319) && (56320 <=? low) && (low <=? 57343))%N = true ->
     calculateSimilarity [high; low] [high; low] == 0).
Proof.
  split; [|split].
  - destruct (Nat.eq_dec (List.length str1) 0) as [E1|E1];
      [destruct (Nat.eq_dec (List.length str2) 0) as [E2|E2]|].
    + destruct str1; [|discriminate E1]. destruct str2; [|discriminate E2].
      split; discriminate.
    + destruct (similarity_value str1 str2 (or_intror E2)) as (k & n & Hk & Hn & Hpos & ->).
      unfold Qle. cbn [Qnum Qden]. rewrite Pos_of_nat_pos by assumption. split; lia.
    + destruct (similarity_value str1 str2 (or_introl E1)) as (k & n & Hk & Hn & Hpos & ->).
      unfold Qle. cbn [Qnum Qden]. rewrite Pos_of_nat_pos by assumption. split; lia.
  - intro H. unfold calculateSimilarity. rewrite Nat.ltb_irrefl.
    destruct (List.length str1 =? 0)%nat eqn:E0; [reflexivity|].
    apply Nat.eqb_neq in E0.
    unfold countCommonCharacters. rewrite (stringIterator_units str1 H), countCommon_same.
    rewrite length_map. unfold Qeq. cbn [Qnum Qden]. rewrite Pos_of_nat_pos by lia. lia.
  - intros high low H. unfold calculateSimilarity, countCommonCharacters.
    cbn [List.length Nat.ltb Nat.leb Nat.eqb stringIterator map].
    rewrite H. cbn [stringIterator countCommon spliceFirst eqb].
    apply andb_true_iff in H as [H Hl2]. apply andb_true_iff in H as [H Hl1].
    apply andb_true_iff in H as [Hh1 Hh2].
    apply N.leb_le in Hh1, Hh2, Hl1, Hl2.
    cbn [eqb]. rewrite !andb_false_r.
    replace (low =? high)%N with false by (symmetry; apply N.eqb_neq; lia).
    cbn [andb]. reflexivity.
Qed.

End SimilarityFacts.


Lemma In_firstn (A : Type) (n : nat) (l : list A) (x : A) :
  In x (firstn n l) -> In x l.
Proof.
  revert l. induction n as [|n IH]; intros [|y l]; simpl; try tauto.
  intros [H|H]; [now left | right; now apply IH].
Qed.

Section SuggestionFacts.
Context {P : Platform}.

(** X7: an input that matched nothing leads to one notice, a suggestion or
    the help text, and to no other change of the recognizer; the
    suggestions are at most three of the four basic commands; and when the
    lowercase transcript has seven code units or more (the lowercase of a
    basic command having two), no command is similar enough and the notice
    is the help text. *)
Theorem unrecognized_input_is_answered_once (transcript : jsstring) (w : World) :
  (exists kind text,
     In kind [utf16 "suggestion"; utf16 "help"] /\
     handleUnrecognizedInput transcript w = emit (OnCommand kind text) w) /\
  (forall s, In s (findSimilarPatterns transcript) -> In s basicCommands) /\
  (List.length (findSimilarPatterns transcript) <= 3)%nat /\
  ((forall cmd, In cmd basicCommands -> (List.length (toLowerCase cmd) <= 2)%nat) ->
   (7 <= List.length (toLowerCase transcript))%nat ->
   handleUnrecognizedInput transcript w =
   emit (OnCommand (utf16 "help") (utf16 "利用可能なコマンド：攻撃、防御、撤退、状況")) w).
Proof.
  split; [|split; [|split]].
  - unfold handleUnrecognizedInput. destruct (findSimilarPatterns transcript).
    + eexists _, _. split; [|reflexivity]. right. now left.
    + eexists _, _. split; [|reflexivity]. now left.
  - intros s Hs. unfold findSimilarPatterns in Hs.
    apply In_firstn in Hs. now apply filter_In in Hs.
  - unfold findSimilarPatterns. apply firstn_le_length.
  - intros Hcmd Hlen.
    assert (E : findSimilarPatterns transcript = []).
    { unfold findSimilarPatterns.
      rewrite filter_none; [reflexivity|].
      intros cmd Hin. apply Qltb_ge.
      specialize (Hcmd cmd Hin).
      destruct (similarity_value (toLowerCase transcript) (toLowerCase cmd)
                  ltac:(left; lia)) as (k & n & Hk & Hn & Hpos & ->).
      unfold Qle. cbn [Qnum Qden]. rewrite Pos_of_nat_pos by assumption. lia. }
    unfold handleUnrecognizedInput. now rewrite E.
Qed.

End SuggestionFacts.

Lemma unrecognized_input_is_answered_once_witness :
  handleUnrecognizedInput (utf16 "えーとなんだっけ") (newWorld AdvancedVoiceRecognition false 0) =
  emit (OnCommand (utf16 "help") (utf16 "利用可能なコマンド：攻撃、防御、撤退、状況"))
       (newWorld AdvancedVoiceRecognition false 0).
Proof.
  refine (proj2 (proj2 (proj2 (@unrecognized_input_is_answered_once model_platform
            (utf16 "えーとなんだっけ") (newWorld AdvancedVoiceRecognition false 0)))) _ _).
  - intros cmd H. vm_compute in H.
    repeat (destruct H as [<-|H]; [vm_compute; lia|]). destruct H.
  - vm_compute. lia.
Defined.


(** ** The audio processor *)

Module RecorderFacts.
Import Recorder.

(** X8: [updateVADConfig] clamps each setting the configuration has (the
    threshold to 0.001..1, the silence timeout to 500..10000 ms, the
    minimal speech duration to 100..5000 ms), keeps a value that lies in
    its range, leaves the settings the configuration does not have and the
    rest of the processor as they were; so the threshold of the
    constructor, 0.0001, cannot be set again. *)
Theorem vad_settings_are_clamped (config : VADConfig) (e : Recorder) :
  let e' := updateVADConfig config e in
  match threshold config with
  | Some v => 1 # 1000 <= vadThreshold e' /\ vadThreshold e' <= 1 /\
              (1 # 1000 <= v -> v <= 1 -> vadThreshold e' == v) /\
              ~ vadThreshold e' == vadThreshold (created 0)
  | None => vadThreshold e' = vadThreshold e
  end /\
  match cfg_silenceTimeout config with
  | Some v => silenceTimeout e' = Z.max 500 (Z.min 10000 v) /\
              (500 <= silenceTimeout e' <= 10000)%Z
  | None => silenceTimeout e' = silenceTimeout e
  end /\
  match cfg_minSpeechDuration config with
  | Some v => minSpeechDuration e' = Z.max 100 (Z.min 5000 v) /\
              (100 <= minSpeechDuration e' <= 5000)%Z
  | None => minSpeechDuration e' = minSpeechDuration e
  end /\
  isRecording e' = isRecording e /\ isProcessing e' = isProcessing e /\
  audioBuffer e' = audioBuffer e /\ speechStartTime e' = speechStartTime e /\
  silenceTimer e' = silenceTimer e /\ timers e' = timers e /\
  callbacks e' = callbacks e /\ notices e' = notices e.
Proof.
  intro e'. unfold e', updateVADConfig.
  destruct config as [[v|] [s|] [m|]]; destruct e; cbn;
    repeat match goal with |- _ /\ _ => split end; try reflexivity; try lia.
  all: try (apply Math_max_spec).
  all: try (destruct (Math_max_spec (1 # 1000) (Math_min 1 v)) as (_ & _ & [E|E]);
            rewrite E; [discriminate | apply Math_min_spec]).
  all: try (intros H1 H2; unfold Math_max, Math_min;
            destruct (Qltb v 1) eqn:Ea;
            [ destruct (Qltb (1 # 1000) v) eqn:Eb; [reflexivity|];
              apply Qltb_ge in Eb; now apply Qle_antisym
            | apply Qltb_ge in Ea; simpl; now apply Qle_antisym ]).
  all: intro H; pose proof (proj1 (Math_max_spec (1 # 1000) (Math_min 1 v))) as H1;
       rewrite H in H1; now apply H1.
Qed.

End RecorderFacts.


Module VadFacts.
Import Recorder.

Ltac rstep :=
  cbn [audioContext isRecording isProcessing audioBuffer sampleRate vadThreshold
       silenceTimeout minSpeechDuration speechStartTime lastSpeechTime silenceTimer
       callbacks clock timers nextTimerId notices fst snd negb andb orb].

Lemma VadOk_notify (slot : Callbacks -> bool) (n : notice) (e : Recorder) :
  VadOk e -> VadOk (notify slot n e).
Proof. unfold notify. destruct (slot (callbacks e)); [|trivial]. destruct e; trivial. Qed.

Lemma notify_fields (slot : Callbacks -> bool) (n : notice) (e : Recorder) :
  let e' := notify slot n e in
  isRecording e' = isRecording e /\ isProcessing e' = isProcessing e /\
  audioBuffer e' = audioBuffer e /\ sampleRate e' = sampleRate e /\
  vadThreshold e' = vadThreshold e /\ silenceTimeout e' = silenceTimeout e /\
  minSpeechDuration e' = minSpeechDuration e /\
  speechStartTime e' = speechStartTime e /\ silenceTimer e' = silenceTimer e /\
  callbacks e' = callbacks e /\ clock e' = clock e /\ timers e' = timers e /\
  notices e' = notices e ++ (if slot (callbacks e) then [n] else []).
Proof.
  unfold notify. destruct (slot (callbacks e)); destruct e; cbn; rewrite ?app_nil_r;
    repeat split.
Qed.

Section WithSqrt.
Variable Math_sqrt : Q -> Q.

Lemma VadOk_handleSpeechEnd (e : Recorder) :
  (0 < clock e)%Z -> (forall start, speechStartTime e = Some start -> (0 < start <= clock e)%Z) ->
  (timers e = [] \/ exists id due, silenceTimer e = Some id /\ timers e = [(id, due)]) ->
  let e' := handleSpeechEnd e in
  (truthyTime (speechStartTime e) = true ->
   speechStartTime e' = None /\ isProcessing e' = false /\ audioBuffer e' = [] /\
   silenceTimer e' = None /\ timers e' = [] /\ clock e' = clock e /\
   isRecording e' = isRecording e /\ silenceTimeout e' = silenceTimeout e /\
   minSpeechDuration e' = minSpeechDuration e /\ callbacks e' = callbacks e /\
   notices e' = notices e ++
     (if (minSpeechDuration e <=? clock e - match speechStartTime e with
                                            | Some t => t | None => 0 end)%Z
         && onSpeechEnd (callbacks e)
      then [OnSpeechEnd (audioBuffer e)
              (clock e - match speechStartTime e with Some t => t | None => 0 end)%Z]
      else [])) /\
  (truthyTime (speechStartTime e) = false -> e' = e).
Proof.
  intros Hc Hs Ht e'. split.
  - intro Htr. unfold e', handleSpeechEnd. rewrite Htr. cbn [negb].
    set (d := (clock e - match speechStartTime e with Some t => t | None => 0 end)%Z).
    destruct (minSpeechDuration e <=? d)%Z.
    + destruct (notify_fields onSpeechEnd (OnSpeechEnd (audioBuffer e) d) e)
        as (F1 & F2 & F3 & F4 & F5 & F6 & F7 & F8 & F9 & F10 & F11 & F12 & F13).
      set (e1 := notify onSpeechEnd (OnSpeechEnd (audioBuffer e) d) e) in *.
      destruct e1 as [a1 a2 a3 a4 a5 a6 a7 a8 a9 a10 a11 a12 a13 a14 a15 a16].
      unfold set_audioBuffer, set_isProcessing, set_speechStartTime. rstep.
      cbn in F1, F2, F3, F4, F5, F6, F7, F8, F9, F10, F11, F12, F13. subst.
      destruct Ht as [Ht|(id & due & Ht1 & Ht2)].
      * rewrite Ht. destruct (silenceTimer e); cbn; repeat split; reflexivity.
      * rewrite Ht1, Ht2. cbn. rewrite N.eqb_refl. cbn. repeat split; reflexivity.
    + destruct e as [a1 a2 a3 a4 a5 a6 a7 a8 a9 a10 a11 a12 a13 a14 a15 a16].
      unfold set_audioBuffer, set_isProcessing, set_speechStartTime. rstep.
      cbn in Ht. rewrite app_nil_r.
      destruct Ht as [Ht|(id & due & Ht1 & Ht2)].
      * subst. destruct a11; cbn; repeat split; reflexivity.
      * subst. cbn. rewrite N.eqb_refl. cbn. repeat split; reflexivity.
  - intro Hf. unfold e', handleSpeechEnd. now rewrite Hf.
Qed.

Lemma truthyTime_pos (t : Z) : (0 < t)%Z -> truthyTime (Some t) = true.
Proof. intro H. unfold truthyTime. apply negb_true_iff, Z.eqb_neq. lia. Qed.

Lemma VadOk_start_truthy (e : Recorder) (start : Z) :
  VadOk e -> speechStartTime e = Some start -> truthyTime (speechStartTime e) = true.
Proof.
  intros (_ & _ & _ & _ & Hs & _) E. rewrite E. apply truthyTime_pos. now apply Hs.
Qed.

Lemma VadOk_timers (e : Recorder) :
  VadOk e -> timers e = [] \/ exists id due, silenceTimer e = Some id /\ timers e = [(id, due)].
Proof.
  intros (_ & _ & _ & _ & _ & Ht). destruct (silenceTimer e) as [id|].
  - destruct Ht as (start & due & _ & Ht & _). right. now exists id, due.
  - now left.
Qed.

Lemma VadOk_none (e : Recorder) : VadOk e -> silenceTimer e = None -> timers e = [].
Proof. intros (_ & _ & _ & _ & _ & Ht) E. now rewrite E in Ht. Qed.

Lemma VadOk_after_end (e : Recorder) :
  (0 < clock e)%Z ->
  (forall start, speechStartTime e = Some start -> (0 < start <= clock e)%Z) ->
  (timers e = [] \/ exists id due, silenceTimer e = Some id /\ timers e = [(id, due)]) ->
  truthyTime (speechStartTime e) = true ->
  VadOk (handleSpeechEnd e).
Proof.
  intros Hc Hs Ht E.
  destruct (VadOk_handleSpeechEnd e Hc Hs Ht) as [A _].
  destruct (A E) as (A1 & A2 & A3 & A4 & A5 & A6 & A7 & _).
  unfold VadOk. rewrite A1, A2, A3, A4, A5, A6. cbn. repeat split; try discriminate; lia.
Qed.

Lemma VadOk_handleSpeechEnd_ok (e : Recorder) : VadOk e -> VadOk (handleSpeechEnd e).
Proof.
  intro H. pose proof H as (Hc & Hp & Hr & Hf & Hs & Ht).
  destruct (truthyTime (speechStartTime e)) eqn:E.
  - apply VadOk_after_end; try assumption. now apply VadOk_timers.
  - destruct (VadOk_handleSpeechEnd e Hc Hs (VadOk_timers H)) as [_ B].
    now rewrite (B E).
Qed.

Ltac vad_solve :=
  intros;
  repeat match goal with
  | H : truthyTime (Some _) = _ |- _ => unfold truthyTime in H
  | H : negb (_ =? 0)%Z = false |- _ => apply negb_false_iff, Z.eqb_eq in H
  | H : negb (_ =? 0)%Z = true |- _ => apply negb_true_iff, Z.eqb_neq in H
  | H : Some _ = Some _ |- _ => injection H as H; try subst
  | Hs : forall s, ?x = Some s -> _, H : ?x = Some ?a |- _ => specialize (Hs a H)
  | Hs : forall s, Some ?a = Some s -> _ |- _ => specialize (Hs a eq_refl)
  | |- truthyTime (Some _) = true => apply truthyTime_pos
  | |- exists start due, Some ?s = Some start /\ [(?i, ?d)] = [(_, due)] /\ _ =>
      exists s, d; split; [reflexivity | split; [reflexivity|]]
  end;
  try discriminate; try congruence; try lia; auto.

Ltac vad_goal := unfold VadOk; cbn -[Z.max truthyTime]; repeat split; vad_solve.

Lemma VadOk_handleSpeechDetection (e : Recorder) :
  VadOk e -> isRecording e = true -> VadOk (handleSpeechDetection e).
Proof.
  intros (Hc & Hp & Hr & Hf & Hs & Ht) Hrec. unfold handleSpeechDetection.
  destruct e as [a1 a2 a3 a4 a5 a6 a7 a8 a9 a10 a11 a12 a13 a14 a15 a16].
  cbn in Hc, Hp, Hr, Hf, Hs, Ht, Hrec. subst a2.
  unfold set_lastSpeechTime. rstep.
  destruct a11 as [id|].
  - destruct Ht as (start & due & -> & -> & Hd).
    unfold clearTimeout, set_timers, set_silenceTimer. rstep. cbn [filter fst].
    rewrite N.eqb_refl. cbn [negb].
    rewrite truthyTime_pos by (now apply (Hs start)). cbn [negb].
    vad_goal.
  - subst a14. rstep.
    destruct (truthyTime a9) eqn:E; cbn [negb].
    + vad_goal.
    + destruct (Hf eq_refl) as (-> & -> & _).
      unfold set_speechStartTime, set_isProcessing, set_audioBuffer. rstep.
      apply VadOk_notify. vad_goal.
Qed.

Lemma VadOk_handleSilenceDetection (e : Recorder) :
  VadOk e -> VadOk (handleSilenceDetection e).
Proof.
  intro H. pose proof H as (Hc & Hp & Hr & Hf & Hs & Ht). unfold handleSilenceDetection.
  destruct (truthyTime (speechStartTime e)) eqn:E; cbn [negb]; [|exact H].
  destruct (silenceTimer e) as [id|] eqn:Es; [exact H|]. clear H.
  destruct e as [a1 a2 a3 a4 a5 a6 a7 a8 a9 a10 a11 a12 a13 a14 a15 a16].
  cbn in Hc, Hp, Hr, Hf, Hs, Ht, E, Es. subst a11 a14.
  unfold setTimeout, set_timers, set_silenceTimer. rstep. cbn [app].
  destruct a9 as [start|]; [|discriminate].
  vad_goal.
Qed.

Lemma VadOk_buffer (b : list Q) (e : Recorder) :
  VadOk e -> isProcessing e = true -> VadOk (set_audioBuffer b e).
Proof.
  intros (Hc & Hp & Hr & Hf & Hs & Ht) Hi.
  destruct e as [a1 a2 a3 a4 a5 a6 a7 a8 a9 a10 a11 a12 a13 a14 a15 a16].
  cbn in Hc, Hp, Hr, Hf, Hs, Ht, Hi. subst a3. specialize (Hp eq_refl).
  unfold VadOk. cbn -[truthyTime]. repeat split; vad_solve.
Qed.

Lemma VadOk_step (e : Recorder) (ev : event) : VadOk e -> VadOk (step Math_sqrt e ev).
Proof.
  intro H. destruct ev as [inputData rate tts|id|t| |]; cbn [step].
  - unfold processAudioData.
    destruct (isRecording e) eqn:Er; cbn [negb]; [|assumption].
    destruct tts; [assumption|].
    set (e1 := notify onVolumeLevel _ e).
    assert (H1 : VadOk e1) by now apply VadOk_notify.
    assert (R1 : isRecording e1 = true).
    { unfold e1, notify. destruct (onVolumeLevel (callbacks e)); [|exact Er].
      destruct e; exact Er. }
    set (e2 := if Qltb (vadThreshold e1) _ then handleSpeechDetection e1
               else handleSilenceDetection e1).
    assert (H2 : VadOk e2).
    { unfold e2. destruct (Qltb (vadThreshold e1) _);
        [now apply VadOk_handleSpeechDetection | now apply VadOk_handleSilenceDetection]. }
    clearbody e2. cbv zeta.
    destruct (isProcessing e2) eqn:Ep.
    + change (isProcessing (set_audioBuffer ?b e2)) with (isProcessing e2).
      rewrite Ep. apply VadOk_notify. now apply VadOk_buffer.
    + rewrite Ep. assumption.
  - unfold fire. destruct (find _ (timers e)) as [t|] eqn:Ef; [|assumption].
    pose proof H as (Hc & Hp & Hr & Hf & Hs & Ht).
    destruct e as [a1 a2 a3 a4 a5 a6 a7 a8 a9 a10 a11 a12 a13 a14 a15 a16].
    cbn in Hc, Hp, Hr, Hf, Hs, Ht, Ef.
    unfold clearTimeout, set_timers, set_clock. rstep.
    destruct a11 as [id0|].
    + destruct Ht as (start & due & -> & -> & Hd). cbn in Ef.
      destruct (id0 =? id)%N eqn:Eid; [|discriminate]. injection Ef as <-.
      cbn [filter fst]. rewrite Eid. cbn [negb snd].
      specialize (Hs start eq_refl).
      apply VadOk_after_end; rstep.
      * lia.
      * intros s [= <-]. lia.
      * now left.
      * apply truthyTime_pos. lia.
    + subst a14. discriminate Ef.
  - destruct H as (Hc & Hp & Hr & Hf & Hs & Ht).
    destruct e as [a1 a2 a3 a4 a5 a6 a7 a8 a9 a10 a11 a12 a13 a14 a15 a16].
    cbn in Hc, Hp, Hr, Hf, Hs, Ht. unfold set_clock. vad_goal.
    all: now destruct (Hf H) as (? & ? & ?).
  - unfold startRecording. destruct (isRecording e) eqn:Er; [assumption|].
    destruct (audioContext e); cbn [negb snd]; [|now apply VadOk_notify].
    destruct H as (Hc & Hp & Hr & Hf & Hs & Ht).
    destruct e as [a1 a2 a3 a4 a5 a6 a7 a8 a9 a10 a11 a12 a13 a14 a15 a16].
    cbn in Hc, Hp, Hr, Hf, Hs, Ht, Er. subst a2. rewrite (Hr eq_refl) in *.
    unfold set_isRecording. vad_goal.
    all: now destruct (Hf H) as (? & ? & ?).
  - unfold stopRecording. destruct (isRecording e) eqn:Er; cbn [negb]; [|assumption].
    pose proof (VadOk_timers H) as Htm.
    destruct H as (Hc & Hp & Hr & Hf & Hs & Ht).
    destruct e as [a1 a2 a3 a4 a5 a6 a7 a8 a9 a10 a11 a12 a13 a14 a15 a16].
    cbn in Hc, Hp, Hr, Hf, Hs, Ht, Er, Htm. subst a2.
    unfold set_isRecording, set_isProcessing. rstep.
    destruct (truthyTime a9) eqn:E.
    + apply VadOk_after_end; rstep; assumption.
    + destruct (Hf eq_refl) as (-> & -> & ->). vad_goal.
Qed.

Lemma VadOk_run (evs : list event) (e : Recorder) :
  VadOk e -> VadOk (fold_left (step Math_sqrt) evs e).
Proof.
  revert e. induction evs as [|ev evs IH]; intros e H; [exact H|].
  cbn [fold_left]. apply IH. now apply VadOk_step.
Qed.

Lemma VadOk_configured (cfg : VADConfig) (u : CallbackUpdate) (t0 : Z) :
  (0 < t0)%Z -> VadOk (setCallbacks u (updateVADConfig cfg (created t0))).
Proof.
  intro H. unfold setCallbacks, updateVADConfig, created.
  destruct (threshold cfg), (cfg_silenceTimeout cfg), (cfg_minSpeechDuration cfg);
    unfold VadOk; cbn; repeat split; try discriminate; try exact H.
Qed.

(** The silence timer of a processor in a good state fires. *)
Lemma fire_silenceTimer (e : Recorder) (id : N) :
  VadOk e -> silenceTimer e = Some id ->
  exists start due,
    speechStartTime e = Some start /\ timers e = [(id, due)] /\
    (0 < start <= clock e)%Z /\ (start + silenceTimeout e <= due)%Z /\
    let r := fire id e in
    let d := (Z.max (clock e) due - start)%Z in
    speechStartTime r = None /\ isProcessing r = false /\ audioBuffer r = [] /\
    silenceTimer r = None /\ timers r = [] /\
    notices r = notices e ++
      (if (minSpeechDuration e <=? d)%Z && onSpeechEnd (callbacks e)
       then [OnSpeechEnd (audioBuffer e) d] else []).
Proof.
  intros (Hc & Hp & Hr & Hf & Hs & Ht) Hid. rewrite Hid in Ht.
  destruct Ht as (start & due & E1 & E2 & Hd).
  exists start, due. pose proof (Hs start E1) as Hst.
  repeat (split; [assumption|]).
  unfold fire. rewrite E2. cbn [find fst]. rewrite N.eqb_refl.
  set (e1 := set_clock _ _).
  assert (F : speechStartTime e1 = Some start /\ clock e1 = Z.max (clock e) due /\
              timers e1 = [] /\ minSpeechDuration e1 = minSpeechDuration e /\
              callbacks e1 = callbacks e /\ audioBuffer e1 = audioBuffer e /\
              notices e1 = notices e).
  { unfold e1, set_clock, clearTimeout, set_timers. rstep. rewrite E2.
    cbn [filter fst snd]. rewrite N.eqb_refl. cbn [negb snd]. now repeat split. }
  destruct F as (F1 & F2 & F3 & F4 & F5 & F6 & F7).
  assert (A1 : (0 < clock e1)%Z) by (rewrite F2; lia).
  assert (A2 : forall s, speechStartTime e1 = Some s -> (0 < s <= clock e1)%Z).
  { intros s Es. rewrite F1 in Es. injection Es as <-. rewrite F2. lia. }
  destruct (VadOk_handleSpeechEnd e1 A1 A2 (or_introl F3)) as [A _].
  assert (Etr : truthyTime (speechStartTime e1) = true).
  { rewrite F1. apply truthyTime_pos. lia. }
  destruct (A Etr) as (B1 & B2 & B3 & B4 & B5 & _ & _ & _ & _ & _ & B11).
  clearbody e1. rewrite F1, F2, F4, F5, F6, F7 in B11.
  now repeat split.
Qed.

(** X9: a processor that was constructed, configured and given callbacks, and
    then sees any frames, timer firings, clock advances, starts and stops,
    never holds more than one timer; it has a timer only while it holds the
    silence timer of an utterance in progress; outside an utterance the
    buffer is empty and nothing is being processed; and an utterance is in
    progress only while recording. *)
Theorem recorder_keeps_one_silence_timer
    (cfg : VADConfig) (u : CallbackUpdate) (t0 : Z) (evs : list event) :
  (0 < t0)%Z ->
  let r := fold_left (step Math_sqrt) evs
             (setCallbacks u (updateVADConfig cfg (created t0))) in
  (List.length (timers r) <= 1)%nat /\
  (silenceTimer r = None -> timers r = []) /\
  (forall id, silenceTimer r = Some id ->
     exists due, timers r = [(id, due)] /\ speechStartTime r <> None) /\
  (speechStartTime r = None ->
     audioBuffer r = [] /\ isProcessing r = false /\ silenceTimer r = None) /\
  (isRecording r = false -> speechStartTime r = None).
Proof.
  intros H0 r.
  assert (H : VadOk r) by (apply VadOk_run, VadOk_configured, H0).
  clearbody r. destruct H as (Hc & Hp & Hr & Hf & Hs & Ht).
  repeat split.
  - destruct (silenceTimer r).
    + destruct Ht as (s & d & _ & -> & _). cbn. lia.
    + rewrite Ht. cbn. lia.
  - intro E. now rewrite E in Ht.
  - intros id E. rewrite E in Ht. destruct Ht as (s & d & E1 & E2 & _).
    exists d. split; [exact E2|]. now rewrite E1.
  - apply Hf. now rewrite H.
  - destruct (isProcessing r); [|reflexivity].
    specialize (Hp eq_refl). rewrite H in Hp. discriminate.
  - apply Hf. now rewrite H.
  - exact Hr.
Qed.

(** X10: when the silence timer of such a processor fires, the utterance is
    over: its duration is at least the silence timeout, so with a minimum
    speech duration that is not longer than the silence timeout the
    utterance is never dropped as too short; the buffered samples go to the
    speech-end callback, and the processor is idle again with no timer. *)
Theorem silence_delivers_the_utterance
    (cfg : VADConfig) (u : CallbackUpdate) (t0 : Z) (evs : list event) (id : N) :
  (0 < t0)%Z ->
  let r := fold_left (step Math_sqrt) evs
             (setCallbacks u (updateVADConfig cfg (created t0))) in
  silenceTimer r = Some id ->
  (minSpeechDuration r <= silenceTimeout r)%Z ->
  let r' := fire id r in
  exists d,
    (silenceTimeout r <= d)%Z /\
    notices r' = notices r ++
      (if onSpeechEnd (callbacks r) then [OnSpeechEnd (audioBuffer r) d] else []) /\
    speechStartTime r' = None /\ isProcessing r' = false /\ audioBuffer r' = [] /\
    silenceTimer r' = None /\ timers r' = [].
Proof.
  intros H0 r Hid Hmin r'.
  assert (H : VadOk r) by (apply VadOk_run, VadOk_configured, H0).
  destruct (fire_silenceTimer H Hid)
    as (start & due & E1 & E2 & Hst & Hd & B1 & B2 & B3 & B4 & B5 & B6).
  exists (Z.max (clock r) due - start)%Z. fold r' in B1, B2, B3, B4, B5, B6.
  split; [lia|].
  replace (minSpeechDuration r <=? Z.max (clock r) due - start)%Z with true in B6
    by (symmetry; apply Z.leb_le; lia).
  cbn [andb] in B6. now repeat split.
Qed.

Lemma stopRecording_spec (r : Recorder) :
  VadOk r -> isRecording r = true ->
  let r' := stopRecording r in
  isRecording r' = false /\ isProcessing r' = false /\ speechStartTime r' = None /\
  audioBuffer r' = [] /\ silenceTimer r' = None /\ timers r' = [] /\
  notices r' = notices r ++
    match speechStartTime r with
    | Some start =>
        if (minSpeechDuration r <=? clock r - start)%Z && onSpeechEnd (callbacks r)
        then [OnSpeechEnd (audioBuffer r) (clock r - start)%Z] else []
    | None => []
    end.
Proof.
  intros H Hrec r'.
  pose proof (VadOk_timers H) as Htm.
  unfold r', stopRecording. rewrite Hrec. cbn [negb].
  clear r'.
  destruct H as (Hc & Hp & Hr & Hf & Hs & Ht).
  destruct r as [a1 a2 a3 a4 a5 a6 a7 a8 a9 a10 a11 a12 a13 a14 a15 a16].
  cbn in Hc, Hp, Hr, Hf, Hs, Ht, Hrec, Htm. subst a2.
  unfold set_isRecording, set_isProcessing. rstep.
  destruct (truthyTime a9) eqn:E.
  - match goal with |- context [handleSpeechEnd ?x] => set (e1 := x) end.
    destruct (VadOk_handleSpeechEnd e1 Hc Hs Htm) as [A _].
    destruct (A E) as (B1 & B2 & B3 & B4 & B5 & _ & B7 & _ & _ & _ & B11).
    cbn in B7, B11. rewrite B1, B2, B3, B4, B5, B7, B11.
    repeat split. destruct a9 as [start|]; [reflexivity|discriminate E].
  - destruct (Hf eq_refl) as (-> & -> & ->). subst a14. cbn. rewrite app_nil_r.
    now repeat split.
Qed.

(** X11: stopping such a processor while it records ends the utterance in
    progress: the buffered samples go to the speech-end callback when the
    utterance has lasted the minimum speech duration and are dropped
    otherwise; in both cases the processor is left idle, with an empty
    buffer and no timer, so no speech end can follow the stop. *)
Theorem stopRecording_ends_the_utterance
    (cfg : VADConfig) (u : CallbackUpdate) (t0 : Z) (evs : list event) :
  (0 < t0)%Z ->
  let r := fold_left (step Math_sqrt) evs
             (setCallbacks u (updateVADConfig cfg (created t0))) in
  isRecording r = true ->
  let r' := stopRecording r in
  isRecording r' = false /\ isProcessing r' = false /\ speechStartTime r' = None /\
  audioBuffer r' = [] /\ silenceTimer r' = None /\ timers r' = [] /\
  notices r' = notices r ++
    match speechStartTime r with
    | Some start =>
        if (minSpeechDuration r <=? clock r - start)%Z && onSpeechEnd (callbacks r)
        then [OnSpeechEnd (audioBuffer r) (clock r - start)%Z] else []
    | None => []
    end.
Proof.
  intros H0 r Hrec.
  apply stopRecording_spec; [|exact Hrec].
  apply VadOk_run, VadOk_configured, H0.
Qed.

End WithSqrt.

Lemma recorder_keeps_one_silence_timer_witness :
  let r := fold_left (step (fun x => x))
             [StartRecording; Frame [1] 16000 false; ClockReaches 300;
              Frame [0] 16000 false]
             (setCallbacks {| new_onSpeechStart := None; new_onSpeechEnd := Some true;
                              new_onAudioData := None; new_onVolumeLevel := None;
                              new_onError := None |}
                (updateVADConfig {| threshold := None; cfg_silenceTimeout := None;
                                    cfg_minSpeechDuration := None |} (created 1))) in
  (List.length (timers r) <= 1)%nat /\
  (silenceTimer r = None -> timers r = []) /\
  (forall id, silenceTimer r = Some id ->
     exists due, timers r = [(id, due)] /\ speechStartTime r <> None) /\
  (speechStartTime r = None ->
     audioBuffer r = [] /\ isProcessing r = false /\ silenceTimer r = None) /\
  (isRecording r = false -> speechStartTime r = None).
Proof.
  apply (@recorder_keeps_one_silence_timer (fun x => x)). reflexivity.
Defined.

Lemma silence_delivers_the_utterance_witness :
  let r := fold_left (step (fun x => x))
             [StartRecording; Frame [1] 16000 false; ClockReaches 300;
              Frame [0] 16000 false]
             (setCallbacks {| new_onSpeechStart := None; new_onSpeechEnd := Some true;
                              new_onAudioData := None; new_onVolumeLevel := None;
                              new_onError := None |}
                (updateVADConfig {| threshold := None; cfg_silenceTimeout := None;
                                    cfg_minSpeechDuration := None |} (created 1))) in
  let r' := fire 1 r in
  exists d,
    (silenceTimeout r <= d)%Z /\
    notices r' = notices r ++
      (if onSpeechEnd (callbacks r) then [OnSpeechEnd (audioBuffer r) d] else []) /\
    speechStartTime r' = None /\ isProcessing r' = false /\ audioBuffer r' = [] /\
    silenceTimer r' = None /\ timers r' = [].
Proof.
  apply (@silence_delivers_the_utterance (fun x => x)).
  - reflexivity.
  - reflexivity.
  - vm_compute. discriminate.
Defined.

Lemma stopRecording_ends_the_utterance_witness :
  let r := fold_left (step (fun x => x))
             [StartRecording; Frame [1] 16000 false; ClockReaches 300;
              Frame [0] 16000 false]
             (setCallbacks {| new_onSpeechStart := None; new_onSpeechEnd := Some true;
                              new_onAudioData := None; new_onVolumeLevel := None;
                              new_onError := None |}
                (updateVADConfig {| threshold := None; cfg_silenceTimeout := None;
                                    cfg_minSpeechDuration := None |} (created 1))) in
  let r' := stopRecording r in
  isRecording r' = false /\ isProcessing r' = false /\ speechStartTime r' = None /\
  audioBuffer r' = [] /\ silenceTimer r' = None /\ timers r' = [] /\
  notices r' = notices r ++
    match speechStartTime r with
    | Some start =>
        if (minSpeechDuration r <=? clock r - start)%Z && onSpeechEnd (callbacks r)
        then [OnSpeechEnd (audioBuffer r) (clock r - start)%Z] else []
    | None => []
    end.
Proof.
  apply (@stopRecording_ends_the_utterance (fun x => x)).
  - reflexivity.
  - reflexivity.
Defined.

End VadFacts.

Module ListenerFacts.
Import Recorder Listener VadFacts.

Lemma Calm_refl (r : Recorder) : Calm r r.
Proof. unfold Calm. repeat split. exists []. now rewrite app_nil_r. Qed.

Lemma Calm_trans (r1 r2 r3 : Recorder) : Calm r1 r2 -> Calm r2 r3 -> Calm r1 r3.
Proof.
  intros (A1 & A2 & A3 & A4 & ns & A5 & A6) (B1 & B2 & B3 & B4 & ms & B5 & B6).
  unfold Calm. rewrite B1, B2, B3, B4, B5, A5. repeat split; try assumption.
  exists (ns ++ ms). rewrite app_assoc. split; [reflexivity|].
  rewrite forallb_app, A6, B6. reflexivity.
Qed.

Lemma Calm_notify (slot : Callbacks -> bool) (n : notice) (r : Recorder) :
  quiet n = true -> Calm r (notify slot n r).
Proof.
  intro Hq. unfold notify. destruct (slot (callbacks r)); [|apply Calm_refl].
  destruct r. unfold Calm, set_notices. rstep. repeat split.
  exists [n]. split; [reflexivity|]. cbn. now rewrite Hq.
Qed.

Ltac calm_setter :=
  match goal with
  | |- Calm ?r _ => destruct r; unfold Calm; cbn; repeat split; exists [];
                    now rewrite app_nil_r
  end.

Lemma Calm_set_audioBuffer b r : Calm r (set_audioBuffer b r).
Proof. calm_setter. Qed.
Lemma Calm_set_isProcessing b r : Calm r (Recorder.set_isProcessing b r).
Proof. calm_setter. Qed.
Lemma Calm_set_speechStartTime b r : Calm r (set_speechStartTime b r).
Proof. calm_setter. Qed.
Lemma Calm_set_lastSpeechTime b r : Calm r (set_lastSpeechTime b r).
Proof. calm_setter. Qed.
Lemma Calm_set_silenceTimer b r : Calm r (set_silenceTimer b r).
Proof. calm_setter. Qed.
Lemma Calm_set_timers ts n r : Calm r (set_timers ts n r).
Proof. calm_setter. Qed.

Lemma Calm_clearSilence (r : Recorder) :
  Calm r match silenceTimer r with
         | Some id => set_silenceTimer None (clearTimeout id r)
         | None => r
         end.
Proof.
  destruct (silenceTimer r); [|apply Calm_refl].
  eapply Calm_trans; [apply Calm_set_timers | apply Calm_set_silenceTimer].
Qed.

Lemma Calm_handleSpeechDetection (r : Recorder) : Calm r (handleSpeechDetection r).
Proof.
  unfold handleSpeechDetection. cbv zeta.
  set (r1 := set_lastSpeechTime _ r).
  assert (H1 : Calm r r1) by apply Calm_set_lastSpeechTime.
  set (r2 := match silenceTimer r1 with Some id => _ | None => r1 end).
  assert (H2 : Calm r r2) by (eapply Calm_trans; [exact H1 | apply Calm_clearSilence]).
  clearbody r2. destruct (truthyTime (speechStartTime r2)); cbn [negb]; [exact H2|].
  eapply Calm_trans; [exact H2|].
  eapply Calm_trans; [apply Calm_set_speechStartTime|].
  eapply Calm_trans; [apply Calm_set_isProcessing|].
  eapply Calm_trans; [apply Calm_set_audioBuffer|].
  now apply Calm_notify.
Qed.

Lemma Calm_handleSilenceDetection (r : Recorder) : Calm r (handleSilenceDetection r).
Proof.
  unfold handleSilenceDetection.
  destruct (truthyTime (speechStartTime r)); cbn [negb]; [|apply Calm_refl].
  destruct (silenceTimer r); [apply Calm_refl|].
  unfold Recorder.setTimeout.
  eapply Calm_trans; [apply Calm_set_timers | apply Calm_set_silenceTimer].
Qed.

Section WithSqrt.
Variable Math_sqrt : Q -> Q.

Lemma Calm_processAudioData inputData inputSampleRate ttsActive (r : Recorder) :
  Calm r (Recorder.processAudioData Math_sqrt inputData inputSampleRate ttsActive r).
Proof.
  unfold Recorder.processAudioData.
  destruct (isRecording r); cbn [negb]; [|apply Calm_refl].
  destruct ttsActive; [apply Calm_refl|]. cbv zeta.
  set (r1 := notify onVolumeLevel _ r).
  assert (H1 : Calm r r1) by now apply Calm_notify.
  set (r2 := if Qltb (vadThreshold r1) _ then handleSpeechDetection r1
             else handleSilenceDetection r1).
  assert (H2 : Calm r r2).
  { eapply Calm_trans; [exact H1|]. unfold r2.
    destruct (Qltb (vadThreshold r1) _);
      [apply Calm_handleSpeechDetection | apply Calm_handleSilenceDetection]. }
  clearbody r2.
  set (r3 := if Recorder.isProcessing r2 then _ else r2).
  assert (H3 : Calm r r3).
  { eapply Calm_trans; [exact H2|]. unfold r3.
    destruct (Recorder.isProcessing r2); [apply Calm_set_audioBuffer | apply Calm_refl]. }
  clearbody r3.
  destruct (Recorder.isProcessing r3); [|exact H3].
  eapply Calm_trans; [exact H3|]. now apply Calm_notify.
Qed.

End WithSqrt.

(** The fields [handleSpeechEnd] never writes. *)
Lemma handleSpeechEnd_steady (r : Recorder) :
  callbacks (handleSpeechEnd r) = callbacks r /\
  audioContext (handleSpeechEnd r) = audioContext r /\
  isRecording (handleSpeechEnd r) = isRecording r /\
  Recorder.clock (handleSpeechEnd r) = Recorder.clock r.
Proof.
  unfold handleSpeechEnd.
  destruct r as [a1 a2 a3 a4 a5 a6 a7 a8 a9 a10 a11 a12 a13 a14 a15 a16]. rstep.
  destruct (truthyTime a9); cbn [negb]; [|now repeat split].
  cbv zeta. destruct (a8 <=? _)%Z.
  - unfold notify. rstep. destruct (onSpeechEnd a12); cbn; destruct a11; cbn;
      now repeat split.
  - cbn. destruct a11; cbn; now repeat split.
Qed.

Lemma stopRecording_steady (r : Recorder) :
  callbacks (stopRecording r) = callbacks r /\
  audioContext (stopRecording r) = audioContext r /\
  Recorder.clock (stopRecording r) = Recorder.clock r.
Proof.
  unfold stopRecording. destruct (isRecording r); cbn [negb]; [|now repeat split].
  cbv zeta.
  set (r1 := Recorder.set_isProcessing false (set_isRecording false r)).
  assert (H : callbacks r1 = callbacks r /\ audioContext r1 = audioContext r /\
              Recorder.clock r1 = Recorder.clock r) by (destruct r; now repeat split).
  clearbody r1. destruct H as (H1 & H2 & H3).
  destruct (truthyTime (speechStartTime r1)); [|now repeat split].
  destruct (handleSpeechEnd_steady r1) as (S1 & S2 & _ & S4).
  rewrite S1, S2, S4. now repeat split.
Qed.

Lemma fire_steady (id : N) (r : Recorder) :
  callbacks (fire id r) = callbacks r /\
  audioContext (fire id r) = audioContext r /\
  isRecording (fire id r) = isRecording r.
Proof.
  unfold fire. destruct (find _ (timers r)) as [t|]; [|now repeat split].
  set (r1 := set_clock _ _).
  assert (H : callbacks r1 = callbacks r /\ audioContext r1 = audioContext r /\
              isRecording r1 = isRecording r) by (destruct r; now repeat split).
  clearbody r1. destruct H as (H1 & H2 & H3).
  destruct (handleSpeechEnd_steady r1) as (S1 & S2 & S3 & _).
  rewrite S1, S2, S3. now repeat split.
Qed.

(** The engine's side. *)
Lemma atTime_same (e : Whisper.Engine (list Q)) :
  atTime (Whisper.clock e) e = e.
Proof. now destruct e. Qed.

Lemma delivered_app (r r' : Recorder) (ns : list notice) (e : Whisper.Engine (list Q)) :
  notices r' = notices r ++ ns ->
  delivered r r' e = fold_left deliver ns (atTime (Recorder.clock r') e).
Proof.
  intro H. unfold delivered. rewrite H, skipn_app, skipn_all, Nat.sub_diag.
  reflexivity.
Qed.

Lemma deliver_quiet (ns : list notice) (e : Whisper.Engine (list Q)) :
  forallb quiet ns = true -> fold_left deliver ns e = e.
Proof.
  revert e. induction ns as [|n ns IH]; intros e H; [reflexivity|].
  cbn in H. apply andb_true_iff in H as [Hn Hns].
  cbn [fold_left]. destruct n; try discriminate; now apply IH.
Qed.

Lemma delivered_Calm (r r' : Recorder) (e : Whisper.Engine (list Q)) :
  Calm r r' -> delivered r r' e = atTime (Recorder.clock r) e.
Proof.
  intros (_ & Hc & _ & _ & ns & Hn & Hq).
  rewrite (@delivered_app r r' ns e Hn), Hc. now apply deliver_quiet.
Qed.

Lemma deliver_deaf (ns : list notice) (e : Whisper.Engine (list Q)) :
  Whisper.isListening e = false -> fold_left deliver ns e = e.
Proof.
  intro H. induction ns as [|n ns IH]; [reflexivity|].
  cbn [fold_left]. destruct n; try exact IH.
  cbn [deliver]. unfold Whisper.processAudioData. rewrite H. exact IH.
Qed.

Lemma loopTurn_flags (e : Whisper.Engine (list Q)) :
  Whisper.isListening (Whisper.loopTurn e) = Whisper.isListening e /\
  Whisper.clock (Whisper.loopTurn e) = Whisper.clock e.
Proof.
  unfold Whisper.loopTurn. destruct e as [l p q c t f tc n]. cbn.
  destruct q as [|a q]; cbn; [now split|]. destruct c; cbn; now split.
Qed.

Lemma processAudioData_flags a d (e : Whisper.Engine (list Q)) :
  Whisper.isListening (Whisper.processAudioData a d e) = Whisper.isListening e /\
  Whisper.clock (Whisper.processAudioData a d e) = Whisper.clock e.
Proof.
  unfold Whisper.processAudioData.
  destruct (negb (Whisper.isListening e) || Whisper.isProcessing e); [now split|].
  unfold Whisper.processQueuedAudio.
  match goal with |- context [if ?b then _ else _] => destruct b end.
  - destruct e; now split.
  - match goal with |- context [Whisper.loopTurn ?x] =>
      destruct (loopTurn_flags x) as [-> ->] end.
    destruct e; now split.
Qed.

Lemma transcribeSettles_flags r (e : Whisper.Engine (list Q)) :
  Whisper.isListening (Whisper.transcribeSettles r e) = Whisper.isListening e /\
  Whisper.clock (Whisper.transcribeSettles r e) = Whisper.clock e.
Proof.
  unfold Whisper.transcribeSettles. destruct (Whisper.inFlight e); [now split|].
  match goal with |- context [Whisper.loopTurn ?x] =>
    destruct (loopTurn_flags x) as [-> ->] end.
  destruct e; now split.
Qed.

Section WithSqrt.
Variable Math_sqrt : Q -> Q.

Lemma Ok_initialized (vadConfig : VADConfig) (t0 : Z) :
  (0 < t0)%Z -> Ok (updateConfig vadConfig (initialized t0)).
Proof.
  intro H. unfold Ok, updateConfig, initialized, updateVADConfig, setCallbacks, created.
  cbn [engine audioProcessor].
  destruct (threshold vadConfig), (cfg_silenceTimeout vadConfig),
    (cfg_minSpeechDuration vadConfig);
    unfold VadOk; cbn; repeat split; try discriminate; try exact H.
Qed.

Lemma Ok_step (l : Listener) (ev : Listener.event) :
  Ok l -> Ok (Listener.step Math_sqrt l ev).
Proof.
  intros (Hv & Hrl & Hck & Hcb & Hac & Hq & Hctx & Hfl).
  destruct l as [e r]. cbn [engine audioProcessor] in *.
  assert (Wi : Whisper.processingQueue e = [] /\ Whisper.whisperContext e = true /\
               (if Whisper.isProcessing e then exists a, Whisper.inFlight e = [a]
                else Whisper.inFlight e = [])) by now repeat split.
  destruct ev as [| |inputData rate tts|id|t|res];
    cbn [Listener.step engine audioProcessor]; cbv zeta.
  - (* Start *)
    unfold Listener.start. cbn [engine audioProcessor].
    destruct (Whisper.isListening e) eqn:El;
      [unfold Ok; cbn [snd engine audioProcessor]; split; [exact Hv|]; repeat split; first [assumption | congruence]|].
    pose proof (@VadOk_step Math_sqrt r StartRecording Hv) as Hv'. cbn [Recorder.step] in Hv'.
    unfold startRecording in *. rewrite Hrl, Hac in *. cbn [negb snd] in *.
    rewrite (@delivered_app r (set_isRecording true r) [] e)
      by (destruct r; cbn; now rewrite app_nil_r).
    cbn [fold_left snd engine audioProcessor].
    replace (Recorder.clock (set_isRecording true r)) with (Whisper.clock e)
      by (rewrite Hck; now destruct r).
    rewrite atTime_same. unfold Ok. cbn [engine audioProcessor].
    split; [exact Hv'|]. destruct r, e; cbn in *. now repeat split.
  - (* Stop *)
    unfold Listener.stop. cbn [engine audioProcessor].
    destruct (Whisper.isListening e) eqn:El; cbn [negb];
      [|unfold Ok; cbn [engine audioProcessor]; split; [exact Hv|]; repeat split; first [assumption | congruence]].
    pose proof (@VadOk_step Math_sqrt r StopRecording Hv) as Hv'. cbn [Recorder.step] in Hv'.
    destruct (stopRecording_spec Hv Hrl) as (S1 & _ & _ & _ & _ & _ & S7).
    destruct (stopRecording_steady r) as (T1 & T2 & T3).
    rewrite (@delivered_app r (stopRecording r) _ _ S7).
    rewrite deliver_deaf by (now destruct e).
    unfold Ok. cbn [engine audioProcessor].
    rewrite S1, T1, T2, T3. split; [exact Hv'|].
    destruct e; cbn in *. now repeat split.
  - (* Frame *)
    pose proof (@VadOk_step Math_sqrt r (Recorder.Frame inputData rate tts) Hv) as Hv'.
    cbn [Recorder.step] in Hv'.
    pose proof (Calm_processAudioData Math_sqrt inputData rate tts r) as Hcalm.
    rewrite (delivered_Calm e Hcalm), <- Hck, atTime_same.
    destruct Hcalm as (C1 & C2 & C3 & C4 & _).
    unfold Ok. cbn [engine audioProcessor]. rewrite C1, C2, C3, C4.
    split; [exact Hv'|]. now repeat split.
  - (* TimerFires *)
    pose proof (@VadOk_step Math_sqrt r (Recorder.TimerFires id) Hv) as Hv'.
    cbn [Recorder.step] in Hv'.
    destruct (fire_steady id r) as (F1 & F2 & F3).
    assert (D : exists ns, notices (fire id r) = notices r ++ ns).
    { destruct (silenceTimer r) as [sid|] eqn:Es.
      - destruct (fire_silenceTimer Hv Es)
          as (start & due & E1 & E2 & _ & _ & _ & _ & _ & _ & _ & B6).
        destruct (N.eqb_spec sid id) as [<-|Hne].
        + eexists. exact B6.
        + exists []. unfold fire. rewrite E2. cbn [find fst].
          apply N.eqb_neq in Hne. rewrite Hne. now rewrite app_nil_r.
      - exists []. unfold fire. rewrite (VadOk_none Hv Es). cbn. now rewrite app_nil_r. }
    destruct D as (ns & D).
    rewrite (@delivered_app r (fire id r) ns e D).
    set (e0 := atTime (Recorder.clock (fire id r)) e).
    assert (W0 : Whisper.isListening e0 = Whisper.isListening e /\
                 Whisper.clock e0 = Recorder.clock (fire id r) /\
                 Whisper.processingQueue e0 = [] /\ Whisper.whisperContext e0 = true /\
                 (if Whisper.isProcessing e0 then exists a, Whisper.inFlight e0 = [a]
                  else Whisper.inFlight e0 = [])) by (destruct e; cbn in *; now repeat split).
    clearbody e0. clear D.
    assert (W : Whisper.isListening (fold_left deliver ns e0) = Whisper.isListening e /\
                Whisper.clock (fold_left deliver ns e0) = Recorder.clock (fire id r) /\
                Whisper.processingQueue (fold_left deliver ns e0) = [] /\
                Whisper.whisperContext (fold_left deliver ns e0) = true /\
                (if Whisper.isProcessing (fold_left deliver ns e0)
                 then exists a, Whisper.inFlight (fold_left deliver ns e0) = [a]
                 else Whisper.inFlight (fold_left deliver ns e0) = [])).
    { revert e0 W0. induction ns as [|n ns IH]; intros e0 W0; [exact W0|].
      cbn [fold_left]. apply IH. destruct n; try exact W0.
      cbn [deliver]. destruct W0 as (W1 & W2 & W3).
      destruct (processAudioData_flags audioData duration e0) as [-> ->].
      split; [exact W1|]. split; [exact W2|].
      exact (@WhisperFacts.step_invariant (list Q) e0 (Whisper.SpeechEnd audioData duration) W3). }
    destruct W as (W1 & W2 & W3 & W4 & W5).
    unfold Ok. cbn [engine audioProcessor]. rewrite F1, F2, F3, W1, W2.
    split; [exact Hv'|]. now repeat split.
  - (* ClockReaches *)
    pose proof (@VadOk_step Math_sqrt r (Recorder.ClockReaches t) Hv) as Hv'.
    cbn [Recorder.step] in Hv'.
    unfold Ok. cbn [engine audioProcessor]. split; [exact Hv'|].
    destruct r, e; cbn in *. now repeat split.
  - (* Settles *)
    destruct (transcribeSettles_flags res e) as [G1 G2].
    unfold Ok. cbn [engine audioProcessor]. rewrite G1, G2.
    repeat (split; [assumption|]).
    exact (@WhisperFacts.step_invariant (list Q) e (@Whisper.Settles (list Q) res) Wi).
Qed.

Lemma Ok_run (evs : list Listener.event) (l : Listener) :
  Ok l -> Ok (fold_left (Listener.step Math_sqrt) evs l).
Proof.
  revert l. induction evs as [|ev evs IH]; intros l H; [exact H|].
  cbn [fold_left]. apply IH. now apply Ok_step.
Qed.

(** X12: when the engine is stopped in the middle of an utterance, the
    processor hands the unfinished utterance to its speech-end callback (if
    it has lasted the minimum speech duration), but the engine has already
    lowered its listening flag, so nothing is queued or transcribed: the
    engine is exactly as after lowering the flag, and the processor is idle
    with an empty buffer and no timer, so the utterance is lost for good. *)
Theorem stop_loses_the_utterance_in_progress
    (vadConfig : VADConfig) (t0 : Z) (evs : list Listener.event) :
  (0 < t0)%Z ->
  let l := fold_left (Listener.step Math_sqrt) evs
             (updateConfig vadConfig (initialized t0)) in
  let r := audioProcessor l in
  let l' := Listener.stop l in
  engine l' = Whisper.stop (engine l) /\
  Whisper.transcribeCalls (engine l') = Whisper.transcribeCalls (engine l) /\
  Whisper.processingQueue (engine l') = Whisper.processingQueue (engine l) /\
  (Whisper.isListening (engine l) = true ->
   notices (audioProcessor l') = notices r ++
     match speechStartTime r with
     | Some start =>
         if (minSpeechDuration r <=? Recorder.clock r - start)%Z
         then [OnSpeechEnd (audioBuffer r) (Recorder.clock r - start)%Z] else []
     | None => []
     end) /\
  isRecording (audioProcessor l') = false /\
  speechStartTime (audioProcessor l') = None /\
  audioBuffer (audioProcessor l') = [] /\ timers (audioProcessor l') = [].
Proof.
  intros H0 l r l'.
  assert (H : Ok l) by (apply Ok_run, Ok_initialized, H0).
  unfold l', r. clearbody l. clear l' r.
  destruct H as (Hv & Hrl & Hck & Hcb & Hac & Hq & Hctx & Hfl).
  destruct l as [e r]. cbn [engine audioProcessor] in *.
  unfold Listener.stop, Whisper.stop. cbn [engine audioProcessor].
  destruct (Whisper.isListening e) eqn:El; cbn [negb engine audioProcessor].
  - destruct (stopRecording_spec Hv Hrl) as (S1 & S2 & S3 & S4 & S5 & S6 & S7).
    destruct (stopRecording_steady r) as (T1 & T2 & T3).
    rewrite (@delivered_app r (stopRecording r) _ _ S7).
    rewrite deliver_deaf by (now destruct e).
    rewrite T3, <- Hck.
    replace (atTime (Whisper.clock e) (Whisper.set_isListening false e))
      with (Whisper.set_isListening false e) by (now destruct e).
    split; [reflexivity|]. split; [now destruct e|]. split; [now destruct e|].
    split; [|now repeat split].
    intros _. rewrite S7, Hcb. f_equal.
    destruct (speechStartTime r); [|reflexivity]. now rewrite andb_true_r, Hck.
  - pose proof Hv as (_ & _ & Hr & Hf & _ & _).
    specialize (Hr Hrl). rewrite Hr in Hf. destruct (Hf eq_refl) as (_ & Hb & Hs).
    repeat split; try assumption; try discriminate.
    now apply VadOk_none.
Qed.

(** X13: an utterance that silence ends while the engine listens is
    transcribed exactly when no transcription is in progress: the buffered
    samples are the argument of the one new call of the transcriber; while
    a transcription is in progress the utterance is neither transcribed
    nor queued.  In both cases the processor is ready for the next
    utterance. *)
Theorem silence_ended_utterance_is_transcribed_when_idle
    (vadConfig : VADConfig) (t0 : Z) (evs : list Listener.event) (id : N) :
  (0 < t0)%Z ->
  let l := fold_left (Listener.step Math_sqrt) evs
             (updateConfig vadConfig (initialized t0)) in
  let r := audioProcessor l in
  silenceTimer r = Some id ->
  (minSpeechDuration r <= silenceTimeout r)%Z ->
  let l' := Listener.step Math_sqrt l (Listener.TimerFires id) in
  Whisper.isListening (engine l) = true /\
  Whisper.transcribeCalls (engine l') =
    Whisper.transcribeCalls (engine l) ++
    (if Whisper.isProcessing (engine l) then [] else [audioBuffer r]) /\
  Whisper.isProcessing (engine l') = true /\
  Whisper.processingQueue (engine l') = [] /\
  speechStartTime (audioProcessor l') = None /\
  audioBuffer (audioProcessor l') = [] /\ timers (audioProcessor l') = [].
Proof.
  intros H0 l r Hid Hmin l'.
  assert (H : Ok l) by (apply Ok_run, Ok_initialized, H0).
  unfold l', r in *. clearbody l. clear l' r.
  destruct H as (Hv & Hrl & Hck & Hcb & Hac & Hq & Hctx & Hfl).
  destruct l as [e r]. cbn [engine audioProcessor Listener.step] in *. cbv zeta.
  cbn [engine audioProcessor].
  destruct (fire_silenceTimer Hv Hid)
    as (start & due & E1 & E2 & Hst & Hd & B1 & B2 & B3 & B4 & B5 & B6).
  replace (minSpeechDuration r <=? Z.max (Recorder.clock r) due - start)%Z with true in B6
    by (symmetry; apply Z.leb_le; lia).
  rewrite Hcb in B6. cbn [andb] in B6.
  rewrite (@delivered_app r (fire id r) _ e B6). cbn [fold_left deliver].
  assert (El : Whisper.isListening e = true).
  { rewrite <- Hrl. destruct (isRecording r) eqn:Er; [reflexivity|].
    destruct Hv as (_ & _ & Hr & _). rewrite (Hr Er) in E1. discriminate. }
  split; [exact El|].
  split; [|split; [|split; [|now repeat split]]].
  - destruct e as [li p q c t f tc n]. cbn in *. clear Hrl. subst li q c.
    unfold Whisper.processAudioData, atTime. cbn.
    destruct p; cbn; [now rewrite app_nil_r | reflexivity].
  - destruct e as [li p q c t f tc n]. cbn in *. clear Hrl. subst li q c.
    unfold Whisper.processAudioData, atTime. cbn.
    destruct p; cbn; reflexivity.
  - destruct e as [li p q c t f tc n]. cbn in *. clear Hrl. subst li q c.
    unfold Whisper.processAudioData, atTime. cbn.
    destruct p; cbn; reflexivity.
Qed.

End WithSqrt.

Lemma stop_loses_the_utterance_in_progress_witness :
  let l := fold_left (Listener.step (fun x => x))
             [Listener.Start; Listener.Frame [1] 16000 false; Listener.ClockReaches 300]
             (updateConfig {| threshold := None; cfg_silenceTimeout := None;
                              cfg_minSpeechDuration := None |} (initialized 1)) in
  let r := audioProcessor l in
  let l' := Listener.stop l in
  engine l' = Whisper.stop (engine l) /\
  Whisper.transcribeCalls (engine l') = Whisper.transcribeCalls (engine l) /\
  Whisper.processingQueue (engine l') = Whisper.processingQueue (engine l) /\
  (Whisper.isListening (engine l) = true ->
   notices (audioProcessor l') = notices r ++
     match speechStartTime r with
     | Some start =>
         if (minSpeechDuration r <=? Recorder.clock r - start)%Z
         then [OnSpeechEnd (audioBuffer r) (Recorder.clock r - start)%Z] else []
     | None => []
     end) /\
  isRecording (audioProcessor l') = false /\
  speechStartTime (audioProcessor l') = None /\
  audioBuffer (audioProcessor l') = [] /\ timers (audioProcessor l') = [].
Proof.
  apply (@stop_loses_the_utterance_in_progress (fun x => x)). reflexivity.
Defined.

Lemma silence_ended_utterance_is_transcribed_when_idle_witness :
  let l := fold_left (Listener.step (fun x => x))
             [Listener.Start; Listener.Frame [1] 16000 false; Listener.ClockReaches 300;
              Listener.Frame [0] 16000 false]
             (updateConfig {| threshold := None; cfg_silenceTimeout := None;
                              cfg_minSpeechDuration := None |} (initialized 1)) in
  let r := audioProcessor l in
  let l' := Listener.step (fun x => x) l (Listener.TimerFires 1) in
  Whisper.isListening (engine l) = true /\
  Whisper.transcribeCalls (engine l') =
    Whisper.transcribeCalls (engine l) ++
    (if Whisper.isProcessing (engine l) then [] else [audioBuffer r]) /\
  Whisper.isProcessing (engine l') = true /\
  Whisper.processingQueue (engine l') = [] /\
  speechStartTime (audioProcessor l') = None /\
  audioBuffer (audioProcessor l') = [] /\ timers (audioProcessor l') = [].
Proof.
  apply (@silence_ended_utterance_is_transcribed_when_idle (fun x => x)).
  - reflexivity.
  - reflexivity.
  - vm_compute. discriminate.
Defined.

End ListenerFacts.
